(** * Session ownership, audio relay and reconnection: a shallow embedding

    The development follows the JavaScript sources of the voice-agent
    relay:

    - [utils/redisClient.js]      the [SessionManager] (session records and
                                  the ownership lease kept in Redis);
    - the ElevenLabs client       [ElevenLabsWebSocketClient]: connection
                                  state machine, heartbeat, reconnection
                                  back-off, [sendMessage], [endConversation];
    - the ElevenLabs handlers     [handleAudioMessage], which publishes the
                                  audio envelopes;
    - [routes/outbound-routes.js] the media-stream WebSocket server: relay
                                  subscription, audio buffer, close handler.

    Conventions.  A JavaScript object is a [json] value, a [Map] is a
    [gmap], a number that the code only ever uses as an integer is a [Z],
    [Math.random()] is a rational argument of the function that draws it,
    a double-precision operation yields the double nearest to its exact
    result, and asynchronous Redis calls are programs over the Redis commands, so
    that the same text of an operation can be run in one go or interleaved
    command by command with other processes. *)

From Stdlib Require Import ZArith QArith Qround Qpower Lia Lqa List Ascii String.
From Stdlib Require Sorted.
From stdpp Require Import base option gmap strings list pretty.

Local Open Scope Z_scope.
#[local] Set Warnings "-register-all".

(* ===================================================================== *)
(** * Double-precision arithmetic                                         *)
(* ===================================================================== *)

Module Double.

(** The binade of a positive rational: the [e] with
    [2^e <= x < 2^(e+1)].  The difference of the bit lengths of numerator
    and denominator is [e] or [e + 1]. *)
Definition binade (x : Q) : Z :=
  let e0 := Z.log2 (Qnum x) - Z.log2 (Z.pos (Qden x)) in
  if Qle_bool (2 ^ e0) x then e0 else e0 - 1.

(** The exponent of the unit in the last place of a double of the size
    of [x]: 53 significant bits, and [2^-1074] below the normal range. *)
Definition ulp_exponent (x : Q) : Z := Z.max (binade x - 52) (-1074).

(** The integer nearest to [x], the even one of two that are equally
    near. *)
Definition round_half_even (x : Q) : Z :=
  let f := Qfloor x in
  match (x - inject_Z f ?= 1 # 2)%Q with
  | Lt => f
  | Gt => f + 1
  | Eq => if Z.even f then f else f + 1
  end.

(** The double nearest to a positive [x]: [x] is rounded to a multiple
    of its unit in the last place. *)
Definition nearest (x : Q) : Q :=
  let e := ulp_exponent x in
  (inject_Z (round_half_even (x / 2 ^ e)) * 2 ^ e)%Q.

(** The value of a double-precision operation whose exact result is
    [x]: IEEE 754 binary64, round to nearest, ties to even.  Results at
    or above [2^1024], which would be [Infinity], do not occur in the
    computations below. *)
Definition to_double (x : Q) : Q :=
  match Qnum x with
  | Z0 => 0
  | Z.pos _ => nearest x
  | Z.neg _ => - nearest (- x)
  end.

End Double.

(* ===================================================================== *)
(** * Reconnection back-off ([_scheduleReconnect], delay computation)     *)
(* ===================================================================== *)

Module Backoff.
Import Double.

Definition RECONNECT_BASE_DELAY_MS : Z := 1000.
Definition RECONNECT_MAX_DELAY_MS : Z := 30000.
Definition RECONNECT_FACTOR : Z := 2.

(** [RECONNECT_MAX_ATTEMPTS = 10; // Or null for infinite] *)
Definition RECONNECT_MAX_ATTEMPTS : option Z := Some 10.

(** [Math.min(RECONNECT_MAX_DELAY_MS,
              RECONNECT_BASE_DELAY_MS *
                Math.pow(RECONNECT_FACTOR, session.reconnectAttempts - 1))]
    where [attempts] is the counter after its increment. *)
Definition baseDelay (attempts : Z) : Z :=
  Z.min RECONNECT_MAX_DELAY_MS
        (RECONNECT_BASE_DELAY_MS * RECONNECT_FACTOR ^ (attempts - 1)).

(** [baseDelay * 0.2 * Math.random()]; [rnd] is the number drawn, a
    double of [[0, 1)].  The literal [0.2] is the double nearest to one
    fifth, and each of the two products is rounded to a double. *)
Definition jitter (attempts : Z) (rnd : Q) : Q :=
  to_double
    (to_double (inject_Z (baseDelay attempts) * to_double (2 # 10)) * rnd)%Q.

(** [Math.round x]: the integer nearest to [x], halves rounded up. *)
Definition Math_round (x : Q) : Z := Qfloor (x + (1 # 2))%Q.

(** [Math.round(baseDelay + jitter)], the sum rounded to a double. *)
Definition delay (attempts : Z) (rnd : Q) : Z :=
  Math_round
    (to_double (inject_Z (baseDelay attempts) + jitter attempts rnd))%Q.

(** The statement of the specification: whatever the jitter, the delay
    stays under the cap. *)
Definition never_exceeds_cap : Prop :=
  forall (attempts : Z) (rnd : Q),
    1 <= attempts -> (0 <= rnd)%Q -> (rnd < 1)%Q ->
    delay attempts rnd <= RECONNECT_MAX_DELAY_MS.

End Backoff.

(* ===================================================================== *)
(** * JavaScript values                                                   *)
(* ===================================================================== *)

Module Js.

(** JSON values; an object keeps its fields in insertion order. *)
Inductive json : Type :=
| JNull
| JBool (b : bool)
| JNum (n : Z)
| JStr (s : string)
| JObj (fields : list (string * json)).

Abbreviation object := (list (string * json)).

(** [o[k]], [None] standing for [undefined]. *)
Fixpoint field (k : string) (o : object) : option json :=
  match o with
  | [] => None
  | (k', v) :: rest => if String.eqb k k' then Some v else field k rest
  end.

(** [o[k] = v]: an existing key keeps its place, a new key goes last. *)
Fixpoint set_field (k : string) (v : json) (o : object) : object :=
  match o with
  | [] => [(k, v)]
  | (k', v') :: rest =>
      if String.eqb k k' then (k', v) :: rest
      else (k', v') :: set_field k v rest
  end.

(** [delete o[k]] *)
Fixpoint remove_field (k : string) (o : object) : object :=
  match o with
  | [] => []
  | (k', v) :: rest =>
      if String.eqb k k' then rest else (k', v) :: remove_field k rest
  end.

(** [{ ...o, k1: v1, ..., kn: vn }] *)
Definition spread (o : object) (updates : list (string * json)) : object :=
  fold_left (fun acc kv => set_field kv.1 kv.2 acc) updates o.

(** [j.k] on an arbitrary value: only objects have fields. *)
Definition get (k : string) (j : json) : option json :=
  match j with
  | JObj o => field k o
  | _ => None
  end.

(** The own enumerable properties that [{ ...j }] copies: the fields of
    an object, the characters of a string under their indices, nothing
    for the other primitives. *)
Fixpoint chars_from (i : Z) (s : string) : object :=
  match s with
  | EmptyString => []
  | String a rest =>
      (pretty i, JStr (String a EmptyString)) :: chars_from (i + 1) rest
  end.

Definition own_fields (j : json) : object :=
  match j with
  | JObj o => o
  | JStr s => chars_from 0 s
  | _ => []
  end.

(** JavaScript truthiness of a value, and of a possibly undefined one. *)
Definition truthy (j : json) : bool :=
  match j with
  | JNull => false
  | JBool b => b
  | JNum n => negb (n =? 0)
  | JStr s => negb (String.eqb s "")
  | JObj _ => true
  end.

Definition truthy_opt (o : option json) : bool :=
  match o with
  | Some j => truthy j
  | None => false
  end.

(** [v === 'text'] for a possibly undefined [v]. *)
Definition is_string (text : string) (o : option json) : bool :=
  match o with
  | Some (JStr t) => String.eqb t text
  | _ => false
  end.

(** [String(n)] for an integer [n]. *)
Definition String_of (n : Z) : string := pretty n.

(** Template-literal interpolation [`${v}`] of the values that occur in
    the log and close-reason strings. *)
Definition interpolate (o : option json) : string :=
  match o with
  | None => "undefined"
  | Some JNull => "null"
  | Some (JBool true) => "true"
  | Some (JBool false) => "false"
  | Some (JNum n) => String_of n
  | Some (JStr s) => s
  | Some (JObj _) => "[object Object]"
  end.

End Js.

(* ===================================================================== *)
(** * The Redis store and programs over its commands                      *)
(* ===================================================================== *)

Module Redis.
Import Js.

(** A key with its expiry instant (seconds).  A key whose instant has
    passed is gone, whether or not Redis has reclaimed it yet. *)
Record entry (V : Type) : Type := Entry { value : V; expiresAt : Z }.
Arguments Entry {V} _ _.
Arguments value {V} _.
Arguments expiresAt {V} _.

(** The session manager builds its keys from fixed prefixes and writes
    one kind of value under each: the decimal process id under
    [session_owner:<id>], the JSON text of the session record under
    [outbound_session:<id>].  The store keeps the two families apart,
    each indexed by the session id, and keeps the record itself in place
    of its JSON text ([JSON.parse (JSON.stringify d)] is [d] for records
    of strings, integers, booleans and null). *)
Record store : Type := Store {
  session_owner : gmap string (entry string);
  outbound_session : gmap string (entry json)
}.

Definition empty : store := Store ∅ ∅.

Definition live {V} (now : Z) (e : entry V) : bool := now <? expiresAt e.

Definition read {V} (now : Z) (m : gmap string (entry V)) (k : string)
  : option V :=
  match m !! k with
  | Some e => if live now e then Some (value e) else None
  | None => None
  end.

(** The commands the session manager issues, with the type of their
    replies.  [SET] replies ['OK'] ([true]) or [null] ([false]);
    [EXPIRE] and [DEL] reply the number of keys touched. *)
Inductive cmd : Type -> Type :=
| GET_owner (sid : string) : cmd (option string)
| SET_owner (sid : string) (v : string) (EX : Z) (NX : bool) : cmd bool
| EXPIRE_owner (sid : string) (seconds : Z) : cmd Z
| DEL_owner (sid : string) : cmd Z
| GET_session (sid : string) : cmd (option json)
| SET_session (sid : string) (data : json) (EX : Z) : cmd bool
| DEL_session (sid : string) : cmd Z.

(** One command, executed atomically at instant [now].  [None]: the
    server rejects the command ([SET] with a non-positive [EX]). *)
Definition exec {R} (c : cmd R) (now : Z) (st : store) : option (R * store) :=
  match c in cmd R return option (R * store) with
  | GET_owner sid => Some (read now (session_owner st) sid, st)
  | SET_owner sid v ex nx =>
      if ex <=? 0 then None
      else if nx && bool_decide (is_Some (read now (session_owner st) sid))
      then Some (false, st)
      else Some (true,
                 Store (<[sid := Entry v (now + ex)]> (session_owner st))
                       (outbound_session st))
  | EXPIRE_owner sid seconds =>
      match read now (session_owner st) sid with
      | Some v =>
          Some (1, Store (<[sid := Entry v (now + seconds)]> (session_owner st))
                         (outbound_session st))
      | None => Some (0, st)
      end
  | DEL_owner sid =>
      Some (if read now (session_owner st) sid is Some _ then 1 else 0,
            Store (delete sid (session_owner st)) (outbound_session st))
  | GET_session sid => Some (read now (outbound_session st) sid, st)
  | SET_session sid data ex =>
      if ex <=? 0 then None
      else Some (true,
                 Store (session_owner st)
                       (<[sid := Entry data (now + ex)]> (outbound_session st)))
  | DEL_session sid =>
      Some (if read now (outbound_session st) sid is Some _ then 1 else 0,
            Store (session_owner st) (delete sid (outbound_session st)))
  end.

(** An asynchronous function: a tree of commands.  [Do c k h] awaits
    command [c], goes on with [k] on its reply and with [h] when the
    promise rejects; [Throw] is an exception that nothing caught. *)
Inductive prog (A : Type) : Type :=
| Ret (a : A)
| Throw
| Do {R : Type} (c : cmd R) (k : R -> prog A) (h : prog A).
Arguments Ret {A} _.
Arguments Throw {A}.
Arguments Do {A R} _ _ _.

Fixpoint bind {A B} (p : prog A) (f : A -> prog B) : prog B :=
  match p with
  | Ret a => f a
  | Throw => Throw
  | Do c k h => Do c (fun r => bind (k r) f) (bind h f)
  end.

(** [try { p } catch (err) { handler }] *)
Fixpoint try_catch {A} (p : prog A) (handler : prog A) : prog A :=
  match p with
  | Ret a => Ret a
  | Throw => handler
  | Do c k h => Do c (fun r => try_catch (k r) handler) (try_catch h handler)
  end.

(** [await client.c(...)] *)
Definition await {R} (c : cmd R) : prog R := Do c Ret Throw.

#[global] Instance prog_ret : MRet prog := @Ret.
#[global] Instance prog_bind : MBind prog := fun A B f p => bind p f.

Inductive outcome (A : Type) : Type :=
| Returned (a : A)
| Thrown.
Arguments Returned {A} _.
Arguments Thrown {A}.

(** Run a program to its end at instant [now], nothing else touching the
    store meanwhile.  [faults] says, command after command, whether the
    connection fails it; past its end no command fails. *)
Fixpoint run {A} (p : prog A) (faults : list bool) (now : Z) (st : store)
  : outcome A * store :=
  match p with
  | Ret a => (Returned a, st)
  | Throw => (Thrown, st)
  | Do c k h =>
      match faults with
      | true :: rest => run h rest now st
      | _ =>
          match exec c now st with
          | Some (r, st') => run (k r) (tail faults) now st'
          | None => run h (tail faults) now st
          end
      end
  end.

End Redis.

(* ===================================================================== *)
(** * [SessionManager] ([utils/redisClient.js])                           *)
(* ===================================================================== *)

Module SessionManager.
Import Js Redis.

(** Default values of the [ttlSeconds] parameters. *)
Definition OWNERSHIP_TTL : Z := 30.
Definition SESSION_TTL : Z := 3600.

(** [!currentOwner] for the reply of [GET]: [null] and the empty string
    are falsy. *)
Definition falsy (reply : option string) : bool :=
  match reply with
  | None => true
  | Some s => String.eqb s ""
  end.

(** [saveOutboundSession(sessionId, data, ttlSeconds = 3600)] *)
Definition saveOutboundSession (sessionId : string) (data : json)
    (ttlSeconds : Z) : prog unit :=
  try_catch
    (_ ← await (SET_session sessionId data ttlSeconds); mret tt)
    (mret tt).

(** [getOutboundSession(sessionId)] *)
Definition getOutboundSession (sessionId : string) : prog (option json) :=
  try_catch
    (data ← await (GET_session sessionId); mret data)
    (mret None).

(** [deleteOutboundSession(sessionId)] *)
Definition deleteOutboundSession (sessionId : string) : prog unit :=
  try_catch
    (_ ← await (DEL_session sessionId); mret tt)
    (mret tt).

(** [acquireSessionOwnership(sessionId, processId, ttlSeconds = 30)] *)
Definition acquireSessionOwnership (sessionId : string) (processId : Z)
    (ttlSeconds : Z) : prog bool :=
  try_catch
    (result ← await (SET_owner sessionId (String_of processId) ttlSeconds true);
     if result : bool then mret true
     else
       (* the owner is read again for the log line only *)
       _ ← await (GET_owner sessionId);
       mret false)
    (mret false).

(** [updateSessionOwnership(sessionId, processId, ttlSeconds = 30)] *)
Definition updateSessionOwnership (sessionId : string) (processId : Z)
    (ttlSeconds : Z) : prog bool :=
  try_catch
    (currentOwner ← await (GET_owner sessionId);
     if falsy currentOwner then
       acquireSessionOwnership sessionId processId ttlSeconds
     else if bool_decide (currentOwner = Some (String_of processId)) then
       _ ← await (EXPIRE_owner sessionId ttlSeconds);
       mret true
     else mret false)
    (mret false).

(** [releaseSessionOwnership(sessionId, processId)] *)
Definition releaseSessionOwnership (sessionId : string) (processId : Z)
  : prog bool :=
  try_catch
    (currentOwner ← await (GET_owner sessionId);
     if falsy currentOwner then mret true
     else if bool_decide (currentOwner = Some (String_of processId)) then
       _ ← await (DEL_owner sessionId);
       mret true
     else mret false)
    (mret false).

(** [parseInt(s, 10)]: leading blanks, an optional sign, then the longest
    run of decimal digits; [None] is [NaN]. *)
Definition digit (a : ascii) : option Z :=
  let n := Z.of_nat (nat_of_ascii a) in
  if (48 <=? n) && (n <=? 57) then Some (n - 48) else None.

Fixpoint digits (s : string) (acc : option Z) : option Z :=
  match s with
  | EmptyString => acc
  | String a rest =>
      match digit a with
      | Some d => digits rest (Some (10 * default 0 acc + d))
      | None => acc
      end
  end.

Definition blank (a : ascii) : bool :=
  let n := Z.of_nat (nat_of_ascii a) in
  (n =? 32) || ((9 <=? n) && (n <=? 13)).

Fixpoint skip_blanks (s : string) : string :=
  match s with
  | String a rest => if blank a then skip_blanks rest else s
  | EmptyString => s
  end.

Definition parseInt (s : string) : option Z :=
  match skip_blanks s with
  | String "-" rest => Z.opp <$> digits rest None
  | String "+" rest => digits rest None
  | t => digits t None
  end.

(** [getSessionOwner(sessionId)]: [owner ? parseInt(owner, 10) : null] *)
Definition getSessionOwner (sessionId : string) : prog (option Z) :=
  try_catch
    (owner ← await (GET_owner sessionId);
     mret (if falsy owner then None else owner ≫= parseInt))
    (mret None).

End SessionManager.

(* ===================================================================== *)
(** * Registry operations interleaved command by command                  *)
(* ===================================================================== *)

Module Interleaving.
Import Js Redis SessionManager.

Inductive opkind : Type := Acquire | Renew | Release.

(** A call in flight: what remains of its program. *)
Record thread : Type := Thread {
  op : opkind;
  ttl : Z;
  code : prog bool
}.

(** A call that returned: who called what, the boolean it got, when, and
    the lease term it asked for. *)
Record completion : Type := Completion {
  who : Z;
  what : opkind;
  result : bool;
  returned_at : Z;
  term : Z
}.

(** Several processes around one store.  Each process runs at most one
    registry call at a time; [history] has the latest return first. *)
Record world : Type := World {
  now : Z;
  db : store;
  running : gmap Z thread;
  history : list completion
}.

Definition init : world := World 0 Redis.empty ∅ [].

Definition program (sessionId : string) (processId : Z) (o : opkind)
    (ttlSeconds : Z) : prog bool :=
  match o with
  | Acquire => acquireSessionOwnership sessionId processId ttlSeconds
  | Renew => updateSessionOwnership sessionId processId ttlSeconds
  | Release => releaseSessionOwnership sessionId processId
  end.

Inductive action : Type :=
| Tick (seconds : Z)                        (* time passes *)
| Invoke (processId : Z) (o : opkind) (ttlSeconds : Z)
| Step (processId : Z) (fault : bool).      (* one command of one call *)

(** Put the call of [processId] back, or retire it when it has returned. *)
Definition settle (processId : Z) (th : thread) (st : store) (w : world)
  : world :=
  match code th with
  | Ret b =>
      World (now w) st (delete processId (running w))
            (Completion processId (op th) b (now w) (ttl th) :: history w)
  | Throw => World (now w) st (delete processId (running w)) (history w)
  | Do _ _ _ =>
      World (now w) st (<[processId := th]> (running w)) (history w)
  end.

Definition step (sessionId : string) (a : action) (w : world)
  : option world :=
  match a with
  | Tick d =>
      if 0 <? d then Some (World (now w + d) (db w) (running w) (history w))
      else None
  | Invoke processId o ttlSeconds =>
      match running w !! processId with
      | Some _ => None
      | None =>
          Some (settle processId
                  (Thread o ttlSeconds
                     (program sessionId processId o ttlSeconds))
                  (db w) w)
      end
  | Step processId fault =>
      match running w !! processId with
      | Some th =>
          match code th with
          | Do c k h =>
              if fault then
                Some (settle processId (Thread (op th) (ttl th) h) (db w) w)
              else
                match exec c (now w) (db w) with
                | Some (r, st') =>
                    Some (settle processId (Thread (op th) (ttl th) (k r))
                            st' w)
                | None =>
                    Some (settle processId (Thread (op th) (ttl th) h)
                            (db w) w)
                end
          | _ => None
          end
      | None => None
      end
  end.

Fixpoint steps (sessionId : string) (sched : list action) (w : world)
  : option world :=
  match sched with
  | [] => Some w
  | a :: rest =>
      match step sessionId a w with
      | Some w' => steps sessionId rest w'
      | None => None
      end
  end.

(** What the registry last told [processId]. *)
Definition last_answer (processId : Z) (h : list completion)
  : option completion :=
  List.find (fun c => bool_decide (who c = processId)) h.

(** [processId] holds an unexpired lease: the last answer it got from the
    registry is a successful acquire or renew, and the term it asked for
    has not run out since. *)
Definition holds (w : world) (processId : Z) : bool :=
  match last_answer processId (history w) with
  | Some c =>
      result c
      && match what c with Release => false | _ => true end
      && (now w <? returned_at c + term c)
  | None => false
  end.

(** The process named by the store as the owner, if the key is live. *)
Definition recorded_owner (sessionId : string) (w : world) : option string :=
  read (now w) (session_owner (db w)) sessionId.

Definition at_most_one_holder (w : world) : Prop :=
  forall p q : Z, holds w p = true -> holds w q = true -> p = q.

(** The same processes when every registry call runs as one step, its
    commands one after the other at one instant, as a compare-and-set or
    a compare-and-delete would. *)
Inductive call : Type :=
| Pass (seconds : Z)
| Whole (processId : Z) (o : opkind) (ttlSeconds : Z).

Definition whole_step (sessionId : string) (a : call) (w : world) : world :=
  match a with
  | Pass d =>
      if 0 <? d then World (now w + d) (db w) (running w) (history w) else w
  | Whole processId o ttlSeconds =>
      match run (program sessionId processId o ttlSeconds) [] (now w) (db w)
      with
      | (Returned b, st') =>
          World (now w) st' (running w)
            (Completion processId o b (now w) ttlSeconds :: history w)
      | (Thrown, st') => World (now w) st' (running w) (history w)
      end
  end.

Definition whole_steps (sessionId : string) (calls : list call) (w : world)
  : world :=
  fold_left (fun w a => whole_step sessionId a w) calls w.

End Interleaving.

(* ===================================================================== *)
(** * WebSocket objects (the [ws] library, as far as the code uses it)    *)
(* ===================================================================== *)

Module Ws.
Import Js.

Inductive readyState : Type := CONNECTING | OPEN | CLOSING | CLOSED.

#[global] Instance readyState_eq_dec : EqDecision readyState.
Proof. solve_decision. Defined.

(** A socket: what was handed to [send] (oldest first), the pings sent,
    the [close(code, reason)] calls made, whether [terminate()] was
    called, and whether its event listeners are still attached. *)
Record socket : Type := Socket {
  state : readyState;
  sent : list json;
  pings : nat;
  close_calls : list (Z * string);
  terminated : bool;
  listeners : bool
}.

(** [new WebSocket(url)] *)
Definition fresh : socket := Socket CONNECTING [] 0 [] false true.

(** [ws.send(JSON.stringify(m))].  An open socket transmits; a socket
    that is still connecting throws; a closing or closed socket drops
    the message.  [None] is the exception. *)
Definition send (m : json) (w : socket) : option socket :=
  match state w with
  | OPEN =>
      Some (Socket OPEN (sent w ++ [m]) (pings w) (close_calls w)
              (terminated w) (listeners w))
  | CONNECTING => None
  | _ => Some w
  end.

(** [ws.ping()] on an open socket. *)
Definition ping (w : socket) : socket :=
  Socket (state w) (sent w) (S (pings w)) (close_calls w) (terminated w)
    (listeners w).

(** [ws.close(code, reason)]: starts the closing handshake unless the
    socket is closed already. *)
Definition close (code : Z) (reason : string) (w : socket) : socket :=
  match state w with
  | CLOSED => w
  | _ =>
      Socket CLOSING (sent w) (pings w) (close_calls w ++ [(code, reason)])
        (terminated w) (listeners w)
  end.

(** [ws.terminate()] *)
Definition terminate (w : socket) : socket :=
  Socket CLOSED (sent w) (pings w) (close_calls w) true (listeners w).

(** [ws.removeAllListeners()] *)
Definition removeAllListeners (w : socket) : socket :=
  Socket (state w) (sent w) (pings w) (close_calls w) (terminated w) false.

End Ws.

(* ===================================================================== *)
(** * [ElevenLabsWebSocketClient]: local session table and state machine  *)
(* ===================================================================== *)

Module Client.
Import Js Backoff.

Inductive Status : Type :=
| CONNECTING | OPEN | ERROR | CLOSED_TEMP | RECONNECTING | CLOSING | CLOSED.

#[global] Instance Status_eq_dec : EqDecision Status.
Proof. solve_decision. Defined.

Definition status_name (x : Status) : string :=
  match x with
  | CONNECTING => "CONNECTING"
  | OPEN => "OPEN"
  | ERROR => "ERROR"
  | CLOSED_TEMP => "CLOSED_TEMP"
  | RECONNECTING => "RECONNECTING"
  | CLOSING => "CLOSING"
  | CLOSED => "CLOSED"
  end.

(** Which of the optional callbacks the caller of [startConversation]
    supplied. *)
Record callbacks : Type := Callbacks {
  onMessage : bool;
  onError : bool;
  onClose : bool;
  onReconnecting : bool
}.

(** The [sessionData] object.  A timer field holds what the source keeps
    there: [reconnectTimer] the delay of the pending [setTimeout],
    the two heartbeat timers whether they are armed. *)
Record session : Type := Session {
  ws : option Ws.socket;
  agentId : string;
  status : Status;
  cbs : callbacks;
  reconnectTimer : option Z;
  heartbeatTimer : bool;
  pongTimeoutTimer : bool;
  reconnectAttempts : Z;
  processId : Z
}.

Definition set_ws (v : option Ws.socket) (s : session) : session :=
  Session v (agentId s) (status s) (cbs s) (reconnectTimer s)
    (heartbeatTimer s) (pongTimeoutTimer s) (reconnectAttempts s)
    (processId s).
Definition set_status (v : Status) (s : session) : session :=
  Session (ws s) (agentId s) v (cbs s) (reconnectTimer s)
    (heartbeatTimer s) (pongTimeoutTimer s) (reconnectAttempts s)
    (processId s).
Definition set_reconnectTimer (v : option Z) (s : session) : session :=
  Session (ws s) (agentId s) (status s) (cbs s) v
    (heartbeatTimer s) (pongTimeoutTimer s) (reconnectAttempts s)
    (processId s).
Definition set_heartbeatTimer (v : bool) (s : session) : session :=
  Session (ws s) (agentId s) (status s) (cbs s) (reconnectTimer s)
    v (pongTimeoutTimer s) (reconnectAttempts s) (processId s).
Definition set_pongTimeoutTimer (v : bool) (s : session) : session :=
  Session (ws s) (agentId s) (status s) (cbs s) (reconnectTimer s)
    (heartbeatTimer s) v (reconnectAttempts s) (processId s).
Definition set_reconnectAttempts (v : Z) (s : session) : session :=
  Session (ws s) (agentId s) (status s) (cbs s) (reconnectTimer s)
    (heartbeatTimer s) (pongTimeoutTimer s) v (processId s).

(** What the client lets the outside see: events it emits and callbacks
    it invokes, with their arguments, oldest first. *)
Inductive effect : Type :=
| Emit (event : string) (args : list json)
| Call (callback : string) (args : list json).

(** One process.  Session objects live in [objects]; [activeSessions]
    maps a session id to its object, as the module-level [Map] does.  An
    object deleted from the table stays in [objects], where the closures
    of the timers and socket handlers that captured it still reach it. *)
Record client : Type := ClientState {
  pid : Z;
  objects : gmap nat session;
  activeSessions : gmap string nat;
  effects : list effect
}.

Definition new_client (processId : Z) : client :=
  ClientState processId ∅ ∅ [].

(** [activeSessions.get(sessionId)] *)
Definition get (c : client) (sessionId : string) : option (nat * session) :=
  l ← activeSessions c !! sessionId;
  s ← objects c !! l;
  Some (l, s).

(** Mutation of the object at [l]. *)
Definition update (l : nat) (f : session -> session) (c : client) : client :=
  ClientState (pid c) (alter f l (objects c)) (activeSessions c) (effects c).

(** Mutation of [activeSessions.get(sessionId)], when there is one. *)
Definition update_active (sessionId : string) (f : session -> session)
    (c : client) : client :=
  match get c sessionId with
  | Some (l, _) => update l f c
  | None => c
  end.

Definition emit (event : string) (args : list json) (c : client) : client :=
  ClientState (pid c) (objects c) (activeSessions c)
    (effects c ++ [Emit event args]).

Definition call (callback : string) (args : list json) (c : client)
  : client :=
  ClientState (pid c) (objects c) (activeSessions c)
    (effects c ++ [Call callback args]).

Definition closing_or_closed (x : Status) : bool :=
  bool_decide (x = CLOSING) || bool_decide (x = CLOSED).

Definition _clearPongTimeoutTimer (sessionId : string) : client -> client :=
  update_active sessionId (set_pongTimeoutTimer false).

Definition _clearReconnectTimer (sessionId : string) : client -> client :=
  update_active sessionId (set_reconnectTimer None).

Definition _clearHeartbeatIntervalTimer (sessionId : string)
  : client -> client :=
  update_active sessionId (set_heartbeatTimer false).

Definition _clearTimers (sessionId : string) (c : client) : client :=
  _clearPongTimeoutTimer sessionId (_clearHeartbeatIntervalTimer sessionId c).

Definition _stopHeartbeat (sessionId : string) : client -> client :=
  _clearTimers sessionId.

(** [_cleanupSession(sessionId)] *)
Definition _cleanupSession (sessionId : string) (c : client) : client :=
  match get c sessionId with
  | Some (l, _) =>
      let c1 := _clearTimers sessionId c in
      let c2 := _clearReconnectTimer sessionId c1 in
      let c3 :=
        update l (fun s => set_ws (Ws.removeAllListeners <$> ws s) s) c2 in
      ClientState (pid c3) (objects c3)
        (delete sessionId (activeSessions c3)) (effects c3)
  | None => c
  end.

Definition MAX_ATTEMPTS_REASON : string := "Max reconnection attempts reached".

(** [RECONNECT_MAX_ATTEMPTS !== null &&
     session.reconnectAttempts >= RECONNECT_MAX_ATTEMPTS] *)
Definition max_attempts_reached (attempts : Z) : bool :=
  match RECONNECT_MAX_ATTEMPTS with
  | Some m => m <=? attempts
  | None => false
  end.

(** [_scheduleReconnect(sessionId)]; [rnd] is what [Math.random()]
    returns. *)
Definition _scheduleReconnect (sessionId : string) (rnd : Q) (c : client)
  : client :=
  match get c sessionId with
  | None => c
  | Some (l, s) =>
      if closing_or_closed (status s) then c
      else if max_attempts_reached (reconnectAttempts s) then
        let c1 := update l (set_status CLOSED) c in
        let c2 :=
          emit "permanently_closed"
            [JStr sessionId; JStr MAX_ATTEMPTS_REASON] c1 in
        let c3 :=
          if onClose (cbs s)
          then call "onClose"
                 [JStr sessionId; JNum 1011; JStr MAX_ATTEMPTS_REASON] c2
          else c2 in
        _cleanupSession sessionId c3
      else
        let attempts := reconnectAttempts s + 1 in
        let c1 :=
          update l (fun s => set_status RECONNECTING
                               (set_reconnectAttempts attempts s)) c in
        let d := delay attempts rnd in
        let c2 :=
          emit "reconnecting" [JStr sessionId; JNum attempts; JNum d] c1 in
        let c3 :=
          if onReconnecting (cbs s)
          then call "onReconnecting"
                 [JStr sessionId; JNum attempts; JNum d] c2
          else c2 in
        let c4 := _clearReconnectTimer sessionId c3 in
        update l (set_reconnectTimer (Some d)) c4
  end.

(** [_handleDisconnect(sessionId, isCleanClose)] *)
Definition _handleDisconnect (sessionId : string) (isCleanClose : bool)
    (rnd : Q) (c : client) : client :=
  match get c sessionId with
  | None => c
  | Some (l, s) =>
      if closing_or_closed (status s) then c
      else
        let c1 := _stopHeartbeat sessionId c in
        if isCleanClose || bool_decide (status s = CLOSING) then
          let c2 := update l (set_status CLOSED) c1 in
          let c3 :=
            emit "close" [JStr sessionId; JNum 1000; JStr "Clean closure"]
              c2 in
          let c4 :=
            if onClose (cbs s)
            then call "onClose"
                   [JStr sessionId; JNum 1000; JStr "Clean closure"] c3
            else c3 in
          _cleanupSession sessionId c4
        else _scheduleReconnect sessionId rnd c1
  end.

(** [_connect(sessionId)]; [throws] says whether [new WebSocket(...)]
    throws.  On success the new socket is stored in the session and the
    four handlers below are attached to it. *)
Definition _connect (sessionId : string) (throws : bool) (rnd : Q)
    (c : client) : client :=
  match get c sessionId with
  | None => c
  | Some (l, s) =>
      if closing_or_closed (status s) then c
      else
        let c1 := update l (set_status CONNECTING) c in
        let c2 := _clearTimers sessionId c1 in
        if throws then
          let c3 := update l (set_status ERROR) c2 in
          _handleDisconnect sessionId false rnd c3
        else update l (set_ws (Some Ws.fresh)) c2
  end.

(** [_startHeartbeat(sessionId)]: arms the interval timer.  (It also
    subscribes to the channel of caller audio, which is not part of this
    state.) *)
Definition _startHeartbeat (sessionId : string) (c : client) : client :=
  match get c sessionId with
  | None => c
  | Some (l, s) =>
      if bool_decide (status s = OPEN) then
        let c1 := _clearTimers sessionId c in
        update l (set_heartbeatTimer true) c1
      else c
  end.

(** [_resetHeartbeatTimers(sessionId)] *)
Definition _resetHeartbeatTimers (sessionId : string) (c : client) : client :=
  match get c sessionId with
  | Some (_, s) =>
      if bool_decide (status s = OPEN)
      then _clearPongTimeoutTimer sessionId c else c
  | None => c
  end.

(** The socket of a session is open: [session.ws &&
    session.ws.readyState === WebSocket.OPEN]. *)
Definition socket_open (s : session) : bool :=
  match ws s with
  | Some w => bool_decide (Ws.state w = Ws.OPEN)
  | None => false
  end.

(** [sendMessage(sessionId, message)]: the boolean returned and the new
    state.  Past the guard everything is inside [try]: reading
    [message.type] of [null] throws, and so may [send]; the function then
    answers [false]. *)
Definition sendMessage (sessionId : string) (message : json) (c : client)
  : bool * client :=
  match get c sessionId with
  | None => (false, c)
  | Some (l, s) =>
      if negb (bool_decide (status s = OPEN)) || negb (socket_open s)
      then (false, c)
      else
        match message with
        | JNull => (false, c)
        | _ =>
            match ws s ≫= Ws.send message with
            | Some w' => (true, update l (set_ws (Some w')) c)
            | None => (false, c)
            end
        end
  end.

(** [sendAudioChunk(sessionId, audioBase64)]: the result of
    [sendMessage] is dropped, the function returns nothing. *)
Definition sendAudioChunk (sessionId : string) (audioBase64 : json)
    (c : client) : client :=
  (sendMessage sessionId (JObj [("user_audio_chunk", audioBase64)]) c).2.

(** [isSessionActive], [isSessionActiveOrOpening],
    [isSessionActiveOrReconnecting], as the conditions they are used as. *)
Definition isSessionActive (sessionId : string) (c : client) : bool :=
  match get c sessionId with
  | Some (_, s) => bool_decide (status s = OPEN)
  | None => false
  end.

Definition isSessionActiveOrOpening (sessionId : string) (c : client)
  : bool :=
  match get c sessionId with
  | Some (_, s) =>
      bool_decide (status s ∈ [OPEN; CONNECTING; RECONNECTING])
  | None => false
  end.

Definition isSessionActiveOrReconnecting (sessionId : string) (c : client)
  : bool :=
  match get c sessionId with
  | Some (_, s) => bool_decide (status s ∈ [OPEN; RECONNECTING])
  | None => false
  end.

(** [getSessionStatus(sessionId)] *)
Definition getSessionStatus (sessionId : string) (c : client) : string :=
  match get c sessionId with
  | Some (_, s) => status_name (status s)
  | None => "NOT_FOUND"
  end.

End Client.

(* ===================================================================== *)
(** * [ElevenLabsWebSocketClient]: the asynchronous methods               *)
(* ===================================================================== *)

Module ClientAsync.
Import Js Redis SessionManager Client.

(** [_refreshOwnership(sessionId)] *)
Definition _refreshOwnership (sessionId : string) (c : client) : prog unit :=
  try_catch
    (match get c sessionId with
     | Some _ =>
         _ ← updateSessionOwnership sessionId (pid c) OWNERSHIP_TTL;
         mret tt
     | None => mret tt
     end)
    (mret tt).

(** The object [{ exists, owner, status, inMemory }]. *)
Record existence : Type := Existence {
  exists_ : bool;
  owner : option Z;
  status_seen : json;
  inMemory : bool
}.

(** [sessionExistsAnywhere(sessionId)] *)
Definition sessionExistsAnywhere (sessionId : string) (c : client)
  : prog existence :=
  match get c sessionId with
  | Some (_, s) =>
      mret (Existence true
              (Some (if processId s =? 0 then pid c else processId s))
              (JStr (status_name (status s))) true)
  | None =>
      try_catch
        (redisData ← getOutboundSession sessionId;
         owner ← getSessionOwner sessionId;
         if truthy_opt redisData then
           let st :=
             match redisData ≫= Js.get "status" with
             | Some v => if truthy v then v else JStr "unknown"
             | None => JStr "unknown"
             end in
           mret (Existence true owner st false)
         else mret (Existence false None JNull false))
        (mret (Existence false None JNull false))
  end.

(** The record written by [endConversation] for a session held by
    another process:
    [{ ...sessionData, status: 'terminating', terminateRequested: true,
       terminateRequestedBy: process.pid, terminateRequestTime: Date.now() }] *)
Definition termination_request (sessionData : json) (requester nowMs : Z)
  : json :=
  JObj (spread (own_fields sessionData)
          [("status", JStr "terminating");
           ("terminateRequested", JBool true);
           ("terminateRequestedBy", JNum requester);
           ("terminateRequestTime", JNum nowMs)]).

(** [endConversation(sessionId)]; [nowMs] is [Date.now()].  The result is
    the state of the client once the promise has settled; the promise
    never rejects, see [endConversation_returns]. *)
Definition endConversation (sessionId : string) (nowMs : Z) (c : client)
  : prog client :=
  match get c sessionId with
  | None =>
      (* [true]: the function has returned inside the [try] block *)
      returned ←
        try_catch
          (sessionInfo ← sessionExistsAnywhere sessionId c;
           if exists_ sessionInfo then
             sessionData ← getOutboundSession sessionId;
             match sessionData with
             | Some d =>
                 if truthy d then
                   _ ← saveOutboundSession sessionId
                         (termination_request d (pid c) nowMs) SESSION_TTL;
                   mret true
                 else mret false
             | None => mret false
             end
           else mret true)
          (mret false);
      (* otherwise [if (session) ... else] only logs a warning *)
      mret (if returned : bool then c else c)
  | Some (l, _) =>
      let c1 := update l (set_status CLOSING) c in
      let c2 := _stopHeartbeat sessionId c1 in
      let c3 := _clearReconnectTimer sessionId c2 in
      _ ← try_catch
            (_ ← releaseSessionOwnership sessionId (pid c); mret tt)
            (mret tt);
      match objects c3 !! l ≫= ws with
      | Some w =>
          if bool_decide (Ws.state w = Ws.OPEN)
             || bool_decide (Ws.state w = Ws.CONNECTING)
          then
            mret (update l
                    (set_ws (Some (Ws.close 1000
                                     "Conversation ended by client" w)))
                    c3)
          else mret (_handleDisconnect sessionId true 0%Q c3)
      | None => mret (_handleDisconnect sessionId true 0%Q c3)
      end
  end.

(** The record written back once a termination request has been seen:
    [{ ...sessionData, status: 'closing', terminationAcknowledged: true,
       terminationAcknowledgedBy: process.pid,
       terminationAcknowledgedTime: Date.now() }] *)
Definition termination_ack (sessionData : json) (me nowMs : Z) : json :=
  JObj (spread (own_fields sessionData)
          [("status", JStr "closing");
           ("terminationAcknowledged", JBool true);
           ("terminationAcknowledgedBy", JNum me);
           ("terminationAcknowledgedTime", JNum nowMs)]).

(** [`Termination requested by process ${sessionData.terminateRequestedBy}`] *)
Definition termination_reason (sessionData : json) : string :=
  "Termination requested by process "
  +:+ interpolate (Js.get "terminateRequestedBy" sessionData).

(** [_checkForTerminationRequests(sessionId)] *)
Definition _checkForTerminationRequests (sessionId : string) (nowMs : Z)
    (c : client) : prog client :=
  try_catch
    (sessionData ← getOutboundSession sessionId;
     match sessionData with
     | Some d =>
         if truthy d && truthy_opt (Js.get "terminateRequested" d) then
           let c1 := _stopHeartbeat sessionId c in
           let c2 :=
             match get c1 sessionId with
             | Some (l, s) =>
                 match ws s with
                 | Some w =>
                     update l
                       (fun s =>
                          set_ws (Some (Ws.close 1000 (termination_reason d) w))
                            (set_status CLOSING s))
                       c1
                 | None => c1
                 end
             | None => c1
             end in
           try_catch
             (_ ← saveOutboundSession sessionId
                   (termination_ack d (pid c) nowMs) SESSION_TTL;
              mret c2)
             (mret c2)
         else mret c
     | None => mret c
     end)
    (mret c).

(** One firing of the heartbeat interval of the session object [l].
    The callback pings, starts [_refreshOwnership] and
    [_checkForTerminationRequests] without awaiting them, and arms the
    pong time-out before either of them resumes; the two touch different
    keys, so they are run here one after the other. *)
Definition heartbeat_tick (sessionId : string) (l : nat) (nowMs : Z)
    (rnd : Q) (c : client) : prog client :=
  match objects c !! l with
  | Some s =>
      if heartbeatTimer s then
        if socket_open s then
          let c1 := update l (fun s => set_ws (Ws.ping <$> ws s) s) c in
          let c2 := _clearPongTimeoutTimer sessionId c1 in
          let c3 := update l (set_pongTimeoutTimer true) c2 in
          _ ← _refreshOwnership sessionId c1;
          _checkForTerminationRequests sessionId nowMs c3
        else mret (_handleDisconnect sessionId false rnd c)
      else mret c
  | None => mret c
  end.

(** [startConversation(agentId, ..., customSessionId)] with a session id
    supplied by the caller.  The failure to acquire the lease is only
    logged.  [throws] and [rnd] are those of [_connect]. *)
Definition startConversation (agent : string) (cb : callbacks)
    (customSessionId : string) (throws : bool) (rnd : Q) (c : client)
  : prog client :=
  let l := fresh (dom (objects c)) in
  let sessionData :=
    Session None agent CONNECTING cb None false false 0 (pid c) in
  let c1 :=
    ClientState (pid c) (<[l := sessionData]> (objects c))
      (<[customSessionId := l]> (activeSessions c)) (effects c) in
  _ ← try_catch
        (_ ← acquireSessionOwnership customSessionId (pid c) OWNERSHIP_TTL;
         mret tt)
        (mret tt);
  mret (_connect customSessionId throws rnd c1).

End ClientAsync.

(* ===================================================================== *)
(** * Events of the AI-provider socket and of the timers                  *)
(* ===================================================================== *)

Module ClientEvents.
Import Js Redis SessionManager Client ClientAsync.

(** What can happen to a session object [l] that was registered under
    [sessionId]: the events of its socket (delivered while the listeners
    are attached), the firing of its timers (while they are armed), and
    the entry points that other code calls with the session id. *)
Inductive event : Type :=
| WsOpen
| WsError
| WsClose (code : Z)
| WsMessage (message : json)
| ReconnectTimer (throws : bool)
| PongTimeout
| Disconnect (isCleanClose : bool)
| ScheduleReconnect
| Connect (throws : bool)
| StartHeartbeat
| SendMessage (message : json)
| Cleanup.

Definition listening (c : client) (l : nat) : bool :=
  match objects c !! l ≫= ws with
  | Some w => Ws.listeners w
  | None => false
  end.

(** The synchronous part of each handler; the handlers of the socket
    write to the session object they captured and call the methods by
    session id. *)
Definition handle (sessionId : string) (l : nat) (rnd : Q) (e : event)
    (c : client) : client :=
  match e with
  | WsOpen =>
      if listening c l then
        let c0 :=
          update l (fun s =>
            set_ws ((fun w => Ws.Socket Ws.OPEN (Ws.sent w) (Ws.pings w)
                                (Ws.close_calls w) (Ws.terminated w)
                                (Ws.listeners w)) <$> ws s) s) c in
        let c1 :=
          update l (fun s => set_reconnectAttempts 0 (set_status OPEN s)) c0 in
        let c2 := _clearReconnectTimer sessionId c1 in
        let init :=
          JObj [("type", JStr "conversation_initiation");
                ("conversation_initiation_event",
                 JObj [("audio_format", JStr "ulaw");
                       ("sample_rate_hz", JNum 8000);
                       ("encoding", JStr "audio/x-mulaw")])] in
        let c3 :=
          update l
            (fun s => set_ws ((fun w => default w (Ws.send init w)) <$> ws s) s)
            c2 in
        let c4 := _startHeartbeat sessionId c3 in
        emit "open" [JStr sessionId] c4
      else c
  | WsError =>
      if listening c l then
        let c1 := update l (set_status ERROR) c in
        let c2 :=
          match objects c !! l with
          | Some s => if onError (cbs s)
                      then call "onError" [JStr sessionId] c1 else c1
          | None => c1
          end in
        let c3 := emit "error" [JStr sessionId] c2 in
        _handleDisconnect sessionId false rnd c3
      else c
  | WsClose code =>
      if listening c l then
        let c0 :=
          update l (fun s =>
            set_ws ((fun w => Ws.Socket Ws.CLOSED (Ws.sent w) (Ws.pings w)
                                (Ws.close_calls w) (Ws.terminated w)
                                (Ws.listeners w)) <$> ws s) s) c in
        let c1 := update l (set_status CLOSED_TEMP) c0 in
        _handleDisconnect sessionId
          (bool_decide (code = 1000) || bool_decide (code = 1005)) rnd c1
      else c
  | WsMessage message =>
      if listening c l then
        let c1 := _resetHeartbeatTimers sessionId c in
        if is_string "ping" (Js.get "type" message) then
            match Js.get "ping_event" message with
            | None | Some JNull => c1   (* [TypeError], caught and logged *)
            | Some pe =>
                let pong :=
                  JObj (("type", JStr "pong")
                        :: match Js.get "event_id" pe with
                           | Some v => [("event_id", v)]
                           | None => []
                           end) in
                (sendMessage sessionId pong c1).2
            end
        else if is_string "pong" (Js.get "type" message) then
          _clearPongTimeoutTimer sessionId c1
        else
          match objects c !! l with
          | Some s =>
              if onMessage (cbs s) then
                emit "message" [JStr sessionId; message]
                  (call "onMessage" [JStr sessionId; message] c1)
              else c1
          | None => c1
          end
      else c
  | ReconnectTimer throws =>
      match objects c !! l with
      | Some s =>
          match reconnectTimer s with
          | Some _ =>
              if bool_decide (status s = RECONNECTING)
              then _connect sessionId throws rnd c else c
          | None => c
          end
      | None => c
      end
  | PongTimeout =>
      match objects c !! l with
      | Some s =>
          if pongTimeoutTimer s
          then update l (fun s => set_ws (Ws.terminate <$> ws s) s) c
          else c
      | None => c
      end
  | Disconnect isCleanClose => _handleDisconnect sessionId isCleanClose rnd c
  | ScheduleReconnect => _scheduleReconnect sessionId rnd c
  | Connect throws => _connect sessionId throws rnd c
  | StartHeartbeat => _startHeartbeat sessionId c
  | SendMessage message => (sendMessage sessionId message c).2
  | Cleanup => _cleanupSession sessionId c
  end.

(** A run of events, each with the number [Math.random()] would return. *)
Fixpoint handle_all (sessionId : string) (l : nat)
    (es : list (event * Q)) (c : client) : client :=
  match es with
  | [] => c
  | (e, rnd) :: rest =>
      handle_all sessionId l rest (handle sessionId l rnd e c)
  end.

End ClientEvents.

(* ===================================================================== *)
(** * The ElevenLabs handlers: publishing audio on the relay channel      *)
(* ===================================================================== *)

Module Relay.
Import Js.

Definition AUDIO_CHANNEL_PREFIX : string := "elevenlabs-to-twilio:".
Definition TWILIO_AUDIO_CHANNEL_PREFIX : string := "twilio-to-elevenlabs:".

(** The publishing side of a process: the module-level
    [sequenceCounters] and what it has published, oldest first. *)
Record publisher : Type := Publisher {
  publisher_pid : Z;
  sequenceCounters : gmap string Z;
  published : list (string * json)
}.

(** The payload built by [handleAudioMessage]. *)
Definition envelope (audioBase64 : json) (nowMs processId sequenceNumber : Z)
  : json :=
  JObj [("audioBase64", audioBase64);
        ("source", JStr "direct-audio");
        ("timestamp", JNum nowMs);
        ("processId", JNum processId);
        ("format", JStr "ulaw");
        ("sampleRate", JNum 8000);
        ("sequenceNumber", JNum sequenceNumber);
        ("track", JStr "outbound");
        ("contentType", JStr "audio/x-mulaw")].

(** [message.audio_event?.data || message.audio_data] *)
Definition audio_of (message : json) : option json :=
  let a := Js.get "audio_event" message ≫= Js.get "data" in
  if truthy_opt a then a else Js.get "audio_data" message.

(** What [await redisClient.get(`session:${sessionId}`)] and the
    [JSON.parse] of its reply come to: the read throws, the key is
    missing, its text is no JSON, or it parses to [sessionData]. *)
Inductive session_lookup : Type :=
| LookupThrows
| Missing
| Malformed
| Parsed (sessionData : json).

(** The branches on [sessionData.ownerProcess] and
    [sessionData.serverHandling] all publish the same payload on the same
    channel, and so does the branch of a missing record; only an exception
    (a text that does not parse, or the fields of [null]) skips the
    publication. *)
Definition reaches_publish (found : session_lookup) : bool :=
  match found with
  | Missing => true
  | Parsed JNull => false
  | Parsed _ => true
  | LookupThrows | Malformed => false
  end.

(** [handleAudioMessage(sessionId, message)]; [delivered] says whether
    [publishRedisMessage] got the message out. *)
Definition handleAudioMessage (sessionId : string) (message : json)
    (found : session_lookup) (nowMs : Z) (delivered : bool) (p : publisher)
  : publisher :=
  let audioBase64 := audio_of message in
  match audioBase64, found with
  | Some a, LookupThrows => p
  | Some a, _ =>
      if truthy a then
        let sequenceNumber := default 0 (sequenceCounters p !! sessionId) in
        let payload := envelope a nowMs (publisher_pid p) sequenceNumber in
        Publisher (publisher_pid p)
          (<[sessionId := sequenceNumber + 1]> (sequenceCounters p))
          (if reaches_publish found && delivered
           then published p ++ [(AUDIO_CHANNEL_PREFIX +:+ sessionId, payload)]
           else published p)
      else p
  | None, _ => p
  end.

End Relay.

(* ===================================================================== *)
(** * The media-stream server ([routes/outbound-routes.js])               *)
(* ===================================================================== *)

Module MediaStream.
Import Js Client Relay.

Definition MAX_SERVER_BUFFER_SIZE : nat := 20.

(** One caller-facing socket with what the connection handler attached
    to it: [ws.sessionId] and [ws.callInfo]. *)
Record connection : Type := Connection {
  sessionId : string;
  socket : Ws.socket;
  callInfo : json
}.

(** The server process: the sockets of [wss.clients] in the order they
    connected (a connection is named by its position), the module-level
    [serverAudioBuffers], the [activeSubscriptions] of
    [setupWebSocketServer], the listeners registered with the subscriber
    client (channel and connection whose [messageHandler] it is), what
    the process published, and its ElevenLabs client. *)
Record server : Type := Server {
  clients : list connection;
  serverAudioBuffers : gmap string (list json);
  activeSubscriptions : gmap string nat;
  subscriptions : list (string * nat);
  outbox : list (string * json);
  elevenlabs : client
}.

Definition with_clients (v : list connection) (s : server) : server :=
  Server v (serverAudioBuffers s) (activeSubscriptions s) (subscriptions s)
    (outbox s) (elevenlabs s).
Definition with_buffers (v : gmap string (list json)) (s : server) : server :=
  Server (clients s) v (activeSubscriptions s) (subscriptions s)
    (outbox s) (elevenlabs s).
Definition with_elevenlabs (v : client) (s : server) : server :=
  Server (clients s) (serverAudioBuffers s) (activeSubscriptions s)
    (subscriptions s) (outbox s) v.

Definition audioChannel (sid : string) : string :=
  AUDIO_CHANNEL_PREFIX +:+ sid.

(** [ws.callInfo?.streamSid] *)
Definition streamSid_of (conn : connection) : option json :=
  match callInfo conn with
  | JNull => None
  | info => Js.get "streamSid" info
  end.

(** The message for the caller-facing transport:
    [{ event: 'media', streamSid, media: { payload } }]; an undefined
    payload leaves [media] empty. *)
Definition twilioMediaMessage (streamSid : json) (payload : option json)
  : json :=
  JObj [("event", JStr "media");
        ("streamSid", streamSid);
        ("media", JObj match payload with
                       | Some v => [("payload", v)]
                       | None => []
                       end)].

(** [ws.send(JSON.stringify(m))] on connection [k]; [None] when the
    socket throws. *)
Definition send_on (k : nat) (m : json) (s : server) : option server :=
  conn ← clients s !! k;
  w ← Ws.send m (socket conn);
  Some (with_clients
          (<[k := Connection (sessionId conn) w (callInfo conn)]> (clients s))
          s).

(** [buf.push(data); if (buf.length > MAX_SERVER_BUFFER_SIZE) buf.shift()] *)
Definition push_bounded (data : json) (buf : list json) : list json :=
  let buf' := buf ++ [data] in
  if bool_decide (MAX_SERVER_BUFFER_SIZE < length buf')%nat
  then tail buf' else buf'.

(** [messageHandler(message, channel)] of connection [k]; [message] is
    the JSON value carried by the text received. *)
Definition messageHandler (k : nat) (message : json) (channel : string)
    (s : server) : server :=
  match clients s !! k with
  | None => s
  | Some conn =>
      let sid := sessionId conn in
      if negb (String.eqb channel (audioChannel sid)) then s
      else
        match message with
        | JNull => s   (* [data.audioBase64] throws, caught and logged *)
        | data =>
            let audioBase64 := Js.get "audioBase64" data in
            let streamSid := streamSid_of conn in
            if truthy_opt audioBase64
               && bool_decide (Ws.state (socket conn) = Ws.OPEN)
               && truthy_opt streamSid
            then
              match streamSid with
              | Some sidv =>
                  default s
                    (send_on k (twilioMediaMessage sidv audioBase64) s)
              | None => s
              end
            else if negb (truthy_opt streamSid) then
              let buf := default [] (serverAudioBuffers s !! sid) in
              with_buffers
                (<[sid := push_bounded data buf]> (serverAudioBuffers s)) s
            else s
        end
  end.

(** The base64 text of a byte string. *)
Definition b64char (n : Z) : ascii :=
  default "?"%char
    (String.get (Z.to_nat n)
       "ABCDEFGHIJKLMNOPQRSTUVWXYZabcdefghijklmnopqrstuvwxyz0123456789+/").

Fixpoint base64 (bytes : list Z) : string :=
  match bytes with
  | a :: b :: c :: rest =>
      String (b64char (a / 4))
        (String (b64char ((a mod 4) * 16 + b / 16))
           (String (b64char ((b mod 16) * 4 + c / 64))
              (String (b64char (c mod 64)) (base64 rest))))
  | [a; b] =>
      String (b64char (a / 4))
        (String (b64char ((a mod 4) * 16 + b / 16))
           (String (b64char ((b mod 16) * 4)) "="))
  | [a] =>
      String (b64char (a / 4)) (String (b64char ((a mod 4) * 16)) "==")
  | [] => ""
  end.

(** The test tone of [testAudioPlayback]: 1600 bytes, [0x55] at the even
    positions and [0xAA] at the odd ones. *)
Definition testTone : string :=
  base64 (map (fun i : nat => if Nat.even i then 85 else 170) (seq 0 1600)).

Definition test_tone_envelope (nowMs processId : Z) : json :=
  JObj [("audioBase64", JStr testTone);
        ("source", JStr "test-tone");
        ("timestamp", JNum nowMs);
        ("processId", JNum processId);
        ("format", JStr "ulaw");
        ("sampleRate", JNum 8000);
        ("sequenceNumber", JNum 0)].

(** The first socket of [wss.clients] attached to [sid] and open. *)
Fixpoint find_open (sid : string) (k : nat) (cs : list connection)
  : option nat :=
  match cs with
  | [] => None
  | conn :: rest =>
      if String.eqb (sessionId conn) sid
         && bool_decide (Ws.state (socket conn) = Ws.OPEN)
      then Some k else find_open sid (S k) rest
  end.

(** [testAudioPlayback(sessionId, streamSid)] up to its first [await]:
    the tone goes to the first open socket of the session; when there is
    none it is published on the relay channel instead. *)
Definition testAudioPlayback (sid : string) (streamSid : json) (nowMs : Z)
    (s : server) : server :=
  match find_open sid 0 (clients s) with
  | Some k =>
      default s
        (send_on k (twilioMediaMessage streamSid (Some (JStr testTone))) s)
  | None =>
      Server (clients s) (serverAudioBuffers s) (activeSubscriptions s)
        (subscriptions s)
        (outbox s ++ [(audioChannel sid,
                       test_tone_envelope nowMs (pid (elevenlabs s)))])
        (elevenlabs s)
  end.

(** The loop over the buffered chunks: each is sent in turn, the first
    [send] that throws ends the loop. *)
Fixpoint send_buffered (k : nat) (streamSid : json) (chunks : list json)
    (s : server) : server :=
  match chunks with
  | [] => s
  | chunk :: rest =>
      match send_on k (twilioMediaMessage streamSid
                         (Js.get "audioBase64" chunk)) s with
      | Some s' => send_buffered k streamSid rest s'
      | None => s
      end
  end.

(** [ws.on('message')] of connection [k], for the [start] and [media]
    events of the caller-facing transport. *)
Definition on_message (k : nat) (data : json) (nowMs : Z) (s : server)
  : server :=
  match clients s !! k with
  | None => s
  | Some conn =>
      let sid := sessionId conn in
      let start_sid := Js.get "start" data ≫= Js.get "streamSid" in
      if is_string "start" (Js.get "event" data)
         && truthy_opt (Js.get "start" data)
         && truthy_opt start_sid
      then
        match start_sid with
        | Some streamSid =>
            if truthy (callInfo conn) then
              let info' :=
                match callInfo conn with
                | JObj info => JObj (set_field "streamSid" streamSid info)
                | other => other
                end in
              let s1 :=
                with_clients
                  (<[k := Connection sid (socket conn) info']> (clients s))
                  s in
              let s2 := testAudioPlayback sid streamSid nowMs s1 in
              match serverAudioBuffers s2 !! sid with
              | Some bufferedChunks =>
                  let s3 := send_buffered k streamSid bufferedChunks s2 in
                  with_buffers (delete sid (serverAudioBuffers s3)) s3
              | None => s2
              end
            else s
        | None => s
        end
      else if is_string "media" (Js.get "event" data)
              && truthy_opt (Js.get "media" data)
      then
        match Js.get "media" data ≫= Js.get "payload" with
        | Some payload =>
            if truthy payload then
              if isSessionActiveOrOpening sid (elevenlabs s)
              then with_elevenlabs
                     (sendAudioChunk sid payload (elevenlabs s)) s
              else s
            else s
        | None => s
        end
      else s
  end.

(** [subscriberClient.unsubscribe(channel, handler)] *)
Definition unsubscribe (channel : string) (handler : nat)
    (subs : list (string * nat)) : list (string * nat) :=
  filter (fun x => ¬ (x.1 = channel ∧ x.2 = handler)) subs.

(** [ws.on('close')] of connection [k]. *)
Definition on_close (k : nat) (code : Z) (reason : string) (s : server)
  : server :=
  match clients s !! k with
  | None => s
  | Some conn =>
      let sid := sessionId conn in
      match activeSubscriptions s !! sid with
      | Some handler =>
          Server (clients s) (serverAudioBuffers s)
            (delete sid (activeSubscriptions s))
            (unsubscribe (audioChannel sid) handler (subscriptions s))
            (outbox s) (elevenlabs s)
      | None => s
      end
  end.

(** [ws.on('error')] of connection [k]: the error is logged. *)
Definition on_error (k : nat) (s : server) : server := s.

(** The end of the connection handler, once the checks have passed: the
    socket gets its [sessionId] and [callInfo], joins [wss.clients], and
    its [messageHandler] is subscribed to the relay channel. *)
Definition attach (sid : string) (info : json) (w : Ws.socket) (s : server)
  : server :=
  let k := length (clients s) in
  Server (clients s ++ [Connection sid w info]) (serverAudioBuffers s)
    (<[sid := k]> (activeSubscriptions s))
    (subscriptions s ++ [(audioChannel sid, k)])
    (outbox s) (elevenlabs s).

Definition new_server (c : client) : server := Server [] ∅ ∅ [] [] c.

End MediaStream.

(* ===================================================================== *)
(** * The call-status callback ([POST /status/:sessionId])                *)
(* ===================================================================== *)

Module StatusRoute.
Import Js Redis SessionManager Client ClientAsync.

Definition FINAL_STATES : list string :=
  ["completed"; "failed"; "canceled"; "busy"; "no-answer"].

(** [FINAL_STATES.includes(CallStatus)] *)
Definition is_final (CallStatus : option json) : bool :=
  existsb (fun s => is_string s CallStatus) FINAL_STATES.

(** [callInfo.k = v], as it shows once the record is written back: a
    field set to [undefined] is left out of the JSON text. *)
Definition assign (k : string) (v : option json) (info : json) : json :=
  match info with
  | JObj o =>
      JObj match v with
           | Some x => set_field k x o
           | None => remove_field k o
           end
  | other => other
  end.

(** The handler, up to the update of the call-history database; the
    result is the HTTP status sent back and the state of the client. *)
Definition status_callback (sessionId : string)
    (CallStatus CallDuration ErrorCode ErrorMessage : option json)
    (nowMs : Z) (c : client) : prog (Z * client) :=
  try_catch
    (callInfo ← getOutboundSession sessionId;
     match callInfo with
     | Some info0 =>
         if truthy info0 then
           let info1 := assign "status" CallStatus info0 in
           let info2 := assign "duration" CallDuration info1 in
           let info3 :=
             if truthy_opt ErrorCode
             then assign "errorCode" ErrorCode info2 else info2 in
           let info4 :=
             if truthy_opt ErrorMessage
             then assign "errorMessage" ErrorMessage info3 else info3 in
           let ttl := if is_final CallStatus then 24 * 3600 else 3600 in
           c' ← (if is_final CallStatus
                 then endConversation sessionId nowMs c else mret c);
           _ ← saveOutboundSession sessionId info4 ttl;
           mret (200, c')
         else mret (200, c)
     | None => mret (200, c)
     end)
    (mret (500, c)).

End StatusRoute.

(* ===================================================================== *)
(** * The specification's statements, to compare the code with            *)
(* ===================================================================== *)

Module Stated.
Import Js Redis Client Relay MediaStream.

(** The server process together with the store it shares with the
    workers.  The handlers of the caller-facing socket issue no Redis
    command, so an event of that socket changes the process and leaves
    the store. *)
Record system : Type := System {
  process : server;
  shared : store
}.

Definition media_stream_closed (k : nat) (code : Z) (reason : string)
    (sys : system) : system :=
  System (on_close k code reason (process sys)) (shared sys).

Definition media_stream_error (k : nat) (sys : system) : system :=
  System (on_error k (process sys)) (shared sys).

(** A status after which a session record is not worked on any more:
    [closed] and [failed] of the data model, the final call states, and
    the values the earlier close and error handlers wrote. *)
Definition terminal_status (v : option json) : bool :=
  existsb (fun s => is_string s v)
    ["closed"; "failed"; "completed"; "canceled"; "busy"; "no-answer";
     "disconnected"; "error"].

(** "On media-stream close: tear down the AI-provider session,
    unsubscribe from the relay channel, and update the Session record's
    status to a terminal value." *)
Definition close_tears_down : Prop :=
  forall (sys : system) (k : nat) (conn : connection) (code : Z)
         (reason : string) (now : Z) (record : json),
    clients (process sys) !! k = Some conn ->
    read now (outbound_session (shared sys)) (sessionId conn) = Some record ->
    let sys' := media_stream_closed k code reason sys in
    isSessionActiveOrOpening (sessionId conn) (elevenlabs (process sys'))
    = false
    /\ (forall h, (audioChannel (sessionId conn), h)
                  ∉ subscriptions (process sys'))
    /\ exists record',
         read now (outbound_session (shared sys')) (sessionId conn)
         = Some record'
         /\ terminal_status (Js.get "status" record') = true.

(** [a.sequenceNumber || 0], the key the buffered entries are sorted by. *)
Definition sequence_key (chunk : json) : Z :=
  match Js.get "sequenceNumber" chunk with
  | Some (JNum n) => n
  | _ => 0
  end.

Fixpoint insert_by_sequence (chunk : json) (sorted : list json) : list json :=
  match sorted with
  | [] => [chunk]
  | c :: rest =>
      if sequence_key chunk <=? sequence_key c
      then chunk :: c :: rest
      else c :: insert_by_sequence chunk rest
  end.

(** "Sorting by sequence number": a stable sort on [sequence_key]. *)
Definition sort_by_sequence (chunks : list json) : list json :=
  fold_right insert_by_sequence [] chunks.

(** "Flushes the Audio Buffer, sorting by sequence number first, sending
    each in order": after the [start] event the socket has been handed,
    behind at most the test tone, the buffered entries in the order of
    their sequence numbers. *)
Definition flush_sorts_by_sequence : Prop :=
  forall (s : server) (k : nat) (conn : connection) (data streamSid : json)
         (buffered : list json) (nowMs : Z),
    clients s !! k = Some conn ->
    Ws.state (socket conn) = Ws.OPEN ->
    truthy (callInfo conn) = true ->
    is_string "start" (Js.get "event" data) = true ->
    Js.get "start" data ≫= Js.get "streamSid" = Some streamSid ->
    truthy streamSid = true ->
    serverAudioBuffers s !! sessionId conn = Some buffered ->
    exists conn' tone,
      clients (on_message k data nowMs s) !! k = Some conn'
      /\ (length tone <= 1)%nat
      /\ Ws.sent (socket conn')
         = Ws.sent (socket conn) ++ tone
           ++ map (fun chunk =>
                     twilioMediaMessage streamSid (Js.get "audioBase64" chunk))
                (sort_by_sequence buffered).

(** "Delivered with identical payload bytes and sequence number": some
    reading of the delivered message gives back the sequence number of
    the envelope that was published. *)
Definition relay_keeps_sequence_number : Prop :=
  exists sequence_of : json -> option Z,
    forall (s : server) (k : nat) (conn : connection) (streamSid audio : json)
           (nowMs processId n : Z),
      clients s !! k = Some conn ->
      Ws.state (socket conn) = Ws.OPEN ->
      streamSid_of conn = Some streamSid -> truthy streamSid = true ->
      truthy audio = true ->
      exists conn' m,
        clients (messageHandler k (envelope audio nowMs processId n)
                   (audioChannel (sessionId conn)) s) !! k = Some conn'
        /\ last (Ws.sent (socket conn')) = Some m
        /\ sequence_of m = Some n.

End Stated.

(* ===================================================================== *)
(** * Notions used in the statements                                      *)
(* ===================================================================== *)

Module Notions.
Import Js Redis SessionManager Interleaving Client ClientEvents MediaStream.

(** Programs whose every exception is caught. *)
Inductive no_throw {A : Type} : prog A -> Prop :=
| no_throw_ret (a : A) : no_throw (Ret a)
| no_throw_do {R} (c : cmd R) (k : R -> prog A) (h : prog A) :
    (forall r, no_throw (k r)) -> no_throw h -> no_throw (Do c k h).

(** Programs that return [a] on every path. *)
Inductive always {A : Type} (a : A) : prog A -> Prop :=
| always_ret : always a (Ret a)
| always_do {R} (c : cmd R) (k : R -> prog A) (h : prog A) :
    (forall r, always a (k r)) -> always a h -> always a (Do c k h).

(** The lease a process believes it holds is the one the store records. *)
Definition granted_is_recorded (sid : string) (w : world) : Prop :=
  forall p c,
    last_answer p (history w) = Some c ->
    result c = true -> what c <> Release ->
    now w < returned_at c + term c ->
    session_owner (db w) !! sid
    = Some (Entry (String_of p) (returned_at c + term c)).

Definition request_fields : list string :=
  ["status"; "terminateRequested"; "terminateRequestedBy";
   "terminateRequestTime"].

(** A session object that nothing will wake up again: it is out of the
    table, its socket (if any) has no listener left, and neither the
    reconnect timer nor the pong time-out is pending. *)
Definition retired (sid : string) (l : nat) (c : client) : Prop :=
  activeSessions c !! sid = None
  /\ listening c l = false
  /\ forall s, objects c !! l = Some s ->
       reconnectTimer s = None /\ pongTimeoutTimer s = false.

(** The connection after its open socket has been handed [ms]. *)
Definition pushed (ms : list json) (conn : connection) : connection :=
  Connection (sessionId conn)
    (Ws.Socket Ws.OPEN (Ws.sent (socket conn) ++ ms) (Ws.pings (socket conn))
       (Ws.close_calls (socket conn)) (Ws.terminated (socket conn))
       (Ws.listeners (socket conn)))
    (callInfo conn).

Definition tone_message (streamSid : json) : json :=
  twilioMediaMessage streamSid (Some (JStr testTone)).

End Notions.

(* ===================================================================== *)
(** * Connections that fail in a row                                      *)
(* ===================================================================== *)

Module Failures.
Import Js Backoff Client ClientEvents.

(** One failed connection as the socket reports it: ['error'], then
    ['close'] with code 1006.  [r.1] and [r.2] are the numbers
    [Math.random()] returns in the two handlers. *)
Definition failed_connection (r : Q * Q) : list (event * Q) :=
  [(WsError, r.1); (WsClose 1006, r.2)].

(** The reconnect timer fires and [_connect] opens a new socket. *)
Definition timer_fires : list (event * Q) := [(ReconnectTimer false, 0%Q)].

(** [k] connections fail in a row, the reconnect timer firing after
    each; [draws j] are the draws at the [j]-th failure. *)
Fixpoint failed_attempts (draws : nat -> Q * Q) (k : nat)
  : list (event * Q) :=
  match k with
  | O => []
  | S j =>
      failed_attempts draws j ++ failed_connection (draws (S j))
      ++ timer_fires
  end.

(** The session object [s] after [k] failed connections, the [k]-th
    reconnection under way. *)
Definition reconnecting (s : session) (draws : nat -> Q * Q) (k : nat)
  : session :=
  match k with
  | O => s
  | S _ =>
      Session (Some Ws.fresh) (agentId s) CONNECTING (cbs s)
        (Some (delay (reconnectAttempts s + 2 * Z.of_nat k) (draws k).2))
        false false (reconnectAttempts s + 2 * Z.of_nat k) (processId s)
  end.

(** The waits that elapse during a run of events: what the reconnect
    timer of the session object was armed with, each time it fires. *)
Fixpoint waits (sessionId : string) (l : nat) (es : list (event * Q))
    (c : client) : list Z :=
  match es with
  | [] => []
  | (e, rnd) :: rest =>
      match e, objects c !! l ≫= reconnectTimer with
      | ReconnectTimer _, Some d => [d]
      | _, _ => []
      end ++ waits sessionId l rest (handle sessionId l rnd e c)
  end.

Definition total (l : list Z) : Z := foldr Z.add 0 l.

End Failures.

(* ===================================================================== *)
(** * Scenarios: concrete processes, stores and schedules                 *)
(* ===================================================================== *)

Module Scenarios.
Import Js Redis SessionManager Interleaving Client ClientEvents Relay.
Import MediaStream Stated.

(** A store in which process 202 holds the lease of session [s1] until
    instant 40. *)
Definition held_by_202 : store :=
  Store {[ "s1" := Entry (String_of 202) 40 ]} ∅.

(** Process 101 acquires the lease at instant 0 for 30 seconds.  At
    instant 29 its heartbeat renews: [GET] answers ["101"].  The lease
    runs out at instant 30, and process 202 acquires it with [SET NX].
    Then the [EXPIRE] of process 101 arrives: it lengthens the key of
    process 202, and the renewal answers [true]. *)
Definition renew_race : list action :=
  [ Invoke 101 Acquire 30; Step 101 false;
    Tick 29;
    Invoke 101 Renew 30; Step 101 false;
    Tick 1;
    Invoke 202 Acquire 30; Step 202 false;
    Step 101 false ].

(** The same gap in [releaseSessionOwnership]: process 101 reads its own
    name at instant 29, process 202 acquires the expired lease at
    instant 30, and the [DEL] of process 101 then deletes the lease of
    process 202, so that process 303 acquires it at once. *)
Definition release_race : list action :=
  [ Invoke 101 Acquire 30; Step 101 false;
    Tick 29;
    Invoke 101 Release 30; Step 101 false;
    Tick 1;
    Invoke 202 Acquire 30; Step 202 false;
    Step 101 false;
    Invoke 303 Acquire 30; Step 303 false ].

(** One process alone.  Process 101 acquires the lease at instant 0 for
    30 seconds.  At instant 29 its heartbeat renews: [GET] answers
    ["101"].  The lease runs out at instant 30, and then the [EXPIRE] of
    the renewal arrives: it answers 0, there is no key to lengthen. *)
Definition renew_expiry_gap : list action :=
  [ Invoke 101 Acquire 30; Step 101 false;
    Tick 29;
    Invoke 101 Renew 30; Step 101 false;
    Tick 1;
    Step 101 false ].

(** The API server, process 7, holds no AI session. *)
Definition server7 : client := new_client 7.

(** The worker, process 9, holds session [s1]: socket open, heartbeat
    armed. *)
Definition worker9 : client :=
  ClientState 9
    {[ 0%nat := Session (Some (Ws.Socket Ws.OPEN [] 0 [] false true))
                  "agent" OPEN (Callbacks true false true false)
                  None true false 0 9 ]}
    {[ "s1" := 0%nat ]} [].

(** At instant 100 the record of [s1] is the one of a call in progress,
    written with the default expiry. *)
Definition call_in_progress : store :=
  Store {[ "s1" := Entry (String_of 9) 120 ]}
        {[ "s1" := Entry (JObj [("callSid", JStr "CA1");
                                ("status", JStr "in-progress")]) 3650 ]}.

Definition call_completed : store :=
  Store ∅
        {[ "s1" := Entry (JObj [("callSid", JStr "CA1");
                                ("status", JStr "completed");
                                ("duration", JStr "42")]) 86500 ]}.

(** Session [s1] right after [startConversation] in process 9. *)
Definition just_started : client :=
  ClientState 9
    {[ 0%nat := Session (Some Ws.fresh) "agent" CONNECTING
                  (Callbacks true false true true) None false false 0 9 ]}
    {[ "s1" := 0%nat ]} [].

(** The server of process 7 with the AI session of [s1] still
    connecting, and the caller's stream attached. *)
Definition connecting : server :=
  attach "s1" (JObj [("callSid", JStr "CA1")])
    (Ws.Socket Ws.OPEN [] 0 [] false true)
    (new_server
       (ClientState 7
          {[ 0%nat := Session (Some Ws.fresh) "agent" CONNECTING
                        (Callbacks true false true true) None false false 0 7 ]}
          {[ "s1" := 0%nat ]} [])).

(** The AI session of [s1] is open in the server process itself, the
    caller's stream is attached and the call is in progress. *)
Definition in_call : system :=
  System
    (attach "s1" (JObj [("callSid", JStr "CA1"); ("streamSid", JStr "MZ1")])
       (Ws.Socket Ws.OPEN [] 0 [] false true)
       (new_server
          (ClientState 7
             {[ 0%nat := Session (Some (Ws.Socket Ws.OPEN [] 0 [] false true))
                           "agent" OPEN (Callbacks true false true true)
                           None true false 0 7 ]}
             {[ "s1" := 0%nat ]} [])))
    (Store {[ "s1" := Entry (String_of 7) 130 ]}
           {[ "s1" := Entry (JObj [("callSid", JStr "CA1");
                                   ("status", JStr "in-progress")]) 3700 ]}).

(** The caller's stream of [s1] is attached in process 7, its [start]
    event has not come yet. *)
Definition before_start : server :=
  attach "s1" (JObj [("callSid", JStr "CA1")])
    (Ws.Socket Ws.OPEN [] 0 [] false true)
    (new_server (new_client 7)).

Definition chunk_A : json := envelope (JStr "QUFB") 1000 9 0.
Definition chunk_B : json := envelope (JStr "QkJC") 1001 9 1.

(** Chunk 1 is received before chunk 0. *)
Definition out_of_order : server :=
  messageHandler 0 chunk_A (audioChannel "s1")
    (messageHandler 0 chunk_B (audioChannel "s1") before_start).

Definition start_MZ1 : json :=
  JObj [("event", JStr "start");
        ("start", JObj [("streamSid", JStr "MZ1")])].

End Scenarios.

(* ===================================================================== *)
(** * Keys of the records                                                 *)
(* ===================================================================== *)
Module Keys.

(** The key prefixes of [SessionManager] ([utils/redisClient.js]). *)
Definition outboundPrefix : string := "outbound_session:".
Definition inboundPrefix : string := "inbound_session:".
Definition mappingPrefix : string := "session_to_call:".
Definition ownershipPrefix : string := "session_owner:".

(** [`${this.outboundPrefix}${sessionId}`] and its three siblings. *)
Definition _getKey (sessionId : string) : string :=
  outboundPrefix +:+ sessionId.
Definition _getInboundKey (callId : string) : string :=
  inboundPrefix +:+ callId.
Definition _getMappingKey (sessionId : string) : string :=
  mappingPrefix +:+ sessionId.
Definition _getOwnershipKey (sessionId : string) : string :=
  ownershipPrefix +:+ sessionId.

(** [ElevenLabsSessionManager._getSessionKey] *)
Definition SESSION_KEY_PREFIX : string := "elevenlabs_session:".
Definition _getSessionKey (sessionId : string) : string :=
  SESSION_KEY_PREFIX +:+ sessionId.

(** The key [handleAudioMessage] reads: [`session:${sessionId}`]. *)
Definition sessionRedisKey (sessionId : string) : string :=
  "session:" +:+ sessionId.

End Keys.

(* ===================================================================== *)
(** * Text chunks of the website scraper ([chunkText])                    *)
(* ===================================================================== *)
Module Text.

(** [s.split(sep)] for a separator of one character: the pieces between
    the separators, empty pieces included; the empty string gives one
    empty piece. *)
Fixpoint split (sep : ascii) (s : string) : list string :=
  match s with
  | EmptyString => [EmptyString]
  | String a rest =>
      if Ascii.eqb a sep then EmptyString :: split sep rest
      else
        match split sep rest with
        | w :: ws => String a w :: ws
        | [] => [String a EmptyString]
        end
  end.

(** One turn of the loop of [chunkText]: the chunks pushed so far and
    [currentChunk]. *)
Definition chunk_step (maxChars : Z) (st : list string * string)
    (word : string) : list string * string :=
  let (chunks, currentChunk) := st in
  if Z.of_nat (String.length (currentChunk +:+ " " +:+ word)) <=? maxChars
  then (chunks,
        currentChunk
        +:+ (if String.eqb currentChunk "" then "" else " ") +:+ word)
  else (chunks ++ [currentChunk], word).

(** [chunkText(text, maxChars)] of the website scraper. *)
Definition chunkText (text : string) (maxChars : Z) : list string :=
  let (chunks, currentChunk) :=
    fold_left (chunk_step maxChars) (split " " text) ([], "") in
  if String.eqb currentChunk "" then chunks else chunks ++ [currentChunk].

(** The characters of a string that are not spaces. *)
Fixpoint letters (s : string) : list ascii :=
  match s with
  | EmptyString => []
  | String a rest =>
      if Ascii.eqb a " " then letters rest else a :: letters rest
  end.

(** [s] contains the character [c]. *)
Fixpoint contains (c : ascii) (s : string) : bool :=
  match s with
  | EmptyString => false
  | String a rest => Ascii.eqb a c || contains c rest
  end.

(** The characters that are not spaces of the chunks pushed so far and
    of [currentChunk]. *)
Definition letters_of (st : list string * string) : list ascii :=
  concat (map letters st.1) ++ letters st.2.

(** A chunk is within the limit, or it is one word of the text. *)
Definition fits (m : Z) (words : list string) (c : string) : Prop :=
  Z.of_nat (String.length c) <= m \/ c ∈ words.

End Text.

(* ===================================================================== *)
(** * The path of the caller-facing stream                                *)
(* ===================================================================== *)
Module StreamPath.
Import Text.

(** The test of the [upgrade] handler:
    [pathname.startsWith('/api/outbound/stream/')]. *)
Definition upgrade_accepts (pathname : string) : bool :=
  String.prefix "/api/outbound/stream/" pathname.

(** The session id the connection handler takes from the path: the
    fifth of exactly five parts, after [api], [outbound] and [stream];
    [None] when [sessionId] stays undefined or is the empty string, and
    the socket is closed with code 1008. *)
Definition session_of_path (pathname : string) : option string :=
  match split "/" pathname with
  | [_; p1; p2; p3; p4] =>
      if String.eqb p1 "api" && String.eqb p2 "outbound"
         && String.eqb p3 "stream"
      then if String.eqb p4 "" then None else Some p4
      else None
  | _ => None
  end.

End StreamPath.

(* ===================================================================== *)
(** * The connection handler of the caller-facing stream                  *)
(* ===================================================================== *)
Module Admission.
Import Js Redis SessionManager Client ClientAsync MediaStream StreamPath.

(** How the checks of the connection handler end: the socket is closed
    with a code and a reason, or it is kept and gets [ws.sessionId] and
    [ws.callInfo]. *)
Inductive verdict : Type :=
| Closed (code : Z) (reason : string)
| Kept (sessionId : string) (callInfo : json).

(** [sessionInfo.owner && sessionInfo.owner !== process.pid], with the
    owner when the test holds. *)
Definition owned_elsewhere (owner : option Z) (me : Z) : option Z :=
  match owner with
  | Some n => if (n =? 0) || (n =? me) then None else Some n
  | None => None
  end.

(** The record written before the stream of a session held by another
    process is attached:
    [{ ...callInfo, serverHandling: process.pid,
       serverHandlingTime: Date.now(),
       previousServerPid: callInfo.serverHandling || null,
       workerOwner: sessionInfo.owner }] *)
Definition coordinated (callInfo : json) (me nowMs workerOwner : Z) : json :=
  JObj (spread (own_fields callInfo)
          [("serverHandling", JNum me);
           ("serverHandlingTime", JNum nowMs);
           ("previousServerPid",
            match Js.get "serverHandling" callInfo with
            | Some v => if truthy v then v else JNull
            | None => JNull
            end);
           ("workerOwner", JNum workerOwner)]).

(** The checks of [wss.on('connection')], from the path to the point
    where the handlers are attached.  The pause of 500 ms after the
    coordination record is written issues no command. *)
Definition checks (pathname : string) (nowMs : Z) (c : client)
  : prog verdict :=
  match session_of_path pathname with
  | None => mret (Closed 1008 "Session ID missing")
  | Some sessionId =>
      callInfo ← getOutboundSession sessionId;
      match callInfo with
      | None => mret (Closed 1011 "Session not found in Redis")
      | Some info =>
          if negb (truthy info)
          then mret (Closed 1011 "Session not found in Redis")
          else if negb (isSessionActiveOrOpening sessionId c) then
            sessionInfo ← sessionExistsAnywhere sessionId c;
            if negb (exists_ sessionInfo) then
              _ ← deleteOutboundSession sessionId;
              mret (Closed 1011 "ElevenLabs session inactive or closed")
            else
              match owned_elsewhere (owner sessionInfo) (pid c) with
              | Some workerOwner =>
                  _ ← saveOutboundSession sessionId
                        (coordinated info (pid c) nowMs workerOwner)
                        SESSION_TTL;
                  callInfo' ← getOutboundSession sessionId;
                  match callInfo' with
                  | None =>
                      mret (Closed 1011 "Session data lost during coordination")
                  | Some info' =>
                      if negb (truthy info')
                      then mret (Closed 1011
                                   "Session data lost during coordination")
                      else mret (Kept sessionId info')
                  end
              | None => mret (Kept sessionId info)
              end
          else mret (Kept sessionId info)
      end
  end.

(** [wss.on('connection')] for socket [w]: the checks, then the socket
    is closed or attached. *)
Definition on_connection (pathname : string) (w : Ws.socket) (nowMs : Z)
    (s : server) : prog (Ws.socket * server) :=
  v ← checks pathname nowMs (elevenlabs s);
  mret (match v with
        | Closed code reason => (Ws.close code reason w, s)
        | Kept sessionId info => (w, attach sessionId info w s)
        end).

(** [acquireSessionIfExists(sessionId)] *)
Definition acquireSessionIfExists (sessionId : string) (c : client)
  : prog bool :=
  try_catch
    (sessionInfo ← sessionExistsAnywhere sessionId c;
     if negb (exists_ sessionInfo) then mret false
     else if inMemory sessionInfo then mret true
     else acquireSessionOwnership sessionId (pid c) OWNERSHIP_TTL)
    (mret false).

End Admission.

(* ===================================================================== *)
(** * The clean-up of a failed job ([processJob])                         *)
(* ===================================================================== *)
Module Worker.
Import Js Redis SessionManager Client ClientAsync.

(** The [catch] block of [processJob], for a job that fails once its
    session id is generated: the conversation is ended, the call record
    deleted and the lease released, before the error is thrown again. *)
Definition cleanup (elevenLabsSessionId : string) (nowMs : Z) (c : client)
  : prog client :=
  c' ← endConversation elevenLabsSessionId nowMs c;
  _ ← deleteOutboundSession elevenLabsSessionId;
  _ ← releaseSessionOwnership elevenLabsSessionId (pid c);
  mret c'.

End Worker.

(* ===================================================================== *)
(** * Further notions and scenarios                                       *)
(* ===================================================================== *)
Module LeaseNotions.
Import Js Redis SessionManager Interleaving Backoff.

(** Schedules in which the only registry operation is acquire. *)
Definition acquire_only (a : action) : bool :=
  match a with
  | Invoke _ Acquire _ => true
  | Invoke _ _ _ => false
  | _ => true
  end.

(** A call of acquire in flight: it has not issued its [SET] yet, or the
    [SET] answered null and only the [GET] for the log line is left. *)
Definition acquiring (sid : string) (p : Z) (th : thread) : Prop :=
  code th = program sid p Acquire (ttl th)
  \/ exists k, code th = Do (GET_owner sid) k (Ret false)
               /\ forall r, k r = Ret false.

End LeaseNotions.

Module Schedules.
Import Js Redis SessionManager Interleaving.

(** Processes 101 and 202 acquire the lease of one session at the same
    time; the [SET] of process 202 reaches the store first. *)
Definition acquire_race : list action :=
  [ Invoke 101 Acquire 30; Invoke 202 Acquire 30;
    Step 202 false; Step 101 false; Step 101 false ].

End Schedules.

Module ClientViews.
Import Js Backoff Client.

(** The client of process [p] whose session table is [a] and whose
    object [l] is [s], the other objects being those of [o]. *)
Definition placed (p : Z) (o : gmap nat session) (a : gmap string nat)
    (l : nat) (s : session) (e : list effect) : client :=
  ClientState p (<[l := s]> o) a e.

(** What [_scheduleReconnect] lets the outside see below the maximum. *)
Definition reconnecting_effects (sid : string) (cb : callbacks)
    (attempts d : Z) : list effect :=
  Emit "reconnecting" [JStr sid; JNum attempts; JNum d]
  :: (if onReconnecting cb
      then [Call "onReconnecting" [JStr sid; JNum attempts; JNum d]]
      else []).

(** A socket once it has opened, once it has closed, and an open socket
    once it has been handed [m]. *)
Definition opened (w : Ws.socket) : Ws.socket :=
  Ws.Socket Ws.OPEN (Ws.sent w) (Ws.pings w) (Ws.close_calls w)
    (Ws.terminated w) (Ws.listeners w).

Definition shut (w : Ws.socket) : Ws.socket :=
  Ws.Socket Ws.CLOSED (Ws.sent w) (Ws.pings w) (Ws.close_calls w)
    (Ws.terminated w) (Ws.listeners w).

Definition handed (m : json) (w : Ws.socket) : Ws.socket :=
  Ws.Socket Ws.OPEN (Ws.sent w ++ [m]) (Ws.pings w) (Ws.close_calls w)
    (Ws.terminated w) (Ws.listeners w).

(** The session object as [endConversation] leaves it: marked
    [CLOSING], its timers cleared, and its socket asked to close when it
    is open or still connecting. *)
Definition ended (s : session) : session :=
  let s' :=
    set_reconnectTimer None
      (set_pongTimeoutTimer false
         (set_heartbeatTimer false (set_status CLOSING s))) in
  match ws s with
  | Some w =>
      if bool_decide (Ws.state w = Ws.OPEN)
         || bool_decide (Ws.state w = Ws.CONNECTING)
      then set_ws (Some (Ws.close 1000 "Conversation ended by client" w)) s'
      else s'
  | None => s'
  end.

End ClientViews.

Module Streams.
Import Js Redis Client Relay MediaStream.

(** One audio message of the AI provider as [handleAudioMessage] meets
    it: the message, what the session lookup gives, the clock, and
    whether the publication gets out. *)
Record arrival : Type := Arrival {
  message : json;
  found : session_lookup;
  at_ms : Z;
  gets_out : bool
}.

Definition handle_audio_all (sid : string) (xs : list arrival)
    (p : publisher) : publisher :=
  fold_left
    (fun p x =>
       handleAudioMessage sid (message x) (found x) (at_ms x) (gets_out x) p)
    xs p.

(** The message takes a sequence number: it carries audio and the lookup
    did not throw. *)
Definition numbered (x : arrival) : bool :=
  truthy_opt (audio_of (message x))
  && match found x with LookupThrows => false | _ => true end.

(** The message is published. *)
Definition goes_out (x : arrival) : bool :=
  numbered x && reaches_publish (found x) && gets_out x.

(** The relay messages [ms] reaching the [messageHandler] of connection
    [k] one after the other. *)
Definition relay_all (k : nat) (channel : string) (ms : list json)
    (s : server) : server :=
  fold_left (fun s m => messageHandler k m channel s) ms s.

(** The last [n] elements of a list. *)
Definition last_n {A} (n : nat) (l : list A) : list A :=
  drop (length l - n) l.

End Streams.

(* ===================================================================== *)
(** * Theorems                                                            *)
(* ===================================================================== *)

Module DoubleFacts.
Import Double.

Lemma two_pow_pos (e : Z) : (0 < 2 ^ e)%Q.
Proof. apply Qpower_0_lt. reflexivity. Qed.

Lemma two_pow_inject (k : Z) : 0 <= k -> (inject_Z (2 ^ k) == 2 ^ k)%Q.
Proof. intros Hk. now rewrite Zpower_Qpower. Qed.

Lemma two_pow_succ (e : Z) : (2 ^ (e + 1) == 2 * 2 ^ e)%Q.
Proof. rewrite Qpower_plus by discriminate. change (2 ^ 1)%Q with 2%Q. ring. Qed.

Lemma two_pow_sub (a b : Z) : (2 ^ (a - b) * 2 ^ b == 2 ^ a)%Q.
Proof.
  rewrite <- Qpower_plus by discriminate. now replace (a - b + b) with a by lia.
Qed.

Lemma Q_as_quotient (x : Q) :
  (x * inject_Z (Z.pos (Qden x)) == inject_Z (Qnum x))%Q.
Proof.
  destruct x as [n d]. unfold Qeq, Qmult, inject_Z. cbn. lia.
Qed.

(** [binade] is the base-2 logarithm rounded down. *)
Lemma binade_spec (x : Q) :
  (0 < x)%Q -> (2 ^ binade x <= x)%Q /\ (x < 2 ^ (binade x + 1))%Q.
Proof.
  intros Hx.
  assert (Hn : 0 < Qnum x).
  { destruct x as [n d]. unfold Qlt in Hx. cbn in *. lia. }
  pose proof (Q_as_quotient x) as Hq.
  set (n := Qnum x) in *. set (d := Z.pos (Qden x)) in *.
  assert (Hd : 0 < d) by (unfold d; lia).
  destruct (Z.log2_spec n Hn) as [Hn1 Hn2].
  destruct (Z.log2_spec d Hd) as [Hd1 Hd2].
  pose proof (Z.log2_nonneg n) as Ha. pose proof (Z.log2_nonneg d) as Hb.
  set (a := Z.log2 n) in *. set (b := Z.log2 d) in *.
  assert (Hn1q : (2 ^ a <= inject_Z n)%Q).
  { rewrite <- two_pow_inject by lia. now rewrite <- Zle_Qle. }
  assert (Hn2q : (inject_Z n < 2 ^ (a + 1))%Q).
  { rewrite <- two_pow_inject by lia. rewrite <- Zlt_Qlt.
    now replace (a + 1) with (Z.succ a) by lia. }
  assert (Hd1q : (2 ^ b <= inject_Z d)%Q).
  { rewrite <- two_pow_inject by lia. now rewrite <- Zle_Qle. }
  assert (Hd2q : (inject_Z d < 2 ^ (b + 1))%Q).
  { rewrite <- two_pow_inject by lia. rewrite <- Zlt_Qlt.
    now replace (b + 1) with (Z.succ b) by lia. }
  assert (Hdq : (0 < inject_Z d)%Q).
  { change 0%Q with (inject_Z 0). now rewrite <- Zlt_Qlt. }
  (* x < 2^(a-b+1) and 2^(a-b-1) < x *)
  assert (Hhi : (x < 2 ^ (a - b + 1))%Q).
  { apply (Qmult_lt_r _ _ (inject_Z d) Hdq). rewrite Hq.
    eapply Qlt_le_trans; [exact Hn2q |].
    rewrite <- (two_pow_sub (a + 1) b).
    replace (a + 1 - b) with (a - b + 1) by lia.
    apply Qmult_le_l; [apply two_pow_pos | exact Hd1q]. }
  assert (Hlo : (2 ^ (a - b - 1) < x)%Q).
  { apply (Qmult_lt_r _ _ (inject_Z d) Hdq). rewrite Hq.
    eapply Qlt_le_trans; [| exact Hn1q].
    rewrite <- (two_pow_sub a (b + 1)).
    replace (a - (b + 1)) with (a - b - 1) by lia.
    apply Qmult_lt_l; [apply two_pow_pos | exact Hd2q]. }
  unfold binade. fold n d a b.
  destruct (Qle_bool (2 ^ (a - b)) x) eqn:Hle.
  - apply Qle_bool_iff in Hle. split; [exact Hle | exact Hhi].
  - split.
    + now apply Qlt_le_weak.
    + replace (a - b - 1 + 1) with (a - b) by lia.
      apply Qnot_le_lt. intros H. apply Qle_bool_iff in H. congruence.
Qed.

Lemma ulp_exponent_nonpos (x : Q) :
  (0 < x)%Q -> (x < 2 ^ 53)%Q -> ulp_exponent x <= 0.
Proof.
  intros Hx Hlt. destruct (binade_spec x Hx) as [Hlo _].
  assert (binade x < 53).
  { apply (Qpower_lt_compat_l_inv 2); [| reflexivity].
    eapply Qle_lt_trans; [exact Hlo | exact Hlt]. }
  unfold ulp_exponent. lia.
Qed.

Lemma round_half_even_between (y : Q) (A B : Z) :
  (inject_Z A <= y)%Q -> (y <= inject_Z B)%Q ->
  A <= round_half_even y <= B.
Proof.
  intros HA HB.
  pose proof (Qfloor_le y) as Hf1. pose proof (Qlt_floor y) as Hf2.
  assert (HAf : A <= Qfloor y).
  { rewrite <- (Qfloor_Z A). now apply Qfloor_resp_le. }
  assert (HfB : Qfloor y <= B).
  { rewrite Zle_Qle. now apply Qle_trans with y. }
  unfold round_half_even.
  destruct (Qcompare_spec (y - inject_Z (Qfloor y)) (1 # 2)) as [He | Hl | Hg].
  - destruct (Z.even (Qfloor y)); [lia |].
    assert (Qfloor y < B); [| lia].
    rewrite Zlt_Qlt. apply Qlt_le_trans with y; [| exact HB]. lra.
  - lia.
  - assert (Qfloor y < B); [| lia].
    rewrite Zlt_Qlt. apply Qlt_le_trans with y; [| exact HB]. lra.
Qed.

(** Rounding to a double does not cross an integer: between two
    integers, below [2^53], the double nearest to [x] lies between them
    too. *)
Lemma to_double_between (x : Q) (a b : Z) :
  (0 <= x)%Q -> (x < 2 ^ 53)%Q ->
  (inject_Z a <= x)%Q -> (x <= inject_Z b)%Q ->
  (inject_Z a <= to_double x)%Q /\ (to_double x <= inject_Z b)%Q.
Proof.
  intros H0 H53 Ha Hb. unfold to_double.
  destruct (Qnum x) as [| p | p] eqn:Hnum.
  - assert (Hx : (x == 0)%Q).
    { destruct x as [n d]. cbn in Hnum. subst n. reflexivity. }
    rewrite Hx in Ha, Hb. auto.
  - assert (Hx : (0 < x)%Q).
    { destruct x as [n d]. cbn in Hnum. subst n. reflexivity. }
    pose proof (ulp_exponent_nonpos x Hx H53) as He.
    unfold nearest. set (e := ulp_exponent x) in *.
    set (k := - e).
    assert (Hk : 0 <= k) by (unfold k; lia).
    assert (Hpow : (2 ^ e * 2 ^ k == 1)%Q).
    { rewrite <- Qpower_plus by discriminate.
      now replace (e + k) with 0 by (unfold k; lia). }
    pose proof (two_pow_pos e) as Hpe. pose proof (two_pow_pos k) as Hpk.
    assert (Hdiv : (x / 2 ^ e == x * 2 ^ k)%Q).
    { unfold Qdiv, k. now rewrite Qpower_opp. }
    destruct (round_half_even_between (x / 2 ^ e) (a * 2 ^ k) (b * 2 ^ k))
      as [Hm1 Hm2].
    + rewrite Hdiv, inject_Z_mult, two_pow_inject by exact Hk.
      apply Qmult_le_compat_r; [exact Ha | lra].
    + rewrite Hdiv, inject_Z_mult, two_pow_inject by exact Hk.
      apply Qmult_le_compat_r; [exact Hb | lra].
    + set (m := round_half_even (x / 2 ^ e)) in *.
      rewrite Zle_Qle in Hm1, Hm2.
      rewrite inject_Z_mult, two_pow_inject in Hm1, Hm2 by exact Hk.
      split.
      * apply (Qmult_le_r _ _ (2 ^ k) Hpk).
        rewrite <- Qmult_assoc, Hpow, Qmult_1_r. exact Hm1.
      * apply (Qmult_le_r _ _ (2 ^ k) Hpk).
        rewrite <- Qmult_assoc, Hpow, Qmult_1_r. exact Hm2.
  - exfalso. destruct x as [n d]. cbn in Hnum. subst n.
    unfold Qle in H0. cbn in H0. lia.
Qed.

End DoubleFacts.

Module BackoffFacts.
Import Double DoubleFacts Backoff.

Lemma baseDelay_pos n : 1 <= n -> 0 < baseDelay n.
Proof.
  intros Hn. unfold baseDelay, RECONNECT_MAX_DELAY_MS,
    RECONNECT_BASE_DELAY_MS, RECONNECT_FACTOR.
  assert (0 < 2 ^ (n - 1)) by (apply Z.pow_pos_nonneg; lia).
  lia.
Qed.

Lemma baseDelay_le_cap n : baseDelay n <= RECONNECT_MAX_DELAY_MS.
Proof. unfold baseDelay. lia. Qed.

(** The base delay takes six values. *)
Lemma baseDelay_values n :
  1 <= n -> In (baseDelay n) [1000; 2000; 4000; 8000; 16000; 30000].
Proof.
  intros Hn.
  destruct (Z.le_gt_cases 6 n) as [H6 | H6].
  - assert (baseDelay n = 30000).
    { unfold baseDelay, RECONNECT_MAX_DELAY_MS, RECONNECT_BASE_DELAY_MS,
        RECONNECT_FACTOR.
      assert (2 ^ 5 <= 2 ^ (n - 1)) by (apply Z.pow_le_mono_r; lia).
      change (2 ^ 5) with 32 in *. lia. }
    rewrite H. cbn. tauto.
  - assert (Hcase : n = 1 \/ n = 2 \/ n = 3 \/ n = 4 \/ n = 5) by lia.
    destruct Hcase as [-> | [-> | [-> | [-> | ->]]]]; vm_compute; tauto.
Qed.

Lemma Qfloor_lt_Z (x : Q) (z : Z) : (x < inject_Z z)%Q -> Qfloor x < z.
Proof.
  intros Hx. rewrite Zlt_Qlt.
  eapply Qle_lt_trans; [apply Qfloor_le | exact Hx].
Qed.

Lemma Qfloor_ge_Z (x : Q) (z : Z) : (inject_Z z <= x)%Q -> z <= Qfloor x.
Proof.
  intros Hx. rewrite <- (Qfloor_Z z). now apply Qfloor_resp_le.
Qed.

Lemma Math_round_between (x : Q) (a b : Z) :
  (inject_Z a <= x)%Q -> (x <= inject_Z b)%Q -> a <= Math_round x <= b.
Proof.
  intros Ha Hb. unfold Math_round. split.
  - apply Qfloor_ge_Z. lra.
  - assert (Qfloor (x + (1 # 2)) < b + 1); [| lia].
    apply Qfloor_lt_Z. rewrite inject_Z_plus.
    change (inject_Z 1) with 1%Q. lra.
Qed.

(** In double precision a fifth of each base delay comes out exact. *)
Lemma fifth_exact n :
  1 <= n ->
  (to_double (inject_Z (baseDelay n) * to_double (2 # 10))
   == inject_Z (baseDelay n / 5))%Q.
Proof.
  intros Hn. pose proof (baseDelay_values n Hn) as Hv. cbn in Hv.
  destruct Hv as [<- | [<- | [<- | [<- | [<- | [<- | []]]]]]];
    vm_compute; reflexivity.
Qed.

Lemma small_below_two_pow_53 (x : Q) : (x <= 40000)%Q -> (x < 2 ^ 53)%Q.
Proof.
  intros Hx. eapply Qle_lt_trans; [exact Hx |]. reflexivity.
Qed.

Lemma jitter_bounds n rnd :
  1 <= n -> (0 <= rnd)%Q -> (rnd < 1)%Q ->
  (0 <= jitter n rnd)%Q /\ (jitter n rnd <= inject_Z (baseDelay n / 5))%Q.
Proof.
  intros Hn H0 H1. unfold jitter.
  pose proof (fifth_exact n Hn) as Hfifth.
  set (t := to_double (inject_Z (baseDelay n) * to_double (2 # 10))) in *.
  assert (Hf : 0 <= baseDelay n / 5 <= 6000).
  { pose proof (baseDelay_values n Hn) as Hv. cbn in Hv.
    destruct Hv as [<- | [<- | [<- | [<- | [<- | [<- | []]]]]]];
      vm_compute; split; discriminate. }
  assert (Hf0 : (0 <= inject_Z (baseDelay n / 5))%Q).
  { change 0%Q with (inject_Z 0). rewrite <- Zle_Qle. lia. }
  assert (Hf1 : (inject_Z (baseDelay n / 5) <= 6000)%Q).
  { change 6000%Q with (inject_Z 6000). rewrite <- Zle_Qle. lia. }
  assert (Hprod0 : (0 <= t * rnd)%Q).
  { rewrite Hfifth. set (f := inject_Z (baseDelay n / 5)) in *. nra. }
  assert (Hprod1 : (t * rnd <= inject_Z (baseDelay n / 5))%Q).
  { rewrite Hfifth. set (f := inject_Z (baseDelay n / 5)) in *. nra. }
  apply (to_double_between (t * rnd) 0 (baseDelay n / 5)).
  - exact Hprod0.
  - apply small_below_two_pow_53. lra.
  - exact Hprod0.
  - exact Hprod1.
Qed.

Lemma delay_bounds n rnd :
  1 <= n -> (0 <= rnd)%Q -> (rnd < 1)%Q ->
  baseDelay n <= delay n rnd <= baseDelay n + baseDelay n / 5.
Proof.
  intros Hn H0 H1.
  destruct (jitter_bounds n rnd Hn H0 H1) as [Hlo Hhi].
  pose proof (baseDelay_pos n Hn) as Hpos.
  pose proof (baseDelay_le_cap n) as Hcap. unfold RECONNECT_MAX_DELAY_MS in Hcap.
  assert (Hb0 : (0 < inject_Z (baseDelay n))%Q).
  { change 0%Q with (inject_Z 0). now rewrite <- Zlt_Qlt. }
  assert (Hb1 : (inject_Z (baseDelay n) <= 30000)%Q).
  { change 30000%Q with (inject_Z 30000). now rewrite <- Zle_Qle. }
  assert (Hf1 : (inject_Z (baseDelay n / 5) <= 6000)%Q).
  { change 6000%Q with (inject_Z 6000). rewrite <- Zle_Qle.
    assert (baseDelay n / 5 <= 30000 / 5) by (apply Z.div_le_mono; lia).
    exact H. }
  unfold delay. apply Math_round_between;
    apply (to_double_between (inject_Z (baseDelay n) + jitter n rnd)
             (baseDelay n) (baseDelay n + baseDelay n / 5));
    try rewrite inject_Z_plus; try lra;
    apply small_below_two_pow_53; lra.
Qed.

(** The sum is rounded to a double before [Math.round]: at the first
    attempt the draw [22517998136852 / 2^53] gives a jitter just under
    one half, the sum rounds to 1000.5, and the delay is 1001 ms. *)
Example delay_rounds_the_sum :
  delay 1 (22517998136852 # 9007199254740992) = 1001.
Proof. vm_compute. reflexivity. Qed.

Lemma delay_no_jitter n : 1 <= n -> delay n 0 = baseDelay n.
Proof.
  intros Hn.
  assert (Hj : (jitter n 0 == 0)%Q).
  { unfold jitter, to_double at 1. cbn [Qmult Qnum].
    now rewrite Z.mul_0_r. }
  pose proof (baseDelay_pos n Hn) as Hpos.
  pose proof (baseDelay_le_cap n) as Hcap. unfold RECONNECT_MAX_DELAY_MS in Hcap.
  assert (Hb0 : (0 < inject_Z (baseDelay n))%Q).
  { change 0%Q with (inject_Z 0). now rewrite <- Zlt_Qlt. }
  assert (Hb1 : (inject_Z (baseDelay n) <= 30000)%Q).
  { change 30000%Q with (inject_Z 30000). now rewrite <- Zle_Qle. }
  assert (baseDelay n <= delay n 0 <= baseDelay n); [| lia].
  unfold delay. apply Math_round_between;
    apply (to_double_between (inject_Z (baseDelay n) + jitter n 0)
             (baseDelay n) (baseDelay n));
    try lra; apply small_below_two_pow_53; lra.
Qed.

(** On the sixth attempt a jitter draw of one half schedules the
    reconnection after 33000 ms, above the 30000 ms that
    [RECONNECT_MAX_DELAY_MS] names as the maximum. *)
Lemma backoff_delay_exceeds_cap :
  delay 6 (1 # 2) = 33000 /\ ~ never_exceeds_cap.
Proof.
  assert (H : delay 6 (1 # 2) = 33000) by (vm_compute; reflexivity).
  split; [exact H |].
  intros Hcap.
  specialize (Hcap 6 (1 # 2)).
  rewrite H in Hcap. unfold RECONNECT_MAX_DELAY_MS in Hcap.
  assert (33000 <= 30000); [| lia].
  apply Hcap; [lia | discriminate | reflexivity].
Qed.

End BackoffFacts.

(* --------------------------------------------------------------------- *)
(** ** The ownership registry                                             *)
(* --------------------------------------------------------------------- *)

Module RegistryFacts.
Import Js Redis SessionManager.
Import Notions Scenarios.

Ltac unfold_prog :=
  unfold mbind, mret, prog_bind, prog_ret, await in *.

Lemma String_of_inj (p q : Z) : String_of p = String_of q -> p = q.
Proof. unfold String_of. apply (inj pretty). Qed.

Lemma pretty_N_go_length (x : N) (s : string) :
  (String.length s <= String.length (pretty_N_go x s))%nat.
Proof.
  revert s. induction (N.lt_wf_0 x) as [x _ IH]. intros s.
  destruct (N.eq_0_gt_0_cases x) as [-> | Hpos].
  - rewrite pretty_N_go_0. lia.
  - rewrite pretty_N_go_step by exact Hpos.
    etransitivity; [| apply IH; apply N.div_lt; [exact Hpos | reflexivity]].
    cbn. lia.
Qed.

Lemma pretty_positive_nonempty (p : positive) : pretty p <> "".
Proof.
  unfold pretty, pretty_positive, pretty, pretty_N.
  destruct (decide (N.pos p = 0%N)) as [H | _]; [discriminate H |].
  rewrite pretty_N_go_step by reflexivity.
  intros Heq.
  pose proof (pretty_N_go_length (N.pos p `div` 10)
                (String (pretty_N_char (N.pos p `mod` 10)) "")) as Hlen.
  rewrite Heq in Hlen. cbn in Hlen. lia.
Qed.

(** The decimal text of a process id is never empty, so a stored owner is
    never mistaken for a missing one. *)
Lemma String_of_nonempty (n : Z) : String_of n <> "".
Proof.
  unfold String_of, pretty, pretty_Z. destruct n as [| p | p].
  - discriminate.
  - apply pretty_positive_nonempty.
  - discriminate.
Qed.

Lemma falsy_String_of (n : Z) : falsy (Some (String_of n)) = false.
Proof.
  cbn. destruct (String.eqb_spec (String_of n) ""); [| reflexivity].
  now destruct (String_of_nonempty n).
Qed.

Lemma try_catch_no_throw {A} (p h : prog A) :
  no_throw h -> no_throw (try_catch p h).
Proof.
  intros Hh. induction p as [a | | R c k IHk h' IHh]; cbn.
  - constructor.
  - exact Hh.
  - constructor; [intros r; apply IHk | exact IHh].
Qed.

Lemma bind_no_throw {A B} (p : prog A) (f : A -> prog B) :
  no_throw p -> (forall a, no_throw (f a)) -> no_throw (bind p f).
Proof.
  intros Hp Hf. induction Hp as [a | R c k h _ IHk _ IHh]; cbn.
  - apply Hf.
  - constructor; [exact IHk | exact IHh].
Qed.

Lemma run_no_throw {A} (p : prog A) :
  no_throw p ->
  forall faults now st, exists a st', run p faults now st = (Returned a, st').
Proof.
  induction 1 as [a | R c k h _ IHk _ IHh]; intros faults now st; cbn.
  - eauto.
  - destruct faults as [| [|] rest]; cbn.
    + destruct (exec c now st) as [[r st'] |]; [apply IHk | apply IHh].
    + apply IHh.
    + destruct (exec c now st) as [[r st'] |]; [apply IHk | apply IHh].
Qed.

Lemma acquire_no_throw sid pid ttl :
  no_throw (acquireSessionOwnership sid pid ttl).
Proof. apply try_catch_no_throw. constructor. Qed.

Lemma renew_no_throw sid pid ttl :
  no_throw (updateSessionOwnership sid pid ttl).
Proof. apply try_catch_no_throw. constructor. Qed.

Lemma release_no_throw sid pid :
  no_throw (releaseSessionOwnership sid pid).
Proof. apply try_catch_no_throw. constructor. Qed.

Lemma read_live {V} now (m : gmap string (entry V)) sid v e :
  m !! sid = Some (Entry v e) -> now < e -> read now m sid = Some v.
Proof.
  intros Hm Hlt. unfold read, live. rewrite Hm. cbn.
  destruct (Z.ltb_spec now e); [reflexivity | lia].
Qed.

(** Acquiring a free lease: [SET ... NX] answers OK. *)
Lemma acquire_free sid pid ttl now st :
  0 < ttl ->
  read now (session_owner st) sid = None ->
  run (acquireSessionOwnership sid pid ttl) [] now st
  = (Returned true,
     Store (<[sid := Entry (String_of pid) (now + ttl)]> (session_owner st))
           (outbound_session st)).
Proof.
  intros Httl Hfree.
  unfold acquireSessionOwnership. unfold_prog. cbn.
  destruct (Z.leb_spec ttl 0); [lia |].
  rewrite Hfree. cbn. reflexivity.
Qed.

(** Acquiring a lease that somebody holds: [SET ... NX] answers null and
    the store is left as it was. *)
Lemma acquire_taken sid pid ttl now st o :
  0 < ttl ->
  read now (session_owner st) sid = Some o ->
  run (acquireSessionOwnership sid pid ttl) [] now st = (Returned false, st).
Proof.
  intros Httl Htaken.
  unfold acquireSessionOwnership. unfold_prog. cbn.
  destruct (Z.leb_spec ttl 0); [lia |].
  rewrite Htaken. cbn. reflexivity.
Qed.

Lemma run_bind {A B} (p : prog A) (f : A -> prog B) now : forall st,
  run (bind p f) [] now st
  = match run p [] now st with
    | (Returned a, st') => run (f a) [] now st'
    | (Thrown, st') => (Thrown, st')
    end.
Proof.
  induction p as [a | | R c k IHk h IHh]; intros st; cbn.
  - reflexivity.
  - reflexivity.
  - destruct (exec c now st) as [[r st'] |]; [apply IHk | apply IHh].
Qed.

Lemma run_try_catch_returned {A} (p h : prog A) now : forall st a st',
  run p [] now st = (Returned a, st') ->
  run (try_catch p h) [] now st = (Returned a, st').
Proof.
  induction p as [a0 | | R c k IHk h0 IHh]; intros st a st' Hrun;
    cbn in *.
  - exact Hrun.
  - discriminate Hrun.
  - destruct (exec c now st) as [[r st0] |]; auto.
Qed.

(** No command on the lease touches a session record. *)
Lemma renew_keeps_records sid pid ttl now st :
  exists b st',
    run (updateSessionOwnership sid pid ttl) [] now st = (Returned b, st')
    /\ outbound_session st' = outbound_session st.
Proof.
  unfold updateSessionOwnership, acquireSessionOwnership. unfold_prog. cbn.
  destruct (read now (session_owner st) sid) as [o |] eqn:Hread; cbn.
  - destruct (String.eqb o ""); cbn.
    + destruct (ttl <=? 0); cbn; [eauto |]. rewrite Hread. cbn. eauto.
    + destruct (bool_decide _); cbn; [| eauto].
      rewrite Hread. eauto.
  - destruct (ttl <=? 0); cbn; [eauto |]. rewrite Hread. cbn. eauto.
Qed.

(** Renewing a lease one holds: [GET] then [EXPIRE]. *)
Lemma renew_held sid pid ttl now st e :
  session_owner st !! sid = Some (Entry (String_of pid) e) ->
  now < e ->
  run (updateSessionOwnership sid pid ttl) [] now st
  = (Returned true,
     Store (<[sid := Entry (String_of pid) (now + ttl)]> (session_owner st))
           (outbound_session st)).
Proof.
  intros Hst Hlive.
  pose proof (read_live now _ _ _ _ Hst Hlive) as Hread.
  unfold updateSessionOwnership. unfold_prog. cbn.
  rewrite Hread, falsy_String_of.
  rewrite bool_decide_eq_true_2 by reflexivity. cbn.
  rewrite Hread. reflexivity.
Qed.

(** Renewing when no lease is there is acquiring. *)
Lemma renew_absent sid pid ttl now st :
  falsy (read now (session_owner st) sid) = true ->
  run (updateSessionOwnership sid pid ttl) [] now st
  = run (acquireSessionOwnership sid pid ttl) [] now st.
Proof.
  intros Hfalsy.
  unfold updateSessionOwnership, acquireSessionOwnership. unfold_prog. cbn.
  rewrite Hfalsy. cbn.
  destruct (ttl <=? 0); [reflexivity |].
  destruct (bool_decide _); reflexivity.
Qed.

(** Renewing a lease that another process holds fails and changes
    nothing, whatever the connection does. *)
Lemma renew_foreign sid pid ttl now st o faults :
  read now (session_owner st) sid = Some o ->
  falsy (Some o) = false -> o <> String_of pid ->
  run (updateSessionOwnership sid pid ttl) faults now st
  = (Returned false, st).
Proof.
  intros Hread Hfalsy Hne.
  unfold updateSessionOwnership. unfold_prog.
  destruct faults as [| [|] rest]; cbn; try reflexivity;
    rewrite Hread, Hfalsy;
    rewrite bool_decide_eq_false_2 by congruence; reflexivity.
Qed.

(** When renewing answers [true], the lease was missing or the caller's. *)
Lemma renew_true_inv sid pid ttl now st st' :
  run (updateSessionOwnership sid pid ttl) [] now st = (Returned true, st') ->
  falsy (read now (session_owner st) sid) = true
  \/ read now (session_owner st) sid = Some (String_of pid).
Proof.
  unfold updateSessionOwnership. unfold_prog. cbn.
  destruct (falsy (read now (session_owner st) sid)) eqn:Hf;
    [left; reflexivity |].
  destruct (bool_decide_reflect
              (read now (session_owner st) sid = Some (String_of pid)))
    as [Heq | Hne]; [right; exact Heq |].
  cbn. intros H. discriminate H.
Qed.

(** One call of [updateSessionOwnership] whose commands reach the store
    at one instant, with no command of another process in between: renewing
    never throws; it answers [true] and moves the expiry to [now + ttl]
    when the caller holds the lease; it acquires when there is no lease;
    and when another process holds the lease it answers [false] and leaves
    the lease as it is, also when commands fail; an answer [true] means
    the lease was the caller's or missing. *)
Theorem renew_only_by_holder (sid : string) (pid ttl now : Z) (st : store) :
  0 < ttl ->
  (forall faults, exists b st',
      run (updateSessionOwnership sid pid ttl) faults now st
      = (Returned b, st'))
  /\ (forall e,
        session_owner st !! sid = Some (Entry (String_of pid) e) ->
        now < e ->
        run (updateSessionOwnership sid pid ttl) [] now st
        = (Returned true,
           Store (<[sid := Entry (String_of pid) (now + ttl)]>
                    (session_owner st))
                 (outbound_session st)))
  /\ (read now (session_owner st) sid = None ->
        run (updateSessionOwnership sid pid ttl) [] now st
        = run (acquireSessionOwnership sid pid ttl) [] now st
        /\ run (acquireSessionOwnership sid pid ttl) [] now st
           = (Returned true,
              Store (<[sid := Entry (String_of pid) (now + ttl)]>
                       (session_owner st))
                    (outbound_session st)))
  /\ (forall other faults,
        read now (session_owner st) sid = Some (String_of other) ->
        other <> pid ->
        run (updateSessionOwnership sid pid ttl) faults now st
        = (Returned false, st))
  /\ (forall st',
        run (updateSessionOwnership sid pid ttl) [] now st
        = (Returned true, st') ->
        falsy (read now (session_owner st) sid) = true
        \/ read now (session_owner st) sid = Some (String_of pid)).
Proof.
  intros Httl. repeat apply conj.
  - intros faults. apply run_no_throw. apply renew_no_throw.
  - intros e Hst Hlive. apply (renew_held _ _ _ _ _ e); assumption.
  - intros Hnone. split.
    + apply renew_absent. now rewrite Hnone.
    + now apply acquire_free.
  - intros other faults Hread Hne.
    apply (renew_foreign _ _ _ _ _ _ _ Hread (falsy_String_of other)).
    intros Heq. apply Hne. now apply String_of_inj.
  - intros st'. apply renew_true_inv.
Qed.

Lemma renew_only_by_holder_witness :
  run (updateSessionOwnership "s1" 101 30) [] 5 held_by_202
  = (Returned false, held_by_202).
Proof.
  assert (Httl : 0 < 30) by lia.
  destruct (renew_only_by_holder "s1" 101 30 5 held_by_202 Httl)
    as (_ & _ & _ & Hother & _).
  apply (Hother 202 []).
  - vm_compute. reflexivity.
  - discriminate.
Defined.

End RegistryFacts.

(* --------------------------------------------------------------------- *)
(** ** Registry calls of several processes, command by command            *)
(* --------------------------------------------------------------------- *)

Module InterleavingFacts.
Import Js Redis SessionManager Interleaving RegistryFacts.
Import Notions Scenarios.

(** After [renew_race] both process 101 and process 202 have been told,
    at instant 30, that they hold the lease of session [s1] for the next
    30 seconds, while the store names process 202 alone.  The renewal is a
    [GET] followed by an [EXPIRE], two commands, and the lease changed
    hands between them. *)
Lemma renew_race_two_holders :
  exists w,
    steps "s1" renew_race init = Some w
    /\ now w = 30
    /\ recorded_owner "s1" w = Some (String_of 202)
    /\ holds w 101 = true
    /\ holds w 202 = true
    /\ ~ at_most_one_holder w.
Proof.
  destruct (steps "s1" renew_race init) as [w |] eqn:Hrun;
    [| vm_compute in Hrun; discriminate Hrun].
  exists w.
  assert (Hw : now w = 30 /\ recorded_owner "s1" w = Some (String_of 202)
               /\ holds w 101 = true /\ holds w 202 = true).
  { vm_compute in Hrun. injection Hrun as <-. vm_compute. auto. }
  destruct Hw as (Hnow & Hown & H1 & H2).
  repeat split; try assumption.
  intros Hex. specialize (Hex 101 202 H1 H2). discriminate Hex.
Qed.

Lemma release_race_two_holders :
  exists w,
    steps "s1" release_race init = Some w
    /\ now w = 30
    /\ recorded_owner "s1" w = Some (String_of 303)
    /\ holds w 101 = false
    /\ holds w 202 = true
    /\ holds w 303 = true.
Proof.
  destruct (steps "s1" release_race init) as [w |] eqn:Hrun;
    [| vm_compute in Hrun; discriminate Hrun].
  exists w. vm_compute in Hrun. injection Hrun as <-.
  vm_compute. auto 6.
Qed.

(** *** Calls that run as one step keep the lease exclusive *)

(** What one whole call does: it returns; if it grants the lease, the
    store names the caller until [now + ttl]; and if the store names
    somebody else, it leaves the store as it is and grants nothing. *)
Lemma whole_call_spec sid q o ttl now st :
  exists b st',
    run (program sid q o ttl) [] now st = (Returned b, st')
    /\ (b = true -> o <> Release ->
        session_owner st' !! sid = Some (Entry (String_of q) (now + ttl)))
    /\ (forall v, read now (session_owner st) sid = Some v ->
          v <> String_of q ->
          st' = st /\ (o <> Release -> b = false)).
Proof.
  destruct o; unfold program, acquireSessionOwnership, updateSessionOwnership,
    releaseSessionOwnership; unfold_prog; cbn.
  - (* acquire *)
    destruct (ttl <=? 0); cbn.
    { eexists _, _. split; [reflexivity |]. split; [discriminate | auto]. }
    destruct (read now (session_owner st) sid) as [v |] eqn:Hread; cbn.
    + eexists _, _. split; [reflexivity |]. split; [discriminate | auto].
    + eexists _, _. split; [reflexivity |]. split.
      * intros _ _. cbn. apply lookup_insert_eq.
      * discriminate.
  - (* renew *)
    destruct (read now (session_owner st) sid) as [v |] eqn:Hread; cbn.
    + destruct (String.eqb v ""); cbn.
      * destruct (ttl <=? 0); cbn; [| rewrite Hread; cbn];
          (eexists _, _; split; [reflexivity |]; split; [discriminate | auto]).
      * destruct (bool_decide_reflect (Some v = Some (String_of q)))
          as [[= ->] | Hne]; cbn.
        -- rewrite Hread. eexists _, _. split; [reflexivity |]. split.
           ++ intros _ _. cbn. apply lookup_insert_eq.
           ++ intros v [= <-] Hv. contradiction.
        -- eexists _, _. split; [reflexivity |].
           split; [discriminate | auto].
    + destruct (ttl <=? 0); cbn.
      { eexists _, _. split; [reflexivity |]. split; [discriminate | auto]. }
      rewrite Hread. cbn.
      eexists _, _. split; [reflexivity |]. split.
      * intros _ _. cbn. apply lookup_insert_eq.
      * discriminate.
  - (* release *)
    destruct (read now (session_owner st) sid) as [v |] eqn:Hread; cbn.
    + destruct (String.eqb v ""); cbn.
      * eexists _, _. split; [reflexivity |]. split; [congruence |].
        intros; split; [reflexivity | congruence].
      * destruct (bool_decide_reflect (Some v = Some (String_of q)))
          as [[= ->] | Hne]; cbn.
        -- eexists _, _. split; [reflexivity |]. split; [congruence |].
           intros v [= <-] Hv. contradiction.
        -- eexists _, _. split; [reflexivity |]. split; [discriminate |].
           intros; split; [reflexivity | congruence].
    + eexists _, _. split; [reflexivity |]. split; [congruence |].
      discriminate.
Qed.

Lemma last_answer_cons p c h :
  last_answer p (c :: h)
  = if bool_decide (who c = p) then Some c else last_answer p h.
Proof. reflexivity. Qed.

Lemma whole_step_keeps sid a w :
  granted_is_recorded sid w -> granted_is_recorded sid (whole_step sid a w).
Proof.
  intros Hinv. destruct a as [d | q o ttl]; cbn.
  - destruct (Z.ltb_spec 0 d); [| exact Hinv].
    intros p c Hlast Hres Hwhat Hnow. cbn in *.
    apply Hinv; try assumption. lia.
  - destruct (whole_call_spec sid q o ttl (now w) (db w))
      as (b & st' & -> & Hgrant & Hforeign).
    intros p c Hlast Hres Hwhat Hnow. cbn [history now db] in *.
    rewrite last_answer_cons in Hlast. cbn [who] in Hlast.
    destruct (bool_decide_reflect (q = p)) as [-> | Hne].
    + injection Hlast as <-. cbn in *. apply Hgrant; assumption.
    + pose proof (Hinv p c Hlast Hres Hwhat Hnow) as Hrec.
      assert (Hread : read (now w) (session_owner (db w)) sid
                      = Some (String_of p))
        by (apply (read_live _ _ _ _ _ Hrec); exact Hnow).
      destruct (Hforeign _ Hread) as [-> _]; [| exact Hrec].
      intros Heq. apply Hne. symmetry. now apply String_of_inj.
Qed.

Lemma whole_steps_keep sid calls : forall w,
  granted_is_recorded sid w -> granted_is_recorded sid (whole_steps sid calls w).
Proof.
  induction calls as [| a rest IH]; intros w Hinv; cbn.
  - exact Hinv.
  - apply IH. now apply whole_step_keeps.
Qed.

(** Were the three operations single steps, no run of acquire, renew and
    release by any processes, with any passing of time, would ever leave
    two processes holding the lease. *)
Lemma whole_calls_one_holder sid calls :
  at_most_one_holder (whole_steps sid calls init).
Proof.
  assert (Hinv : granted_is_recorded sid (whole_steps sid calls init)).
  { apply whole_steps_keep. intros p c Hlast. discriminate Hlast. }
  set (w := whole_steps sid calls init) in *.
  intros p q Hp Hq. unfold holds in Hp, Hq.
  destruct (last_answer p (history w)) as [cp |] eqn:Hlp; [| discriminate].
  destruct (last_answer q (history w)) as [cq |] eqn:Hlq; [| discriminate].
  apply andb_prop in Hp as [Hp Hnp]. apply andb_prop in Hp as [Hrp Hwp].
  apply andb_prop in Hq as [Hq Hnq]. apply andb_prop in Hq as [Hrq Hwq].
  apply Z.ltb_lt in Hnp, Hnq.
  assert (Hp' : what cp <> Release) by (destruct (what cp); congruence).
  assert (Hq' : what cq <> Release) by (destruct (what cq); congruence).
  pose proof (Hinv p cp Hlp Hrp Hp' Hnp) as Hrecp.
  pose proof (Hinv q cq Hlq Hrq Hq' Hnq) as Hrecq.
  rewrite Hrecp in Hrecq. injection Hrecq as Heq _.
  now apply String_of_inj.
Qed.

(** Claim C1 on the code: with the commands of different processes
    interleaved, two processes can hold an unexpired lease of one session
    at the same instant.  In [renew_race] a renewal lengthens the lease
    that another process acquired between its [GET] and its [EXPIRE]; in
    [release_race] a release deletes the lease that another process
    acquired between its [GET] and its [DEL], and a third process acquires
    it at once.  Renew and release are a read followed by a conditional
    write, not one compare-and-set step; were they one step, the lease
    would stay exclusive ([whole_calls_one_holder]). *)
Theorem lease_races_break_exclusion :
  (exists w,
     steps "s1" renew_race init = Some w
     /\ holds w 101 = true /\ holds w 202 = true
     /\ ~ at_most_one_holder w)
  /\ (exists w,
        steps "s1" release_race init = Some w
        /\ holds w 202 = true /\ holds w 303 = true
        /\ ~ at_most_one_holder w)
  /\ (forall calls, at_most_one_holder (whole_steps "s1" calls init)).
Proof.
  split; [| split].
  - destruct renew_race_two_holders as (w & Hrun & _ & _ & H1 & H2 & Hex).
    exists w. auto.
  - destruct release_race_two_holders as (w & Hrun & _ & _ & _ & H2 & H3).
    exists w. repeat split; try assumption.
    intros Hex. specialize (Hex 202 303 H2 H3). discriminate Hex.
  - intros calls. apply whole_calls_one_holder.
Qed.

End InterleavingFacts.

(* --------------------------------------------------------------------- *)
(** ** Objects                                                            *)
(* --------------------------------------------------------------------- *)

Module JsFacts.
Import Js.

Lemma field_set_field_eq k v o : field k (set_field k v o) = Some v.
Proof.
  induction o as [| [k' v'] rest IH]; cbn.
  - now rewrite String.eqb_refl.
  - destruct (String.eqb_spec k k') as [-> | Hne]; cbn.
    + now rewrite String.eqb_refl.
    + destruct (String.eqb_spec k k'); [contradiction | exact IH].
Qed.

Lemma field_set_field_ne k k' v o :
  k <> k' -> field k' (set_field k v o) = field k' o.
Proof.
  intros Hne. induction o as [| [k0 v0] rest IH]; cbn.
  - destruct (String.eqb_spec k' k); [congruence | reflexivity].
  - destruct (String.eqb_spec k k0) as [-> | Hk]; cbn.
    + destruct (String.eqb_spec k' k0); [congruence | reflexivity].
    + destruct (String.eqb_spec k' k0); [reflexivity | exact IH].
Qed.

(** A spread with updates leaves every field that is not updated. *)
Lemma field_spread_other updates : forall o k,
  k ∉ map fst updates -> field k (spread o updates) = field k o.
Proof.
  unfold spread.
  induction updates as [| [k0 v0] rest IH]; intros o k Hk; cbn.
  - reflexivity.
  - rewrite IH.
    + apply field_set_field_ne. intros ->. apply Hk. cbn. left.
    + intros Hin. apply Hk. cbn. now right.
Qed.

(** The last update of a key wins. *)
Lemma field_spread_last updates k v : forall o,
  k ∉ map fst updates ->
  field k (spread o ((k, v) :: updates)) = Some v.
Proof.
  intros o Hk. change (spread o ((k, v) :: updates))
    with (spread (set_field k v o) updates).
  rewrite field_spread_other by exact Hk.
  apply field_set_field_eq.
Qed.

End JsFacts.

(* --------------------------------------------------------------------- *)
(** ** The local session table                                            *)
(* --------------------------------------------------------------------- *)

Module ClientFacts.
Import Js Client.

Lemma get_Some c sid l s :
  get c sid = Some (l, s) <->
  activeSessions c !! sid = Some l /\ objects c !! l = Some s.
Proof.
  unfold get. split.
  - destruct (activeSessions c !! sid) as [l0 |]; cbn; [| discriminate].
    destruct (objects c !! l0) as [s0 |] eqn:Ho; cbn; [| discriminate].
    intros [= <- <-]. auto.
  - intros [-> Hs]. cbn. rewrite Hs. reflexivity.
Qed.

Lemma get_update c sid l f s :
  get c sid = Some (l, s) -> get (update l f c) sid = Some (l, f s).
Proof.
  rewrite !get_Some. intros [Ha Ho]. cbn. split; [exact Ha |].
  rewrite lookup_alter_eq, Ho. reflexivity.
Qed.

Lemma objects_update c l f :
  objects (update l f c) !! l = f <$> objects c !! l.
Proof. cbn. apply lookup_alter_eq. Qed.

Lemma update_active_Some c sid l s f :
  get c sid = Some (l, s) -> update_active sid f c = update l f c.
Proof. intros H. unfold update_active. now rewrite H. Qed.

Lemma update_active_None c sid f :
  get c sid = None -> update_active sid f c = c.
Proof. intros H. unfold update_active. now rewrite H. Qed.

Lemma get_None_of_inactive c sid :
  activeSessions c !! sid = None -> get c sid = None.
Proof. intros H. unfold get. now rewrite H. Qed.

End ClientFacts.

(* --------------------------------------------------------------------- *)
(** ** Termination requests between processes                             *)
(* --------------------------------------------------------------------- *)

Module TerminationFacts.
Import Js Redis SessionManager Client ClientAsync.
Import JsFacts RegistryFacts ClientFacts.
Import Notions Scenarios.

(** The four fields of a termination request, and the rest of the
    record. *)
Lemma termination_request_fields o requester nowMs :
  let r := termination_request (JObj o) requester nowMs in
  Js.get "status" r = Some (JStr "terminating")
  /\ Js.get "terminateRequested" r = Some (JBool true)
  /\ Js.get "terminateRequestedBy" r = Some (JNum requester)
  /\ Js.get "terminateRequestTime" r = Some (JNum nowMs)
  /\ forall k, k ∉ request_fields -> Js.get k r = Js.get k (JObj o).
Proof.
  cbn -[spread]. repeat apply conj.
  - unfold spread. cbn.
    rewrite !field_set_field_ne by discriminate.
    apply field_set_field_eq.
  - unfold spread. cbn.
    rewrite !field_set_field_ne by discriminate.
    apply field_set_field_eq.
  - unfold spread. cbn.
    rewrite !field_set_field_ne by discriminate.
    apply field_set_field_eq.
  - unfold spread. cbn. apply field_set_field_eq.
  - intros k Hk. apply field_spread_other. exact Hk.
Qed.

(** [endConversation] for a session that is not in the local table but
    has a live record: the record is read, and written back whole with
    the request and the default expiry of one hour. *)
Lemma endConversation_remote c sid nowMs now st d e :
  get c sid = None ->
  outbound_session st !! sid = Some (Entry d e) ->
  now < e -> truthy d = true ->
  run (endConversation sid nowMs c) [] now st
  = (Returned c,
     Store (session_owner st)
           (<[sid := Entry (termination_request d (pid c) nowMs)
                       (now + SESSION_TTL)]> (outbound_session st))).
Proof.
  intros Hget Hst Hlive Htruthy.
  pose proof (read_live now _ _ _ _ Hst Hlive) as Hread.
  unfold endConversation, sessionExistsAnywhere. rewrite Hget.
  unfold getOutboundSession, getSessionOwner, saveOutboundSession.
  unfold_prog. cbn.
  rewrite Hread. cbn. rewrite Htruthy. cbn.
  rewrite Hread. cbn. rewrite Htruthy. cbn.
  reflexivity.
Qed.

Lemma endConversation_no_throw sid nowMs c :
  no_throw (endConversation sid nowMs c).
Proof.
  unfold endConversation. destruct (get c sid) as [[l s] |].
  - apply bind_no_throw.
    + apply try_catch_no_throw. constructor.
    + intros _. destruct (objects _ !! l ≫= ws) as [w |];
        [destruct (_ || _) |]; constructor.
  - apply bind_no_throw.
    + apply try_catch_no_throw. constructor.
    + intros b. constructor.
Qed.

(** [endConversation] never rejects. *)
Lemma endConversation_returns sid nowMs c faults now st :
  exists c' st',
    run (endConversation sid nowMs c) faults now st = (Returned c', st').
Proof. apply run_no_throw, endConversation_no_throw. Qed.

(** Claim C9: writing the termination request rewrites the whole record
    through [saveOutboundSession] with its default [ttlSeconds]: the
    record expires 3600 seconds after the write, whatever its expiry was
    (24 hours after a final call status, for one); the lease is not
    touched; the four fields of the request are set and every other
    field of the record is kept. *)
Theorem termination_request_resets_expiry
    (c : client) (sid : string) (nowMs now : Z) (st : store)
    (o : object) (e : Z) :
  get c sid = None ->
  outbound_session st !! sid = Some (Entry (JObj o) e) ->
  now < e ->
  exists st',
    run (endConversation sid nowMs c) [] now st = (Returned c, st')
    /\ session_owner st' = session_owner st
    /\ outbound_session st' !! sid
       = Some (Entry (termination_request (JObj o) (pid c) nowMs)
                 (now + 3600))
    /\ (forall sid', sid' <> sid ->
          outbound_session st' !! sid' = outbound_session st !! sid')
    /\ (forall k, k ∉ request_fields ->
          Js.get k (termination_request (JObj o) (pid c) nowMs)
          = Js.get k (JObj o))
    /\ Js.get "status" (termination_request (JObj o) (pid c) nowMs)
       = Some (JStr "terminating")
    /\ Js.get "terminateRequested" (termination_request (JObj o) (pid c) nowMs)
       = Some (JBool true)
    /\ Js.get "terminateRequestedBy" (termination_request (JObj o) (pid c) nowMs)
       = Some (JNum (pid c))
    /\ Js.get "terminateRequestTime" (termination_request (JObj o) (pid c) nowMs)
       = Some (JNum nowMs).
Proof.
  intros Hget Hst Hlive.
  eexists. split.
  { apply (endConversation_remote c sid nowMs now st (JObj o) e);
      [assumption | assumption | assumption | reflexivity]. }
  destruct (termination_request_fields o (pid c) nowMs)
    as (H1 & H2 & H3 & H4 & Hrest).
  cbn [session_owner outbound_session].
  split; [reflexivity |].
  split; [apply lookup_insert_eq |].
  split; [intros sid' Hne; now apply lookup_insert_ne |].
  auto.
Qed.

(** The heartbeat's lease renewal returns and leaves the session records
    alone. *)
Lemma refresh_keeps_records sid c now st :
  exists st',
    run (_refreshOwnership sid c) [] now st = (Returned tt, st')
    /\ outbound_session st' = outbound_session st.
Proof.
  unfold _refreshOwnership.
  destruct (get c sid) as [[l s] |]; [| cbn; eauto].
  destruct (renew_keeps_records sid (pid c) OWNERSHIP_TTL now st)
    as (b & st' & Hrun & Hkeep).
  exists st'. split; [| exact Hkeep].
  apply run_try_catch_returned.
  unfold mbind, prog_bind, mret, prog_ret.
  rewrite run_bind, Hrun. reflexivity.
Qed.

(** The tick of the heartbeat of a session whose record carries a
    termination request: the timers are stopped, the session is marked
    [CLOSING] and its socket is closed with the requester's name. *)
Lemma heartbeat_sees_request sid l nowMs rnd c s w now st d e :
  get c sid = Some (l, s) ->
  heartbeatTimer s = true -> ws s = Some w -> Ws.state w = Ws.OPEN ->
  outbound_session st !! sid = Some (Entry (JObj d) e) -> now < e ->
  Js.get "terminateRequested" (JObj d) = Some (JBool true) ->
  exists c' st' s',
    run (heartbeat_tick sid l nowMs rnd c) [] now st = (Returned c', st')
    /\ objects c' !! l = Some s'
    /\ heartbeatTimer s' = false
    /\ pongTimeoutTimer s' = false
    /\ status s' = CLOSING
    /\ ws s' = Some (Ws.close 1000 (termination_reason (JObj d)) (Ws.ping w)).
Proof.
  intros Hget Hhb Hws Hopen Hst Hlive Hflag.
  pose proof Hget as Hget0. apply get_Some in Hget0 as [Ha Ho].
  unfold heartbeat_tick. rewrite Ho, Hhb.
  unfold socket_open. rewrite Hws, bool_decide_eq_true_2 by exact Hopen.
  unfold mbind at 1. unfold prog_bind. rewrite run_bind.
  destruct (refresh_keeps_records sid
              (update l (fun s0 => set_ws (Ws.ping <$> ws s0) s0) c) now st)
    as (st1 & -> & Hkeep).
  assert (Hread : read now (outbound_session st1) sid = Some (JObj d)).
  { rewrite Hkeep. now apply (read_live now _ _ _ e). }
  unfold _checkForTerminationRequests, getOutboundSession,
    saveOutboundSession.
  unfold_prog. cbn -[Ws.close termination_reason termination_ack].
  rewrite Hread. cbn -[Ws.close termination_reason termination_ack].
  cbn in Hflag. rewrite Hflag.
  cbn -[Ws.close termination_reason termination_ack].
  unfold _stopHeartbeat, _clearTimers, _clearPongTimeoutTimer,
    _clearHeartbeatIntervalTimer, update_active, get, update.
  cbn -[Ws.close termination_reason termination_ack].
  repeat (rewrite ?Ha, ?lookup_alter_eq, ?Ho;
          cbn -[Ws.close termination_reason termination_ack]).
  rewrite Hws. cbn -[Ws.close termination_reason termination_ack].
  eexists _, _, _. split; [reflexivity |].
  cbn -[Ws.close termination_reason termination_ack].
  repeat (rewrite ?lookup_alter_eq, ?Ho;
          cbn -[Ws.close termination_reason termination_ack]).
  rewrite Hws. cbn -[Ws.close termination_reason termination_ack].
  repeat split; reflexivity.
Qed.

(** Claim C6: [endConversation] for a session that the caller does not
    hold but whose record exists never throws and writes the termination
    request on the record; the next heartbeat tick of the process that
    holds the session reads the request, stops its heartbeat timers and
    closes its socket to the AI provider with the reason
    ["Termination requested by process <pid of the requester>"]. *)
Theorem termination_request_observed
    (requester holder : client) (sid : string) (nowMs now : Z)
    (st : store) (o : object) (e : Z) (l : nat) (s : session)
    (w : Ws.socket) (nowMs' now' : Z) (rnd : Q) :
  get requester sid = None ->
  outbound_session st !! sid = Some (Entry (JObj o) e) -> now < e ->
  get holder sid = Some (l, s) ->
  heartbeatTimer s = true -> ws s = Some w -> Ws.state w = Ws.OPEN ->
  now <= now' < now + 3600 ->
  (forall faults, exists c' st',
      run (endConversation sid nowMs requester) faults now st
      = (Returned c', st'))
  /\ exists st1 st2 holder' s' w',
       run (endConversation sid nowMs requester) [] now st
       = (Returned requester, st1)
       /\ read now' (outbound_session st1) sid
          = Some (termination_request (JObj o) (pid requester) nowMs)
       /\ Js.get "terminateRequested"
            (termination_request (JObj o) (pid requester) nowMs)
          = Some (JBool true)
       /\ run (heartbeat_tick sid l nowMs' rnd holder) [] now' st1
          = (Returned holder', st2)
       /\ objects holder' !! l = Some s'
       /\ heartbeatTimer s' = false
       /\ pongTimeoutTimer s' = false
       /\ status s' = CLOSING
       /\ ws s' = Some w'
       /\ Ws.state w' = Ws.CLOSING
       /\ Ws.close_calls w'
          = Ws.close_calls w
            ++ [(1000, "Termination requested by process "
                       +:+ String_of (pid requester))].
Proof.
  intros Hreq Hst Hlive Hhold Hhb Hws Hopen Hnow.
  split; [intros faults; apply endConversation_returns |].
  destruct (termination_request_resets_expiry requester sid nowMs now st o e
              Hreq Hst Hlive)
    as (st1 & Hrun & _ & Hrec & _ & _ & _ & Hflag & Hby & _).
  assert (Hlive1 : now' < now + 3600) by lia.
  destruct (heartbeat_sees_request sid l nowMs' rnd holder s w now' st1
              (spread o
                 [("status", JStr "terminating");
                  ("terminateRequested", JBool true);
                  ("terminateRequestedBy", JNum (pid requester));
                  ("terminateRequestTime", JNum nowMs)])
              (now + 3600) Hhold Hhb Hws Hopen Hrec Hlive1 Hflag)
    as (holder' & st2 & s' & Htick & Hobj & Hh & Hp & Hs & Hw).
  eexists st1, st2, holder', s', _.
  split; [exact Hrun |].
  split; [now apply (read_live now' _ _ _ (now + 3600)) |].
  split; [exact Hflag |].
  split; [exact Htick |].
  split; [exact Hobj |].
  split; [exact Hh |].
  split; [exact Hp |].
  split; [exact Hs |].
  split; [exact Hw |].
  unfold termination_reason.
  change (JObj (spread o _))
    with (termination_request (JObj o) (pid requester) nowMs).
  rewrite Hby. unfold Ws.close, Ws.ping. cbn. rewrite Hopen. cbn.
  split; reflexivity.
Qed.

(** *** A run with two processes *)

(** A final call status stores the record for 24 hours.  (The callback
    also calls [endConversation], whose termination request this later
    write replaces.) *)
Example final_status_keeps_a_day :
  exists st,
    run (StatusRoute.status_callback "s1" (Some (JStr "completed"))
           (Some (JStr "42")) None None 1000 server7) [] 100 call_in_progress
    = (Returned (200, server7), st)
    /\ outbound_session st !! "s1"
       = Some (Entry (JObj [("callSid", JStr "CA1");
                            ("status", JStr "completed");
                            ("duration", JStr "42")]) 86500).
Proof. eexists. split; vm_compute; reflexivity. Qed.

(** A termination request at instant 200 brings the expiry of that
    record from 86500 down to 3800. *)
Lemma termination_request_resets_expiry_witness :
  exists st',
    run (endConversation "s1" 1000 server7) [] 200 call_completed
    = (Returned server7, st')
    /\ expiresAt <$> outbound_session st' !! "s1" = Some 3800.
Proof.
  destruct (termination_request_resets_expiry server7 "s1" 1000 200
              call_completed
              [("callSid", JStr "CA1"); ("status", JStr "completed");
               ("duration", JStr "42")] 86500)
    as (st' & Hrun & _ & Hrec & _).
  - reflexivity.
  - reflexivity.
  - lia.
  - exists st'. split; [exact Hrun |]. rewrite Hrec. reflexivity.
Defined.

Lemma termination_request_observed_witness :
  exists st1 st2 holder' s' w',
    run (endConversation "s1" 1000 server7) [] 100 call_in_progress
    = (Returned server7, st1)
    /\ run (heartbeat_tick "s1" 0 16000 0 worker9) [] 115 st1
       = (Returned holder', st2)
    /\ objects holder' !! 0%nat = Some s'
    /\ heartbeatTimer s' = false
    /\ status s' = CLOSING
    /\ ws s' = Some w'
    /\ Ws.close_calls w'
       = [(1000, "Termination requested by process " +:+ String_of 7)].
Proof.
  destruct (termination_request_observed server7 worker9 "s1" 1000 100
              call_in_progress
              [("callSid", JStr "CA1"); ("status", JStr "in-progress")]
              3650 0%nat
              (Session (Some (Ws.Socket Ws.OPEN [] 0 [] false true))
                 "agent" OPEN (Callbacks true false true false)
                 None true false 0 9)
              (Ws.Socket Ws.OPEN [] 0 [] false true) 16000 115 0%Q)
    as (_ & st1 & st2 & holder' & s' & w' & Hrun & _ & _ & Htick & Hobj
        & Hhb & _ & Hstatus & Hws & _ & Hclose).
  - reflexivity.
  - reflexivity.
  - lia.
  - reflexivity.
  - reflexivity.
  - reflexivity.
  - reflexivity.
  - lia.
  - exists st1, st2, holder', s', w'. auto 10.
Defined.

End TerminationFacts.

(* --------------------------------------------------------------------- *)
(** ** Reconnection: the attempt counter and the permanent close          *)
(* --------------------------------------------------------------------- *)

Module ReconnectFacts.
Import Js Redis SessionManager Backoff Client ClientAsync ClientEvents.
Import ClientFacts.
Import Notions Scenarios.

(** Every handler and every method called with the id of a retired
    session returns at its first test. *)
Lemma handle_retired sid l rnd e c :
  retired sid l c -> handle sid l rnd e c = c.
Proof.
  intros (Hout & Hdeaf & Htimers).
  pose proof (get_None_of_inactive c sid Hout) as Hget.
  destruct e; cbn; rewrite ?Hdeaf; try reflexivity.
  - destruct (objects c !! l) as [s |] eqn:Ho; [| reflexivity].
    destruct (Htimers s eq_refl) as [-> _]. reflexivity.
  - destruct (objects c !! l) as [s |] eqn:Ho; [| reflexivity].
    destruct (Htimers s eq_refl) as [_ ->]. reflexivity.
  - unfold _handleDisconnect. now rewrite Hget.
  - unfold _scheduleReconnect. now rewrite Hget.
  - unfold _connect. now rewrite Hget.
  - unfold _startHeartbeat. now rewrite Hget.
  - unfold sendMessage. now rewrite Hget.
  - unfold _cleanupSession. now rewrite Hget.
Qed.

Lemma handle_all_retired sid l es c :
  retired sid l c -> handle_all sid l es c = c.
Proof.
  intros Hret. induction es as [| [e rnd] rest IH]; cbn.
  - reflexivity.
  - rewrite (handle_retired sid l rnd e c Hret). exact IH.
Qed.

(** *** The asynchronous methods on a session that is out of the table *)

Lemma run_always {A} (a : A) (p : prog A) :
  always a p ->
  forall faults now st, exists st', run p faults now st = (Returned a, st').
Proof.
  induction 1 as [| R c k h _ IHk _ IHh]; intros faults now st; cbn.
  - eauto.
  - destruct faults as [| [|] rest]; cbn.
    + destruct (exec c now st) as [[r st'] |]; [apply IHk | apply IHh].
    + apply IHh.
    + destruct (exec c now st) as [[r st'] |]; [apply IHk | apply IHh].
Qed.

Ltac always_leaves :=
  repeat first
    [ apply always_ret
    | apply always_do; [intros ? |]
    | progress cbn
    | match goal with
      | |- context [if ?x then _ else _] => destruct x
      | |- context [match ?x with _ => _ end] => destruct x
      end ].

Lemma endConversation_absent sid nowMs c :
  get c sid = None -> always c (endConversation sid nowMs c).
Proof.
  intros Hget. unfold endConversation, sessionExistsAnywhere. rewrite Hget.
  unfold getOutboundSession, getSessionOwner, saveOutboundSession.
  unfold mbind, mret, prog_bind, prog_ret, await. cbn.
  always_leaves.
Qed.

Lemma checkForTermination_absent sid nowMs c :
  get c sid = None -> always c (_checkForTerminationRequests sid nowMs c).
Proof.
  intros Hget. unfold _checkForTerminationRequests.
  unfold _stopHeartbeat, _clearTimers, _clearPongTimeoutTimer,
    _clearHeartbeatIntervalTimer.
  rewrite !(update_active_None c sid) by exact Hget. rewrite Hget.
  unfold getOutboundSession, saveOutboundSession.
  unfold mbind, mret, prog_bind, prog_ret, await. cbn.
  always_leaves.
Qed.

(** On a retired session the heartbeat does not tick, and ending the
    conversation or checking for a termination request returns the client
    as it was, whatever the store holds. *)
Lemma async_retired sid l c nowMs rnd faults now st :
  retired sid l c ->
  (forall s, objects c !! l = Some s -> heartbeatTimer s = false) ->
  (exists st', run (heartbeat_tick sid l nowMs rnd c) faults now st
               = (Returned c, st'))
  /\ (exists st', run (endConversation sid nowMs c) faults now st
                  = (Returned c, st'))
  /\ (exists st', run (_checkForTerminationRequests sid nowMs c) faults now st
                  = (Returned c, st')).
Proof.
  intros (Hout & _ & _) Hhb.
  pose proof (get_None_of_inactive c sid Hout) as Hget.
  split; [| split].
  - unfold heartbeat_tick.
    destruct (objects c !! l) as [s |] eqn:Ho; [| cbn; eauto].
    rewrite (Hhb s eq_refl). cbn. eauto.
  - apply run_always. now apply endConversation_absent.
  - apply run_always. now apply checkForTermination_absent.
Qed.

(** Below the maximum, a failure counts one attempt more and arms the
    reconnect timer with the back-off delay of that attempt. *)
Lemma schedule_counts_attempt c sid l s rnd :
  get c sid = Some (l, s) ->
  status s <> CLOSING -> status s <> CLOSED ->
  reconnectAttempts s < 10 ->
  exists s',
    objects (_scheduleReconnect sid rnd c) !! l = Some s'
    /\ activeSessions (_scheduleReconnect sid rnd c) !! sid = Some l
    /\ status s' = RECONNECTING
    /\ reconnectAttempts s' = reconnectAttempts s + 1
    /\ reconnectTimer s' = Some (delay (reconnectAttempts s + 1) rnd).
Proof.
  intros Hget Hclosing Hclosed Hlt.
  pose proof Hget as Hget0. apply get_Some in Hget0 as [Ha Ho].
  unfold _scheduleReconnect. rewrite Hget.
  unfold closing_or_closed.
  rewrite !bool_decide_eq_false_2 by assumption. cbn -[delay].
  unfold max_attempts_reached. cbn -[delay].
  destruct (Z.leb_spec 10 (reconnectAttempts s)); [lia |].
  unfold _clearReconnectTimer, update_active, get, update, emit, call.
  destruct (onReconnecting (cbs s)); cbn -[delay];
    repeat (rewrite ?Ha, ?lookup_alter_eq, ?Ho; cbn -[delay]);
    eexists; repeat split; reflexivity.
Qed.

(** When [_scheduleReconnect] finds the attempt counter at
    [RECONNECT_MAX_ATTEMPTS], 10, or above, it marks the session object
    [CLOSED], emits [permanently_closed] and calls the close callback,
    when there is one, with code 1011 and the reason
    "Max reconnection attempts reached"; the timers are cleared and the
    session leaves the table; and from then on no event of that session
    and no call with its id changes anything, the heartbeat tick, ending
    the conversation and the termination check included, whatever the store
    answers: no reconnect timer is armed again. *)
Lemma max_attempts_close_for_good
    (c : client) (sid : string) (l : nat) (s : session) (rnd : Q) :
  get c sid = Some (l, s) ->
  status s <> CLOSING -> status s <> CLOSED ->
  10 <= reconnectAttempts s ->
  RECONNECT_MAX_ATTEMPTS = Some 10
  /\ (exists s',
        objects (_scheduleReconnect sid rnd c) !! l = Some s'
        /\ status s' = CLOSED
        /\ reconnectTimer s' = None
        /\ heartbeatTimer s' = false
        /\ pongTimeoutTimer s' = false)
  /\ activeSessions (_scheduleReconnect sid rnd c) !! sid = None
  /\ getSessionStatus sid (_scheduleReconnect sid rnd c) = "NOT_FOUND"
  /\ effects (_scheduleReconnect sid rnd c)
     = effects c
       ++ Emit "permanently_closed"
            [JStr sid; JStr "Max reconnection attempts reached"]
          :: (if onClose (cbs s)
              then [Call "onClose"
                      [JStr sid; JNum 1011;
                       JStr "Max reconnection attempts reached"]]
              else [])
  /\ (forall es, handle_all sid l es (_scheduleReconnect sid rnd c)
                 = _scheduleReconnect sid rnd c)
  /\ forall nowMs rnd' faults now st,
       (exists st',
          run (heartbeat_tick sid l nowMs rnd' (_scheduleReconnect sid rnd c))
            faults now st
          = (Returned (_scheduleReconnect sid rnd c), st'))
       /\ (exists st',
             run (endConversation sid nowMs (_scheduleReconnect sid rnd c))
               faults now st
             = (Returned (_scheduleReconnect sid rnd c), st'))
       /\ (exists st',
             run (_checkForTerminationRequests sid nowMs
                    (_scheduleReconnect sid rnd c))
               faults now st
             = (Returned (_scheduleReconnect sid rnd c), st')).
Proof.
  intros Hget Hclosing Hclosed Hmax.
  pose proof Hget as Hget0. apply get_Some in Hget0 as [Ha Ho].
  split; [reflexivity |].
  assert (Hc' : exists s',
             _scheduleReconnect sid rnd c
             = ClientState (pid c) (<[l := s']> (objects c))
                 (delete sid (activeSessions c))
                 (effects c
                  ++ Emit "permanently_closed"
                       [JStr sid; JStr MAX_ATTEMPTS_REASON]
                     :: (if onClose (cbs s)
                         then [Call "onClose"
                                 [JStr sid; JNum 1011; JStr MAX_ATTEMPTS_REASON]]
                         else []))
             /\ status s' = CLOSED /\ reconnectTimer s' = None
             /\ heartbeatTimer s' = false /\ pongTimeoutTimer s' = false
             /\ (forall w, ws s' = Some w -> Ws.listeners w = false)).
  { unfold _scheduleReconnect. rewrite Hget.
    unfold closing_or_closed.
    rewrite !bool_decide_eq_false_2 by assumption. cbn.
    unfold max_attempts_reached. cbn.
    destruct (Z.leb_spec 10 (reconnectAttempts s)); [| lia].
    unfold _cleanupSession, _clearTimers, _clearReconnectTimer,
      _clearPongTimeoutTimer, _clearHeartbeatIntervalTimer, update_active,
      get, update, emit, call.
    exists (set_ws (Ws.removeAllListeners <$> ws s)
              (set_reconnectTimer None
                 (set_pongTimeoutTimer false
                    (set_heartbeatTimer false (set_status CLOSED s))))).
    split.
    - destruct (onClose (cbs s)); cbn;
        repeat (rewrite ?Ha, ?lookup_alter_eq, ?Ho; cbn);
        f_equal; try (now rewrite <- app_assoc);
        apply map_eq; intros i; destruct (decide (i = l)) as [-> | Hne];
        rewrite ?lookup_insert_eq, ?lookup_alter_eq, ?Ho;
        rewrite ?lookup_insert_ne, ?lookup_alter_ne by congruence;
        reflexivity.
    - cbn. repeat split.
      intros w. destruct (ws s) as [w0 |]; cbn; [| discriminate].
      now intros [= <-]. }
  destruct Hc' as (s' & -> & Hstat & Hrt & Hhb & Hpt & Hdeaf).
  cbn [objects activeSessions effects].
  split.
  { exists s'. rewrite lookup_insert_eq. auto. }
  split; [apply lookup_delete_eq |].
  split.
  { unfold getSessionStatus, get. cbn. now rewrite lookup_delete_eq. }
  split; [reflexivity |].
  match goal with
  | |- (forall es, handle_all _ _ es ?c' = _) /\ _ =>
      assert (Hret : retired sid l c')
  end.
  { split; [apply lookup_delete_eq |].
    split.
    - unfold listening. cbn. rewrite lookup_insert_eq. cbn.
      destruct (ws s') as [w |] eqn:Hw; [| reflexivity]. now apply Hdeaf.
    - intros s0 Hs0. cbn in Hs0. rewrite lookup_insert_eq in Hs0.
      injection Hs0 as <-. auto. }
  split.
  - intros es. now apply handle_all_retired.
  - intros nowMs rnd' faults now st. apply async_retired; [exact Hret |].
    intros s0 Hs0. cbn in Hs0. rewrite lookup_insert_eq in Hs0.
    now injection Hs0 as <-.
Qed.

(** *** A session right after [startConversation] *)

Example startConversation_registers :
  exists st,
    Redis.run (ClientAsync.startConversation "agent"
                 (Callbacks true false true true) "s1" false 0%Q
                 (new_client 9))
      [] 0 Redis.empty
    = (Redis.Returned just_started, st).
Proof. eexists. vm_compute. reflexivity. Qed.

End ReconnectFacts.

(* --------------------------------------------------------------------- *)
(** ** Caller audio towards the AI provider                               *)
(* --------------------------------------------------------------------- *)

Module SendFacts.
Import Js Client MediaStream ClientFacts.
Import Notions Scenarios.

Lemma with_elevenlabs_same (s : server) : with_elevenlabs (elevenlabs s) s = s.
Proof. destruct s. reflexivity. Qed.

Lemma sendMessage_not_open c sid m :
  ~ (exists l s, get c sid = Some (l, s)
                 /\ status s = OPEN /\ socket_open s = true) ->
  sendMessage sid m c = (false, c).
Proof.
  intros Hnot. unfold sendMessage.
  destruct (get c sid) as [[l s] |] eqn:Hget; [| reflexivity].
  destruct (bool_decide_reflect (status s = OPEN)) as [Hs | Hs]; cbn;
    [| reflexivity].
  destruct (socket_open s) eqn:Hso; cbn; [| reflexivity].
  exfalso. apply Hnot. eauto.
Qed.

(** When the session is open on an open socket, the message is handed to
    the socket. *)
Lemma sendMessage_open c sid m l s w :
  get c sid = Some (l, s) -> status s = OPEN ->
  ws s = Some w -> Ws.state w = Ws.OPEN -> m <> JNull ->
  sendMessage sid m c
  = (true,
     update l (set_ws (Some (Ws.Socket Ws.OPEN (Ws.sent w ++ [m]) (Ws.pings w)
                               (Ws.close_calls w) (Ws.terminated w)
                               (Ws.listeners w)))) c).
Proof.
  intros Hget Hs Hws Hopen Hm. unfold sendMessage, socket_open.
  rewrite Hget, Hws. rewrite !bool_decide_eq_true_2 by assumption. cbn.
  unfold Ws.send. rewrite Hopen. destruct m; congruence.
Qed.

Lemma media_event_not_start data :
  is_string "media" (Js.get "event" data) = true ->
  is_string "start" (Js.get "event" data) = false.
Proof.
  destruct (Js.get "event" data) as [[| | | t |] |]; cbn; try discriminate.
  intros Ht. apply String.eqb_eq in Ht. subst t. reflexivity.
Qed.

(** Claim C10: unless the session is [OPEN] on an open socket,
    [sendMessage] answers [false] and changes nothing, and so
    [sendAudioChunk] changes nothing either; the media-stream handler lets
    caller audio through for a session that is [CONNECTING] or
    [RECONNECTING], and that audio is neither sent nor kept: the handler
    leaves the whole server state as it was. *)
Theorem audio_dropped_unless_open (c : client) (sid : string) :
  ~ (exists l s, get c sid = Some (l, s)
                 /\ status s = OPEN /\ socket_open s = true) ->
  (forall m, sendMessage sid m c = (false, c))
  /\ (forall audio, sendAudioChunk sid audio c = c)
  /\ (forall l s, get c sid = Some (l, s) ->
        status s = CONNECTING \/ status s = RECONNECTING ->
        isSessionActiveOrOpening sid c = true)
  /\ (forall (srv : server) (k : nat) (conn : connection)
             (data payload : json) (nowMs : Z),
        elevenlabs srv = c ->
        clients srv !! k = Some conn -> sessionId conn = sid ->
        is_string "media" (Js.get "event" data) = true ->
        Js.get "media" data ≫= Js.get "payload" = Some payload ->
        on_message k data nowMs srv = srv).
Proof.
  intros Hnot.
  assert (Hsend : forall m, sendMessage sid m c = (false, c))
    by (intros m; now apply sendMessage_not_open).
  split; [exact Hsend |].
  split; [intros audio; unfold sendAudioChunk; now rewrite Hsend |].
  split.
  { intros l s Hget Hst. unfold isSessionActiveOrOpening. rewrite Hget.
    apply bool_decide_eq_true_2.
    destruct Hst as [-> | ->]; set_solver. }
  intros srv k conn data payload nowMs Hc Hk Hsid Hev Hpay.
  unfold on_message. rewrite Hk, (media_event_not_start data Hev), Hev.
  cbn [andb].
  destruct (Js.get "media" data) as [media |] eqn:Hmedia; [| discriminate].
  cbn in Hpay. destruct media; cbn in Hpay; try discriminate Hpay.
  cbn. rewrite Hpay.
  destruct (truthy payload); [| reflexivity].
  rewrite Hsid, Hc.
  destruct (isSessionActiveOrOpening sid c); [| reflexivity].
  unfold sendAudioChunk. rewrite Hsend. cbn. rewrite <- Hc.
  apply with_elevenlabs_same.
Qed.

Lemma audio_dropped_unless_open_witness :
  isSessionActiveOrOpening "s1" (elevenlabs connecting) = true
  /\ on_message 0
       (JObj [("event", JStr "media");
              ("media", JObj [("payload", JStr "fn5+")])]) 1000 connecting
     = connecting.
Proof.
  destruct (audio_dropped_unless_open (elevenlabs connecting) "s1")
    as (_ & _ & Hgate & Hdrop).
  - intros (l & s & Hget & Hst & _).
    vm_compute in Hget. injection Hget as <- <-. discriminate Hst.
  - split.
    + apply (Hgate 0%nat
               (Session (Some Ws.fresh) "agent" CONNECTING
                  (Callbacks true false true true) None false false 0 7));
        [reflexivity | left; reflexivity].
    + apply (Hdrop connecting 0%nat
               (Connection "s1" (Ws.Socket Ws.OPEN [] 0 [] false true)
                  (JObj [("callSid", JStr "CA1")]))
               _ (JStr "fn5+")); reflexivity.
Defined.

End SendFacts.

(* --------------------------------------------------------------------- *)
(** ** The close of the caller-facing socket                              *)
(* --------------------------------------------------------------------- *)

Module CloseFacts.
Import Js Redis Client MediaStream Stated.
Import Notions Scenarios.

(** Claim C2, as the specification states it, fails: after the caller's
    socket of [in_call] has closed (code 1000), the AI session is still
    open and its heartbeat armed, and the record still says
    [in-progress]. *)
Lemma close_leaves_ai_session_open :
  let after := media_stream_closed 0 1000 "" in_call in
  isSessionActive "s1" (elevenlabs (process after)) = true
  /\ (heartbeatTimer <$> objects (elevenlabs (process after)) !! 0%nat)
     = Some true
  /\ read 100 (outbound_session (shared after)) "s1"
     = Some (JObj [("callSid", JStr "CA1"); ("status", JStr "in-progress")])
  /\ ~ close_tears_down.
Proof.
  cbv zeta.
  split; [vm_compute; reflexivity |].
  split; [vm_compute; reflexivity |].
  split; [vm_compute; reflexivity |].
  intros Hclaim.
  destruct (Hclaim in_call 0%nat
              (Connection "s1" (Ws.Socket Ws.OPEN [] 0 [] false true)
                 (JObj [("callSid", JStr "CA1"); ("streamSid", JStr "MZ1")]))
              1000 "" 100
              (JObj [("callSid", JStr "CA1"); ("status", JStr "in-progress")]))
    as (Hactive & _).
  - reflexivity.
  - vm_compute. reflexivity.
  - vm_compute in Hactive. discriminate Hactive.
Qed.

Lemma not_elem_of_unsubscribe channel handler subs :
  (channel, handler) ∉ unsubscribe channel handler subs.
Proof.
  unfold unsubscribe. intros Hin.
  apply list_elem_of_filter in Hin as [Hne _]. apply Hne. auto.
Qed.

Lemma elem_of_unsubscribe_other channel handler subs x :
  x <> (channel, handler) ->
  x ∈ unsubscribe channel handler subs <-> x ∈ subs.
Proof.
  intros Hx. unfold unsubscribe. rewrite list_elem_of_filter.
  split; [intros [_ H]; exact H |].
  intros H. split; [| exact H].
  intros [H1 H2]. apply Hx. destruct x; cbn in *. congruence.
Qed.

(** Claim C2, amended: when the caller-facing socket closes, for any code
    and reason, the handler takes the [messageHandler] registered for the
    session off the relay channel and forgets it, and that is all: the
    ElevenLabs client of the process, the sockets, the audio buffers and
    the store are as before; with no registered handler the close changes
    nothing; a socket error changes nothing. *)
Theorem close_only_unsubscribes
    (sys : system) (k : nat) (conn : connection) (code : Z) (reason : string) :
  clients (process sys) !! k = Some conn ->
  let s := process sys in
  let s' := process (media_stream_closed k code reason sys) in
  let sid := sessionId conn in
  shared (media_stream_closed k code reason sys) = shared sys
  /\ elevenlabs s' = elevenlabs s
  /\ clients s' = clients s
  /\ serverAudioBuffers s' = serverAudioBuffers s
  /\ outbox s' = outbox s
  /\ activeSubscriptions s' !! sid = None
  /\ (forall sid', sid' <> sid ->
        activeSubscriptions s' !! sid' = activeSubscriptions s !! sid')
  /\ (forall h, activeSubscriptions s !! sid = Some h ->
        ((audioChannel sid, h) ∉ subscriptions s')
        /\ (forall x, x <> (audioChannel sid, h) ->
              x ∈ subscriptions s' <-> x ∈ subscriptions s))
  /\ (activeSubscriptions s !! sid = None -> s' = s)
  /\ media_stream_error k sys = sys.
Proof.
  intros Hk. cbv zeta. unfold media_stream_closed, media_stream_error.
  cbn [process shared]. unfold on_close, on_error. rewrite Hk.
  assert (Hsys : System (process sys) (shared sys) = sys) by now destruct sys.
  destruct (activeSubscriptions (process sys) !! sessionId conn)
    as [h |] eqn:Hsub; cbn.
  - split; [reflexivity |].
    split; [reflexivity |].
    split; [reflexivity |].
    split; [reflexivity |].
    split; [reflexivity |].
    split; [apply lookup_delete_eq |].
    split; [intros sid' Hne; now apply lookup_delete_ne |].
    split.
    { intros h' [= <-]. split.
      - apply not_elem_of_unsubscribe.
      - intros x Hx. now apply elem_of_unsubscribe_other. }
    split; [discriminate | exact Hsys].
  - split; [reflexivity |].
    split; [reflexivity |].
    split; [reflexivity |].
    split; [reflexivity |].
    split; [reflexivity |].
    split; [exact Hsub |].
    split; [reflexivity |].
    split; [discriminate |].
    split; [reflexivity | exact Hsys].
Qed.

Lemma close_only_unsubscribes_witness :
  elevenlabs (process (media_stream_closed 0 1006 "gone" in_call))
  = elevenlabs (process in_call)
  /\ subscriptions (process (media_stream_closed 0 1006 "gone" in_call)) = [].
Proof.
  destruct (close_only_unsubscribes in_call 0%nat
              (Connection "s1" (Ws.Socket Ws.OPEN [] 0 [] false true)
                 (JObj [("callSid", JStr "CA1"); ("streamSid", JStr "MZ1")]))
              1006 "gone")
    as (_ & Hsame & _).
  - reflexivity.
  - split; [exact Hsame | vm_compute; reflexivity].
Defined.

End CloseFacts.

(* --------------------------------------------------------------------- *)
(** ** The relay towards the caller                                       *)
(* --------------------------------------------------------------------- *)

Module RelayFacts.
Import Js Client Relay MediaStream Stated.
Import Notions Scenarios.

Lemma pushed_nil conn :
  Ws.state (socket conn) = Ws.OPEN -> pushed [] conn = conn.
Proof.
  destruct conn as [sid [st sent pings closes term lis] info]. cbn.
  intros ->. unfold pushed. cbn. now rewrite app_nil_r.
Qed.

Lemma pushed_pushed ms1 ms2 conn :
  pushed ms2 (pushed ms1 conn) = pushed (ms1 ++ ms2) conn.
Proof. unfold pushed. cbn. now rewrite app_assoc. Qed.

Lemma with_clients_same (s : server) : with_clients (clients s) s = s.
Proof. destruct s. reflexivity. Qed.

Lemma send_on_open k m s conn :
  clients s !! k = Some conn -> Ws.state (socket conn) = Ws.OPEN ->
  send_on k m s
  = Some (with_clients (<[k := pushed [m] conn]> (clients s)) s).
Proof.
  intros Hk Hopen. unfold send_on. rewrite Hk. cbn.
  unfold Ws.send. rewrite Hopen. reflexivity.
Qed.

(** An open socket takes the whole buffer, in the order of the buffer. *)
Lemma send_buffered_open k streamSid chunks : forall s conn,
  clients s !! k = Some conn -> Ws.state (socket conn) = Ws.OPEN ->
  send_buffered k streamSid chunks s
  = with_clients
      (<[k := pushed (map (fun chunk =>
                             twilioMediaMessage streamSid
                               (Js.get "audioBase64" chunk)) chunks) conn]>
         (clients s)) s.
Proof.
  induction chunks as [| chunk rest IH]; intros s conn Hk Hopen.
  - cbn. rewrite pushed_nil by exact Hopen.
    rewrite list_insert_id by exact Hk. now rewrite with_clients_same.
  - cbn [send_buffered map].
    rewrite (send_on_open k _ s conn Hk Hopen).
    assert (Hlt : (k < length (clients s))%nat)
      by (apply lookup_lt_is_Some; eauto).
    rewrite (IH _ (pushed [twilioMediaMessage streamSid
                             (Js.get "audioBase64" chunk)] conn)).
    + cbn [clients with_clients]. rewrite list_insert_insert_eq.
      rewrite pushed_pushed. reflexivity.
    + cbn [clients with_clients]. now apply list_lookup_insert_eq.
    + reflexivity.
Qed.

Lemma find_open_Some sid cs : forall j k,
  find_open sid j cs = Some k ->
  exists conn, cs !! (k - j)%nat = Some conn
               /\ (j <= k)%nat /\ Ws.state (socket conn) = Ws.OPEN.
Proof.
  induction cs as [| c rest IH]; intros j k Hfind; cbn in Hfind.
  - discriminate.
  - destruct (String.eqb (sessionId c) sid); cbn in Hfind.
    + destruct (bool_decide_reflect (Ws.state (socket c) = Ws.OPEN))
        as [Hopen | Hclosed].
      * injection Hfind as <-. exists c. rewrite Nat.sub_diag. auto.
      * destruct (IH _ _ Hfind) as (conn & Hl & Hle & Ho).
        exists conn. replace (k - j)%nat with (S (k - S j)) by lia.
        repeat split; [exact Hl | lia | exact Ho].
    + destruct (IH _ _ Hfind) as (conn & Hl & Hle & Ho).
      exists conn. replace (k - j)%nat with (S (k - S j)) by lia.
      repeat split; [exact Hl | lia | exact Ho].
Qed.

(** The test tone reaches the socket [k] or another socket of the
    session, or is published; the buffers are not touched. *)
Lemma testAudioPlayback_socket sid streamSid nowMs s k conn :
  clients s !! k = Some conn -> Ws.state (socket conn) = Ws.OPEN ->
  exists tone,
    (tone = [] \/ tone = [tone_message streamSid])
    /\ clients (testAudioPlayback sid streamSid nowMs s) !! k
       = Some (pushed tone conn)
    /\ serverAudioBuffers (testAudioPlayback sid streamSid nowMs s)
       = serverAudioBuffers s.
Proof.
  intros Hk Hopen. unfold testAudioPlayback.
  assert (Hlt : (k < length (clients s))%nat)
    by (apply lookup_lt_is_Some; eauto).
  destruct (find_open sid 0 (clients s)) as [k' |] eqn:Hfind.
  - destruct (find_open_Some _ _ _ _ Hfind) as (conn' & Hk' & _ & Hopen').
    rewrite Nat.sub_0_r in Hk'.
    rewrite (send_on_open k' _ s conn' Hk' Hopen'). cbn.
    destruct (decide (k' = k)) as [-> | Hne].
    + exists [tone_message streamSid]. split; [now right |].
      split; [| reflexivity].
      rewrite Hk in Hk'. injection Hk' as <-.
      now apply list_lookup_insert_eq.
    + exists []. split; [now left |]. split; [| reflexivity].
      rewrite list_lookup_insert_ne by exact Hne.
      now rewrite pushed_nil.
  - exists []. split; [now left |]. cbn. split; [| reflexivity].
    now rewrite pushed_nil.
Qed.

(** When the [start] event brings the stream handle,
    the buffered entries are handed to the socket, behind at most the test
    tone, one after the other in the order in which they were buffered,
    that is the order of their arrival, without any sorting; then the
    buffer of the session is deleted.  Each message carries the
    [audioBase64] of its entry and nothing else of it. *)
Theorem flush_keeps_arrival_order
    (s : server) (k : nat) (conn : connection) (data streamSid : json)
    (buffered : list json) (nowMs : Z) :
  clients s !! k = Some conn ->
  Ws.state (socket conn) = Ws.OPEN ->
  truthy (callInfo conn) = true ->
  is_string "start" (Js.get "event" data) = true ->
  Js.get "start" data ≫= Js.get "streamSid" = Some streamSid ->
  truthy streamSid = true ->
  serverAudioBuffers s !! sessionId conn = Some buffered ->
  exists conn' tone,
    clients (on_message k data nowMs s) !! k = Some conn'
    /\ (tone = [] \/ tone = [tone_message streamSid])
    /\ Ws.sent (socket conn')
       = Ws.sent (socket conn) ++ tone
         ++ map (fun chunk =>
                   twilioMediaMessage streamSid (Js.get "audioBase64" chunk))
              buffered
    /\ serverAudioBuffers (on_message k data nowMs s) !! sessionId conn = None.
Proof.
  intros Hk Hopen Hinfo Hev Hsid Htruthy Hbuf.
  assert (Hlt : (k < length (clients s))%nat)
    by (apply lookup_lt_is_Some; eauto).
  unfold on_message. rewrite Hk, Hev, Hsid.
  assert (Hstart : truthy_opt (Js.get "start" data) = true).
  { destruct (Js.get "start" data) as [st |]; [| discriminate Hsid].
    cbn in Hsid. destruct st; cbn in Hsid; try discriminate Hsid.
    reflexivity. }
  rewrite Hstart. cbn [andb truthy_opt]. rewrite Htruthy, Hinfo.
  set (conn1 := Connection (sessionId conn) (socket conn) _).
  set (s1 := with_clients (<[k := conn1]> (clients s)) s).
  assert (Hk1 : clients s1 !! k = Some conn1)
    by (cbn; now apply list_lookup_insert_eq).
  destruct (testAudioPlayback_socket (sessionId conn) streamSid nowMs s1 k
              conn1 Hk1 Hopen)
    as (tone & Htone & Hk2 & Hbuf2).
  rewrite Hbuf2. cbn [serverAudioBuffers s1 with_clients]. rewrite Hbuf.
  rewrite (send_buffered_open k streamSid buffered _ _ Hk2 eq_refl).
  cbn [clients with_buffers with_clients serverAudioBuffers].
  eexists _, tone. split.
  { apply list_lookup_insert_eq.
    apply lookup_lt_is_Some. eauto. }
  split; [exact Htone |].
  split.
  { cbn. now rewrite app_assoc. }
  apply lookup_delete_eq.
Qed.

(** *** Two chunks that arrive out of order before the stream handle *)

Example out_of_order_buffer :
  serverAudioBuffers out_of_order !! "s1" = Some [chunk_B; chunk_A]
  /\ sort_by_sequence [chunk_B; chunk_A] = [chunk_A; chunk_B].
Proof. split; vm_compute; reflexivity. Qed.

(** Claim C3 on the code: the envelopes carry sequence numbers "for
    ordered delivery", and the flush does not look at them.  Chunk 1 and
    then chunk 0 are buffered before the stream handle is known; the
    [start] event hands the socket chunk 1 and then chunk 0, as they
    were buffered, where the order of the sequence numbers is chunk 0
    and then chunk 1. *)
Theorem flush_does_not_sort :
  (Ws.sent <$> (socket <$> clients (on_message 0 start_MZ1 2000 out_of_order)
                             !! 0%nat))
  = Some [tone_message (JStr "MZ1");
          twilioMediaMessage (JStr "MZ1") (Some (JStr "QkJC"));
          twilioMediaMessage (JStr "MZ1") (Some (JStr "QUFB"))]
  /\ ~ flush_sorts_by_sequence.
Proof.
  split; [vm_compute; reflexivity |].
  intros Hclaim.
  destruct (Hclaim out_of_order 0%nat
              (Connection "s1" (Ws.Socket Ws.OPEN [] 0 [] false true)
                 (JObj [("callSid", JStr "CA1")]))
              start_MZ1 (JStr "MZ1") [chunk_B; chunk_A] 2000)
    as (conn' & tone & Hconn & Hlen & Hsent);
    try reflexivity.
  assert (Hsorted : sort_by_sequence [chunk_B; chunk_A] = [chunk_A; chunk_B])
    by (vm_compute; reflexivity).
  rewrite Hsorted in Hsent.
  assert (Hactual :
            clients (on_message 0 start_MZ1 2000 out_of_order) !! 0%nat
            = Some (Connection "s1"
                      (Ws.Socket Ws.OPEN
                         [tone_message (JStr "MZ1");
                          twilioMediaMessage (JStr "MZ1") (Some (JStr "QkJC"));
                          twilioMediaMessage (JStr "MZ1") (Some (JStr "QUFB"))]
                         0 [] false true)
                      (JObj [("callSid", JStr "CA1");
                             ("streamSid", JStr "MZ1")])))
    by (vm_compute; reflexivity).
  rewrite Hactual in Hconn. injection Hconn as <-.
  cbn [socket Ws.sent app map] in Hsent.
  destruct tone as [| t0 [| t1 tone]]; cbn in Hlen, Hsent.
  - discriminate Hsent.
  - injection Hsent as _ Hsecond _. discriminate Hsecond.
  - lia.
Qed.

Lemma flush_keeps_arrival_order_witness :
  exists conn' tone,
    clients (on_message 0 start_MZ1 2000 out_of_order) !! 0%nat = Some conn'
    /\ Ws.sent (socket conn')
       = tone ++ [twilioMediaMessage (JStr "MZ1") (Some (JStr "QkJC"));
                  twilioMediaMessage (JStr "MZ1") (Some (JStr "QUFB"))].
Proof.
  destruct (flush_keeps_arrival_order out_of_order 0%nat
              (Connection "s1" (Ws.Socket Ws.OPEN [] 0 [] false true)
                 (JObj [("callSid", JStr "CA1")]))
              start_MZ1 (JStr "MZ1") [chunk_B; chunk_A] 2000)
    as (conn' & tone & Hconn & _ & Hsent & _).
  - reflexivity.
  - reflexivity.
  - reflexivity.
  - reflexivity.
  - reflexivity.
  - reflexivity.
  - vm_compute. reflexivity.
  - exists conn', tone. split; [exact Hconn | exact Hsent].
Defined.

(** *** A chunk from the AI provider to the caller *)

Lemma envelope_fields audio nowMs processId n :
  Js.get "audioBase64" (envelope audio nowMs processId n) = Some audio
  /\ Js.get "sequenceNumber" (envelope audio nowMs processId n)
     = Some (JNum n).
Proof. split; reflexivity. Qed.

(** With the stream handle known and the socket open, the handler sends
    one message made of the [audioBase64] of what it received; nothing
    else of the received object reaches the socket. *)
Lemma messageHandler_delivers k data s conn streamSid audio :
  clients s !! k = Some conn ->
  Ws.state (socket conn) = Ws.OPEN ->
  streamSid_of conn = Some streamSid -> truthy streamSid = true ->
  Js.get "audioBase64" data = Some audio -> truthy audio = true ->
  messageHandler k data (audioChannel (sessionId conn)) s
  = with_clients
      (<[k := pushed [twilioMediaMessage streamSid (Some audio)] conn]>
         (clients s)) s.
Proof.
  intros Hk Hopen Hsid Hsidt Haudio Haudiot.
  unfold messageHandler. rewrite Hk, String.eqb_refl. cbn [negb].
  destruct data; cbn in Haudio; try discriminate Haudio.
  cbn [Js.get]. rewrite Haudio, Hsid. cbn [truthy_opt].
  rewrite Haudiot, Hsidt, bool_decide_eq_true_2 by exact Hopen.
  cbn [andb]. rewrite (send_on_open k _ s conn Hk Hopen). reflexivity.
Qed.

(** Claim C8, as the specification states it, fails: two envelopes with
    the same audio and the sequence numbers 0 and 1 are delivered as the
    same message, so nothing read off the delivered message is the
    sequence number. *)
Lemma delivered_message_drops_sequence_number :
  ~ relay_keeps_sequence_number.
Proof.
  intros [sequence_of Hkeeps].
  set (conn := Connection "s1" (Ws.Socket Ws.OPEN [] 0 [] false true)
                 (JObj [("callSid", JStr "CA1"); ("streamSid", JStr "MZ1")])).
  set (s := Server [conn] ∅ ∅ [] [] (new_client 7)).
  destruct (Hkeeps s 0%nat conn (JStr "MZ1") (JStr "QUFB") 1000 9 0)
    as (c0 & m0 & Hc0 & Hm0 & Hseq0); try reflexivity.
  destruct (Hkeeps s 0%nat conn (JStr "MZ1") (JStr "QUFB") 1000 9 1)
    as (c1 & m1 & Hc1 & Hm1 & Hseq1); try reflexivity.
  vm_compute in Hc0. injection Hc0 as <-.
  vm_compute in Hc1. injection Hc1 as <-.
  vm_compute in Hm0. injection Hm0 as <-.
  vm_compute in Hm1. injection Hm1 as <-.
  rewrite Hseq0 in Hseq1. discriminate Hseq1.
Qed.

(** Claim C8, amended: an audio message of the AI provider is published
    on the relay channel of its session as an envelope that carries the
    audio and the next sequence number; the process that holds the
    caller-facing socket, stream handle known and socket open, delivers
    it as [{ event: 'media', streamSid, media: { payload } }] whose
    payload is the published audio, unchanged; the delivered message has
    no other field: the sequence number stays behind. *)
Theorem relay_delivers_payload_only
    (p : publisher) (sid : string) (message audio : json)
    (found : session_lookup) (nowMs : Z)
    (s : server) (k : nat) (conn : connection) (streamSid : json) :
  audio_of message = Some audio -> truthy audio = true ->
  reaches_publish found = true ->
  clients s !! k = Some conn -> sessionId conn = sid ->
  Ws.state (socket conn) = Ws.OPEN ->
  streamSid_of conn = Some streamSid -> truthy streamSid = true ->
  let n := default 0 (sequenceCounters p !! sid) in
  let published_envelope := envelope audio nowMs (publisher_pid p) n in
  let delivered :=
    JObj [("event", JStr "media");
          ("streamSid", streamSid);
          ("media", JObj [("payload", audio)])] in
  published (handleAudioMessage sid message found nowMs true p)
  = published p ++ [(audioChannel sid, published_envelope)]
  /\ sequenceCounters (handleAudioMessage sid message found nowMs true p) !! sid
     = Some (n + 1)
  /\ Js.get "sequenceNumber" published_envelope = Some (JNum n)
  /\ messageHandler k published_envelope (audioChannel sid) s
     = with_clients (<[k := pushed [delivered] conn]> (clients s)) s
  /\ (Js.get "media" delivered ≫= Js.get "payload") = Some audio
  /\ Js.get "sequenceNumber" delivered = None
  /\ (Js.get "media" delivered ≫= Js.get "sequenceNumber") = None.
Proof.
  intros Haudio Htruthy Hfound Hk Hsid Hopen Hstream Hstreamt. cbv zeta.
  split.
  { unfold handleAudioMessage. rewrite Haudio, Htruthy, Hfound.
    destruct found; try discriminate Hfound; reflexivity. }
  split.
  { unfold handleAudioMessage. rewrite Haudio, Htruthy.
    destruct found; try discriminate Hfound; cbn; apply lookup_insert_eq. }
  split; [reflexivity |].
  split.
  { rewrite <- Hsid.
    apply (messageHandler_delivers k _ s conn streamSid audio);
      try assumption. reflexivity. }
  repeat split; reflexivity.
Qed.

Lemma relay_delivers_payload_only_witness :
  (Ws.sent <$> (socket <$>
     clients (messageHandler 0 (envelope (JStr "QUFB") 1000 9 0)
                (audioChannel "s1")
                (Server [Connection "s1"
                           (Ws.Socket Ws.OPEN [] 0 [] false true)
                           (JObj [("callSid", JStr "CA1");
                                  ("streamSid", JStr "MZ1")])]
                   ∅ ∅ [] [] (new_client 7))) !! 0%nat))
  = Some [JObj [("event", JStr "media");
                ("streamSid", JStr "MZ1");
                ("media", JObj [("payload", JStr "QUFB")])]].
Proof.
  destruct (relay_delivers_payload_only
              (Publisher 9 ∅ []) "s1"
              (JObj [("type", JStr "audio");
                     ("audio_event", JObj [("data", JStr "QUFB")])])
              (JStr "QUFB") Missing 1000
              (Server [Connection "s1"
                         (Ws.Socket Ws.OPEN [] 0 [] false true)
                         (JObj [("callSid", JStr "CA1");
                                ("streamSid", JStr "MZ1")])]
                 ∅ ∅ [] [] (new_client 7))
              0%nat
              (Connection "s1" (Ws.Socket Ws.OPEN [] 0 [] false true)
                 (JObj [("callSid", JStr "CA1"); ("streamSid", JStr "MZ1")]))
              (JStr "MZ1")
              eq_refl eq_refl eq_refl eq_refl eq_refl eq_refl eq_refl eq_refl)
    as (_ & _ & _ & Hdelivered & _).
  change (default 0 (sequenceCounters (Publisher 9 ∅ []) !! "s1")) with 0
    in Hdelivered.
  cbn [publisher_pid] in Hdelivered.
  rewrite Hdelivered. reflexivity.
Defined.

End RelayFacts.

Module RecordFacts.
Import Js Redis SessionManager.
Import Notions RegistryFacts.

Lemma read_insert_eq {V} now (m : gmap string (entry V)) sid v e :
  read now (<[sid := Entry v e]> m) sid = (if now <? e then Some v else None).
Proof. unfold read, live. rewrite lookup_insert_eq. reflexivity. Qed.

Lemma read_insert_ne {V} now (m : gmap string (entry V)) sid sid' x :
  sid' <> sid -> read now (<[sid := x]> m) sid' = read now m sid'.
Proof. intros Hne. unfold read. now rewrite lookup_insert_ne. Qed.

Lemma read_delete_eq {V} now (m : gmap string (entry V)) sid :
  read now (delete sid m) sid = None.
Proof. unfold read. now rewrite lookup_delete_eq. Qed.

Lemma read_delete_ne {V} now (m : gmap string (entry V)) sid sid' :
  sid' <> sid -> read now (delete sid m) sid' = read now m sid'.
Proof. intros Hne. unfold read. now rewrite lookup_delete_ne. Qed.

Lemma save_run sid data ttl now st :
  0 < ttl ->
  run (saveOutboundSession sid data ttl) [] now st
  = (Returned tt,
     Store (session_owner st)
       (<[sid := Entry data (now + ttl)]> (outbound_session st))).
Proof.
  intros Httl. unfold saveOutboundSession. unfold_prog. cbn.
  destruct (Z.leb_spec ttl 0); [lia | reflexivity].
Qed.

Lemma get_run sid now st :
  run (getOutboundSession sid) [] now st
  = (Returned (read now (outbound_session st) sid), st).
Proof. reflexivity. Qed.

(** A record saved for [ttlSeconds] is read back, as it was saved, at
    every instant before [now + ttlSeconds], and is gone from that instant
    on; the records of the other sessions and the leases are not touched. *)
Theorem saved_record_is_read_back_until_expiry
    (sid : string) (data : json) (ttl now : Z) (st : store) :
  0 < ttl ->
  exists st',
    run (saveOutboundSession sid data ttl) [] now st = (Returned tt, st')
    /\ (forall now', now' < now + ttl ->
          run (getOutboundSession sid) [] now' st' = (Returned (Some data), st'))
    /\ (forall now', now + ttl <= now' ->
          run (getOutboundSession sid) [] now' st' = (Returned None, st'))
    /\ (forall sid' now', sid' <> sid ->
          run (getOutboundSession sid') [] now' st'
          = (Returned (read now' (outbound_session st) sid'), st'))
    /\ session_owner st' = session_owner st.
Proof.
  intros Httl. eexists. split; [now apply save_run |].
  repeat apply conj.
  - intros now' Hlt. rewrite get_run. cbn [outbound_session].
    rewrite read_insert_eq.
    destruct (Z.ltb_spec now' (now + ttl)); [reflexivity | lia].
  - intros now' Hge. rewrite get_run. cbn [outbound_session].
    rewrite read_insert_eq.
    destruct (Z.ltb_spec now' (now + ttl)); [lia | reflexivity].
  - intros sid' now' Hne. rewrite get_run. cbn [outbound_session].
    now rewrite read_insert_ne.
  - reflexivity.
Qed.

Lemma saved_record_is_read_back_until_expiry_witness :
  exists st',
    run (saveOutboundSession "s1" (JObj [("status", JStr "initiated")]) 3600)
      [] 100 Redis.empty = (Returned tt, st')
    /\ run (getOutboundSession "s1") [] 3699 st'
       = (Returned (Some (JObj [("status", JStr "initiated")])), st')
    /\ run (getOutboundSession "s1") [] 3700 st' = (Returned None, st').
Proof.
  destruct (saved_record_is_read_back_until_expiry "s1"
              (JObj [("status", JStr "initiated")]) 3600 100 Redis.empty)
    as (st' & Hsave & Hlive & Hgone & _); [lia |].
  exists st'. split; [exact Hsave |]. split.
  - apply Hlive. lia.
  - apply Hgone. lia.
Defined.

(** The session manager swallows every failure of the store: when the
    [SET] fails (the connection drops, or the expiry is not positive),
    [saveOutboundSession] still returns normally and the record that was
    there stays; a failing [GET] reads as a missing record, and a failing
    [DEL] leaves the record in place. *)
Theorem store_failures_are_silent
    (sid : string) (data : json) (ttl now : Z) (st : store)
    (faults : list bool) :
  head faults = Some true \/ ttl <= 0 ->
  run (saveOutboundSession sid data ttl) faults now st = (Returned tt, st)
  /\ (head faults = Some true ->
        run (getOutboundSession sid) faults now st = (Returned None, st)
        /\ run (deleteOutboundSession sid) faults now st = (Returned tt, st)).
Proof.
  intros Hfail. split.
  - unfold saveOutboundSession. unfold_prog.
    destruct faults as [| [|] rest]; cbn; try reflexivity;
      (destruct Hfail as [Hf | Httl]; [discriminate Hf |]);
      destruct (Z.leb_spec ttl 0); (reflexivity || lia).
  - intros Hf. destruct faults as [| [|] rest]; try discriminate Hf.
    split; reflexivity.
Qed.

Lemma store_failures_are_silent_witness :
  run (saveOutboundSession "s1" (JObj [("status", JStr "completed")]) 86400)
    [true] 100 Scenarios.call_in_progress
  = (Returned tt, Scenarios.call_in_progress).
Proof.
  exact (proj1 (store_failures_are_silent "s1"
                  (JObj [("status", JStr "completed")]) 86400 100
                  Scenarios.call_in_progress [true] (or_introl eq_refl))).
Defined.

End RecordFacts.

Module LeaseFacts.
Import Js Redis SessionManager Interleaving.
Import Notions Scenarios RegistryFacts InterleavingFacts LeaseNotions Schedules.

(** *** [parseInt] reads back what [String] wrote *)

Lemma digit_pretty_N_char (d : N) :
  (d < 10)%N -> digit (pretty_N_char d) = Some (Z.of_N d).
Proof.
  intros Hd.
  assert (H : (d = 0 \/ d = 1 \/ d = 2 \/ d = 3 \/ d = 4 \/ d = 5 \/ d = 6
               \/ d = 7 \/ d = 8 \/ d = 9)%N) by lia.
  repeat (destruct H as [-> | H]; [reflexivity |]). now subst.
Qed.

Lemma digits_pretty_N_go (x : N) :
  (0 < x)%N ->
  forall s acc, exists m,
    digits (pretty_N_go x s) acc
    = digits s (Some (default 0 acc * m + Z.of_N x)).
Proof.
  induction (N.lt_wf_0 x) as [x _ IH]. intros Hpos s acc.
  rewrite pretty_N_go_step by exact Hpos.
  assert (Hd : (x `mod` 10 < 10)%N) by (apply N.mod_lt; discriminate).
  assert (Hx : Z.of_N x = 10 * Z.of_N (x `div` 10) + Z.of_N (x `mod` 10)).
  { rewrite (N.div_mod x 10) at 1 by discriminate. lia. }
  destruct (N.eq_0_gt_0_cases (x `div` 10)) as [H0 | Hq].
  - rewrite H0 in *. rewrite pretty_N_go_0. cbn [digits].
    rewrite (digit_pretty_N_char _ Hd). exists 10. f_equal. f_equal.
    clear -Hx. lia.
  - destruct (IH (x `div` 10)%N
                (N.div_lt x 10 Hpos eq_refl) Hq
                (String (pretty_N_char (x `mod` 10)) s) acc) as [m Hm].
    rewrite Hm. cbn [digits]. rewrite (digit_pretty_N_char _ Hd).
    exists (10 * m). f_equal. f_equal. cbn [from_option id].
    clear -Hx. lia.
Qed.

Lemma pretty_N_go_head (x : N) :
  (0 < x)%N ->
  forall s, exists d rest,
    (d < 10)%N /\ pretty_N_go x s = String (pretty_N_char d) rest.
Proof.
  induction (N.lt_wf_0 x) as [x _ IH]. intros Hpos s.
  rewrite pretty_N_go_step by exact Hpos.
  destruct (N.eq_0_gt_0_cases (x `div` 10)) as [H0 | Hq].
  - rewrite H0, pretty_N_go_0. eexists _, _. split; [| reflexivity].
    apply N.mod_lt. discriminate.
  - apply IH; [apply N.div_lt; [exact Hpos | reflexivity] | exact Hq].
Qed.

Lemma parseInt_digit_head (d : N) (rest : string) :
  (d < 10)%N ->
  parseInt (String (pretty_N_char d) rest)
  = digits (String (pretty_N_char d) rest) None.
Proof.
  intros Hd.
  assert (H : (d = 0 \/ d = 1 \/ d = 2 \/ d = 3 \/ d = 4 \/ d = 5 \/ d = 6
               \/ d = 7 \/ d = 8 \/ d = 9)%N) by lia.
  repeat (destruct H as [-> | H]; [reflexivity |]). now subst.
Qed.

Lemma digits_pretty_pos (p : positive) :
  digits (pretty_N_go (N.pos p) "") None = Some (Z.pos p).
Proof.
  destruct (digits_pretty_N_go (N.pos p) eq_refl "" None) as [m ->].
  cbn. reflexivity.
Qed.

(** [parseInt(String(n), 10)] is [n], for every integer [n]. *)
Lemma parseInt_String_of (n : Z) : parseInt (String_of n) = Some n.
Proof.
  unfold String_of, pretty, pretty_Z. destruct n as [| p | p].
  - reflexivity.
  - change (parseInt (pretty_N_go (N.pos p) "") = Some (Z.pos p)).
    destruct (pretty_N_go_head (N.pos p) eq_refl "") as (d & rest & Hd & Heq).
    pose proof (digits_pretty_pos p) as Hdig.
    rewrite Heq. rewrite Heq in Hdig.
    rewrite parseInt_digit_head by exact Hd. exact Hdig.
  - change (Z.opp <$> digits (pretty_N_go (N.pos p) "") None
            = Some (Z.neg p)).
    now rewrite digits_pretty_pos.
Qed.

Lemma owner_run sid now st :
  run (getSessionOwner sid) [] now st
  = (Returned (if falsy (read now (session_owner st) sid) then None
               else read now (session_owner st) sid ≫= parseInt), st).
Proof. reflexivity. Qed.

(** Once a process has acquired the lease, [getSessionOwner] answers its
    process id, as a number, for as long as the lease lasts, and [null]
    from the instant it runs out; a failing [GET] reads as no owner. *)
Theorem owner_is_read_back
    (sid : string) (pid ttl now : Z) (st : store) :
  0 < ttl ->
  read now (session_owner st) sid = None ->
  exists st',
    run (acquireSessionOwnership sid pid ttl) [] now st = (Returned true, st')
    /\ (forall now', now' < now + ttl ->
          run (getSessionOwner sid) [] now' st' = (Returned (Some pid), st'))
    /\ (forall now', now + ttl <= now' ->
          run (getSessionOwner sid) [] now' st' = (Returned None, st'))
    /\ (forall now' rest,
          run (getSessionOwner sid) (true :: rest) now' st'
          = (Returned None, st')).
Proof.
  intros Httl Hfree. eexists. split; [now apply acquire_free |].
  repeat apply conj.
  - intros now' Hlt. rewrite owner_run. cbn [session_owner].
    unfold read, live. rewrite lookup_insert_eq. cbn [value expiresAt].
    destruct (Z.ltb_spec now' (now + ttl)); [| lia].
    rewrite falsy_String_of. cbn. now rewrite parseInt_String_of.
  - intros now' Hge. rewrite owner_run. cbn [session_owner].
    unfold read, live. rewrite lookup_insert_eq. cbn [value expiresAt].
    destruct (Z.ltb_spec now' (now + ttl)); [lia | reflexivity].
  - reflexivity.
Qed.

Lemma owner_is_read_back_witness :
  exists st',
    run (acquireSessionOwnership "s1" 4242 30) [] 100 Redis.empty
    = (Returned true, st')
    /\ run (getSessionOwner "s1") [] 129 st' = (Returned (Some 4242), st')
    /\ run (getSessionOwner "s1") [] 130 st' = (Returned None, st').
Proof.
  destruct (owner_is_read_back "s1" 4242 30 100 Redis.empty)
    as (st' & Hacq & Hlive & Hgone & _); [lia | reflexivity |].
  exists st'. split; [exact Hacq |]. split.
  - apply Hlive. lia.
  - apply Hgone. lia.
Defined.

(** While a lease lasts, every acquire fails and leaves the store as it
    is, the holder's own second acquire included; from the instant the
    lease runs out, the first acquire of any process succeeds. *)
Theorem acquire_blocked_until_expiry
    (sid : string) (pid ttl now : Z) (st : store) :
  0 < ttl ->
  read now (session_owner st) sid = None ->
  exists st',
    run (acquireSessionOwnership sid pid ttl) [] now st = (Returned true, st')
    /\ (forall q ttl' now', 0 < ttl' -> now' < now + ttl ->
          run (acquireSessionOwnership sid q ttl') [] now' st'
          = (Returned false, st'))
    /\ (forall q ttl' now', 0 < ttl' -> now + ttl <= now' ->
          run (acquireSessionOwnership sid q ttl') [] now' st'
          = (Returned true,
             Store (<[sid := Entry (String_of q) (now' + ttl')]>
                      (session_owner st'))
                   (outbound_session st'))).
Proof.
  intros Httl Hfree. eexists. split; [now apply acquire_free |].
  split.
  - intros q ttl' now' Httl' Hlt.
    apply (acquire_taken _ _ _ _ _ (String_of pid)); [exact Httl' |].
    cbn [session_owner]. unfold read, live. rewrite lookup_insert_eq.
    cbn [value expiresAt].
    destruct (Z.ltb_spec now' (now + ttl)); [reflexivity | lia].
  - intros q ttl' now' Httl' Hge.
    apply acquire_free; [exact Httl' |].
    cbn [session_owner]. unfold read, live. rewrite lookup_insert_eq.
    cbn [value expiresAt].
    destruct (Z.ltb_spec now' (now + ttl)); [lia | reflexivity].
Qed.

Lemma acquire_blocked_until_expiry_witness :
  exists st',
    run (acquireSessionOwnership "s1" 101 30) [] 0 Redis.empty
    = (Returned true, st')
    /\ run (acquireSessionOwnership "s1" 101 30) [] 29 st'
       = (Returned false, st')
    /\ fst (run (acquireSessionOwnership "s1" 202 30) [] 30 st')
       = Returned true.
Proof.
  destruct (acquire_blocked_until_expiry "s1" 101 30 0 Redis.empty)
    as (st' & Hacq & Hblocked & Hfree); [lia | reflexivity |].
  exists st'. split; [exact Hacq |]. split.
  - apply Hblocked; lia.
  - rewrite (Hfree 202 30 30); [reflexivity | lia | lia].
Defined.

(** Releasing a lease one holds deletes it, and any process can then
    acquire it at once; a release by anybody else answers [false] and
    leaves the lease, whatever the connection does; and when the [DEL]
    of the holder fails, the release answers [false] and the lease stays
    until it runs out. *)
Theorem release_frees_the_lease
    (sid : string) (pid now e : Z) (st : store) :
  session_owner st !! sid = Some (Entry (String_of pid) e) ->
  now < e ->
  let st' := Store (delete sid (session_owner st)) (outbound_session st) in
  run (releaseSessionOwnership sid pid) [] now st = (Returned true, st')
  /\ (forall q ttl, 0 < ttl ->
        fst (run (acquireSessionOwnership sid q ttl) [] now st')
        = Returned true)
  /\ (forall other faults, other <> pid ->
        run (releaseSessionOwnership sid other) faults now st
        = (Returned false, st))
  /\ run (releaseSessionOwnership sid pid) [false; true] now st
     = (Returned false, st).
Proof.
  intros Hst Hlive st'.
  pose proof (read_live now _ _ _ _ Hst Hlive) as Hread.
  repeat apply conj.
  - unfold releaseSessionOwnership. unfold_prog. cbn.
    rewrite Hread, falsy_String_of.
    rewrite bool_decide_eq_true_2 by reflexivity. reflexivity.
  - intros q ttl Httl. rewrite acquire_free; [reflexivity | exact Httl |].
    unfold st', read. cbn [session_owner]. now rewrite lookup_delete_eq.
  - intros other faults Hne.
    unfold releaseSessionOwnership. unfold_prog.
    destruct faults as [| [|] rest]; cbn; try reflexivity;
      rewrite Hread, falsy_String_of;
      (rewrite bool_decide_eq_false_2;
       [reflexivity
       | intros [= Heq]; apply Hne; symmetry; now apply String_of_inj]).
  - unfold releaseSessionOwnership. unfold_prog. cbn.
    rewrite Hread, falsy_String_of.
    rewrite bool_decide_eq_true_2 by reflexivity. reflexivity.
Qed.

Lemma release_frees_the_lease_witness :
  run (releaseSessionOwnership "s1" 202) [] 35 held_by_202
  = (Returned true, Redis.empty)
  /\ run (releaseSessionOwnership "s1" 101) [] 35 held_by_202
     = (Returned false, held_by_202).
Proof.
  destruct (release_frees_the_lease "s1" 202 35 40 held_by_202)
    as (Hrel & _ & Hother & _); [reflexivity | lia |].
  split.
  - rewrite Hrel. reflexivity.
  - apply Hother. lia.
Defined.

(** *** Acquire alone, interleaved command by command *)

Lemma one_holder_of_recorded sid w :
  granted_is_recorded sid w -> at_most_one_holder w.
Proof.
  intros Hinv p q Hp Hq. unfold holds in Hp, Hq.
  destruct (last_answer p (history w)) as [cp |] eqn:Hlp; [| discriminate].
  destruct (last_answer q (history w)) as [cq |] eqn:Hlq; [| discriminate].
  apply andb_prop in Hp as [Hp Hnp]. apply andb_prop in Hp as [Hrp Hwp].
  apply andb_prop in Hq as [Hq Hnq]. apply andb_prop in Hq as [Hrq Hwq].
  apply Z.ltb_lt in Hnp, Hnq.
  assert (Hp' : what cp <> Release) by (destruct (what cp); congruence).
  assert (Hq' : what cq <> Release) by (destruct (what cq); congruence).
  pose proof (Hinv p cp Hlp Hrp Hp' Hnp) as Hrecp.
  pose proof (Hinv q cq Hlq Hrq Hq' Hnq) as Hrecq.
  rewrite Hrecp in Hrecq. injection Hrecq as Heq _.
  now apply String_of_inj.
Qed.

(** A call that answers [false] takes the lease from nobody. *)
Lemma refusal_keeps_recorded sid w p o t running' :
  granted_is_recorded sid w ->
  granted_is_recorded sid
    (World (now w) (db w) running'
       (Completion p o false (now w) t :: history w)).
Proof.
  intros Hinv q c Hlast Hres Hwhat Hnow. cbn [history now db] in *.
  rewrite last_answer_cons in Hlast. cbn [who] in Hlast.
  destruct (bool_decide_reflect (p = q)) as [-> | Hne].
  - injection Hlast as <-. discriminate Hres.
  - now apply Hinv.
Qed.

Lemma step_keeps_acquiring sid a w w' :
  acquire_only a = true ->
  granted_is_recorded sid w ->
  (forall p th, running w !! p = Some th -> acquiring sid p th) ->
  step sid a w = Some w' ->
  granted_is_recorded sid w'
  /\ (forall p th, running w' !! p = Some th -> acquiring sid p th).
Proof.
  intros Honly Hinv Hrun Hstep.
  destruct a as [d | p o t | p fault]; cbn in Hstep.
  - (* time passes *)
    destruct (Z.ltb_spec 0 d); [| discriminate Hstep].
    injection Hstep as <-. split; [| exact Hrun].
    intros q c Hlast Hres Hwhat Hnow. cbn in *.
    apply Hinv; try assumption. lia.
  - (* a call starts *)
    destruct o; try discriminate Honly.
    destruct (running w !! p) eqn:Hp; [discriminate Hstep |].
    injection Hstep as <-. split; [exact Hinv |].
    intros q th. cbn. intros Hq.
    destruct (decide (q = p)) as [-> | Hne].
    + rewrite lookup_insert_eq in Hq. injection Hq as <-. now left.
    + rewrite lookup_insert_ne in Hq by congruence. now apply Hrun.
  - (* one command of a call *)
    destruct (running w !! p) as [[o t cd] |] eqn:Hp; [| discriminate Hstep].
    pose proof (Hrun _ _ Hp) as [Hcd | (k & Hcd & Hk)]; cbn in Hcd; subst cd.
    + (* the [SET] *)
      unfold program, acquireSessionOwnership in Hstep.
      unfold_prog. cbn in Hstep.
      assert (Hrefused :
                granted_is_recorded sid
                  (World (now w) (db w) (delete p (running w))
                     (Completion p o false (now w) t :: history w))
                /\ (forall q th,
                      delete p (running w) !! q = Some th ->
                      acquiring sid q th)).
      { split; [now apply refusal_keeps_recorded |].
        intros q th Hq. apply lookup_delete_Some in Hq as [_ Hq].
        now apply Hrun. }
      destruct fault; [injection Hstep as <-; exact Hrefused |].
      destruct (t <=? 0); [injection Hstep as <-; exact Hrefused |].
      destruct (read (now w) (session_owner (db w)) sid) as [v |] eqn:Hread;
        cbn in Hstep; injection Hstep as <-.
      * (* somebody holds the lease *)
        split; [exact Hinv |].
        intros q th. cbn. intros Hq.
        destruct (decide (q = p)) as [-> | Hne].
        -- rewrite lookup_insert_eq in Hq. injection Hq as <-.
           right. eexists. split; reflexivity.
        -- rewrite lookup_insert_ne in Hq by congruence. now apply Hrun.
      * (* the lease is free *)
        split.
        -- intros q c Hlast Hres Hwhat Hnow. cbn [history now db] in *.
           rewrite last_answer_cons in Hlast. cbn [who] in Hlast.
           destruct (bool_decide_reflect (p = q)) as [-> | Hne].
           ++ injection Hlast as <-. cbn. apply lookup_insert_eq.
           ++ pose proof (Hinv q c Hlast Hres Hwhat Hnow) as Hrec.
              rewrite (read_live _ _ _ _ _ Hrec Hnow) in Hread.
              discriminate Hread.
        -- intros q th Hq. cbn in Hq.
           apply lookup_delete_Some in Hq as [_ Hq]. now apply Hrun.
    + (* the [GET] for the log line *)
      cbn in Hstep.
      assert (Hsettled :
                step sid (Step p fault) w
                = Some (World (now w) (db w) (delete p (running w))
                          (Completion p o false (now w) t :: history w))).
      { cbn. rewrite Hp. cbn. destruct fault; [reflexivity |].
        cbn. rewrite Hk. reflexivity. }
      cbn in Hsettled. rewrite Hp in Hsettled. cbn in Hsettled.
      rewrite Hsettled in Hstep. injection Hstep as <-.
      split; [now apply refusal_keeps_recorded |].
      intros q th Hq. cbn [running] in Hq.
      apply lookup_delete_Some in Hq as [_ Hq]. now apply Hrun.
Qed.

Lemma steps_keep_acquiring sid sched : forall w w',
  forallb acquire_only sched = true ->
  granted_is_recorded sid w ->
  (forall p th, running w !! p = Some th -> acquiring sid p th) ->
  steps sid sched w = Some w' ->
  granted_is_recorded sid w'.
Proof.
  induction sched as [| a rest IH]; intros w w' Honly Hinv Hrun Hsteps;
    cbn in *.
  - now injection Hsteps as <-.
  - apply andb_prop in Honly as [Ha Hrest].
    destruct (step sid a w) as [w1 |] eqn:Hstep; [| discriminate Hsteps].
    destruct (step_keeps_acquiring sid a w w1 Ha Hinv Hrun Hstep)
      as [Hinv1 Hrun1].
    now apply (IH w1 w').
Qed.

(** With acquire as the only operation, the lease stays exclusive under
    every interleaving of the commands of any number of processes, with
    any passing of time and any failing command: [SET ... NX] is one
    step.  Renew and release are left out: they read the owner and write
    in two steps. *)
Theorem acquire_alone_is_exclusive
    (sid : string) (sched : list action) (w : world) :
  forallb acquire_only sched = true ->
  steps sid sched init = Some w ->
  at_most_one_holder w.
Proof.
  intros Honly Hsteps. apply (one_holder_of_recorded sid).
  apply (steps_keep_acquiring sid sched init w Honly); [| | exact Hsteps].
  - intros p c Hlast. discriminate Hlast.
  - intros p th Hp. cbn in Hp. rewrite lookup_empty in Hp. discriminate Hp.
Qed.

Lemma acquire_alone_is_exclusive_witness :
  exists w,
    steps "s1" acquire_race init = Some w
    /\ at_most_one_holder w
    /\ holds w 202 = true /\ holds w 101 = false.
Proof.
  destruct (steps "s1" acquire_race init) as [w |] eqn:Hrun;
    [| vm_compute in Hrun; discriminate Hrun].
  exists w. split; [reflexivity |]. split.
  - exact (acquire_alone_is_exclusive "s1" acquire_race w eq_refl Hrun).
  - vm_compute in Hrun. injection Hrun as <-. vm_compute. auto.
Defined.

End LeaseFacts.

Module LifecycleFacts.
Import Js Redis SessionManager Backoff Client ClientAsync ClientEvents.
Import ClientFacts RegistryFacts ReconnectFacts Notions Scenarios ClientViews.

(** *** Rewriting with a client in placed form *)

Lemma placed_id c l s :
  objects c !! l = Some s ->
  c = placed (pid c) (objects c) (activeSessions c) l s (effects c).
Proof.
  intros Ho. unfold placed. rewrite insert_id by exact Ho. now destruct c.
Qed.

Section Placed.
Context (p : Z) (o : gmap nat session) (a : gmap string nat)
        (sid : string) (l : nat).
Hypothesis Ha : a !! sid = Some l.

Lemma get_placed s e : get (placed p o a l s e) sid = Some (l, s).
Proof. unfold get, placed. cbn. rewrite Ha. cbn. now rewrite lookup_insert_eq. Qed.

Lemma update_placed f s e :
  update l f (placed p o a l s e) = placed p o a l (f s) e.
Proof.
  unfold update, placed. cbn. f_equal.
  apply map_eq. intros i. destruct (decide (i = l)) as [-> | Hne].
  - now rewrite lookup_alter_eq, !lookup_insert_eq.
  - now rewrite lookup_alter_ne, !lookup_insert_ne by congruence.
Qed.

Lemma update_active_placed f s e :
  update_active sid f (placed p o a l s e) = placed p o a l (f s) e.
Proof. unfold update_active. rewrite get_placed. apply update_placed. Qed.

Lemma emit_placed ev args s e :
  emit ev args (placed p o a l s e) = placed p o a l s (e ++ [Emit ev args]).
Proof. reflexivity. Qed.

Lemma call_placed cb args s e :
  call cb args (placed p o a l s e) = placed p o a l s (e ++ [Call cb args]).
Proof. reflexivity. Qed.

Lemma objects_placed s e : objects (placed p o a l s e) !! l = Some s.
Proof. unfold placed. cbn. apply lookup_insert_eq. Qed.

Lemma listening_placed s e :
  listening (placed p o a l s e) l
  = match ws s with Some w => Ws.listeners w | None => false end.
Proof. unfold listening. rewrite objects_placed. reflexivity. Qed.

Lemma clearTimers_placed s e :
  _clearTimers sid (placed p o a l s e)
  = placed p o a l
      (set_pongTimeoutTimer false (set_heartbeatTimer false s)) e.
Proof.
  unfold _clearTimers, _clearPongTimeoutTimer, _clearHeartbeatIntervalTimer.
  now rewrite !update_active_placed.
Qed.

Lemma clearReconnectTimer_placed s e :
  _clearReconnectTimer sid (placed p o a l s e)
  = placed p o a l (set_reconnectTimer None s) e.
Proof. unfold _clearReconnectTimer. apply update_active_placed. Qed.

(** [_cleanupSession] in placed form. *)
Lemma cleanup_placed s e :
  _cleanupSession sid (placed p o a l s e)
  = ClientState p
      (<[l := set_ws (Ws.removeAllListeners <$> ws s)
                (set_reconnectTimer None
                   (set_pongTimeoutTimer false (set_heartbeatTimer false s)))]>
         o)
      (delete sid a) e.
Proof.
  unfold _cleanupSession. rewrite get_placed.
  rewrite clearTimers_placed, clearReconnectTimer_placed, update_placed.
  reflexivity.
Qed.

(** [_scheduleReconnect] below the maximum, in placed form. *)
Lemma schedule_placed s e rnd :
  closing_or_closed (status s) = false ->
  reconnectAttempts s < 10 ->
  _scheduleReconnect sid rnd (placed p o a l s e)
  = placed p o a l
      (set_reconnectTimer
         (Some (delay (reconnectAttempts s + 1) rnd))
         (set_status RECONNECTING
            (set_reconnectAttempts (reconnectAttempts s + 1) s)))
      (e ++ reconnecting_effects sid (cbs s) (reconnectAttempts s + 1)
              (delay (reconnectAttempts s + 1) rnd)).
Proof.
  intros Hopen Hlt. unfold _scheduleReconnect. rewrite get_placed, Hopen.
  unfold max_attempts_reached. cbn [RECONNECT_MAX_ATTEMPTS].
  destruct (Z.leb_spec 10 (reconnectAttempts s)); [lia |].
  cbv zeta. rewrite update_placed, emit_placed.
  unfold reconnecting_effects.
  destruct (onReconnecting (cbs s)).
  - rewrite call_placed, clearReconnectTimer_placed, update_placed.
    unfold placed; f_equal;
      first [reflexivity | destruct s; reflexivity | now rewrite <- app_assoc].
  - rewrite clearReconnectTimer_placed, update_placed.
    unfold placed; f_equal;
      first [reflexivity | destruct s; reflexivity].
Qed.

(** [_handleDisconnect] after an unclean end, in placed form. *)
Lemma disconnect_unclean_placed s e rnd :
  closing_or_closed (status s) = false ->
  reconnectAttempts s < 10 ->
  _handleDisconnect sid false rnd (placed p o a l s e)
  = placed p o a l
      (set_reconnectTimer
         (Some (delay (reconnectAttempts s + 1) rnd))
         (set_status RECONNECTING
            (set_reconnectAttempts (reconnectAttempts s + 1)
               (set_pongTimeoutTimer false (set_heartbeatTimer false s)))))
      (e ++ reconnecting_effects sid (cbs s) (reconnectAttempts s + 1)
              (delay (reconnectAttempts s + 1) rnd)).
Proof.
  intros Hopen Hlt. unfold _handleDisconnect. rewrite get_placed, Hopen.
  unfold _stopHeartbeat. rewrite clearTimers_placed.
  assert (Hc : status s <> CLOSING).
  { intros Heq. rewrite Heq in Hopen. discriminate Hopen. }
  rewrite bool_decide_eq_false_2 by exact Hc. cbn [orb].
  rewrite schedule_placed; [reflexivity | exact Hopen | exact Hlt].
Qed.

(** [_handleDisconnect] after a clean end, in placed form. *)
Lemma disconnect_clean_placed s e rnd :
  closing_or_closed (status s) = false ->
  _handleDisconnect sid true rnd (placed p o a l s e)
  = ClientState p
      (<[l := set_ws (Ws.removeAllListeners <$> ws s)
                (set_reconnectTimer None
                   (set_pongTimeoutTimer false
                      (set_heartbeatTimer false (set_status CLOSED s))))]>
         o)
      (delete sid a)
      (e ++ Emit "close" [JStr sid; JNum 1000; JStr "Clean closure"]
         :: (if onClose (cbs s)
             then [Call "onClose"
                     [JStr sid; JNum 1000; JStr "Clean closure"]]
             else [])).
Proof.
  intros Hopen. unfold _handleDisconnect. rewrite get_placed, Hopen.
  unfold _stopHeartbeat. rewrite clearTimers_placed. cbn [orb].
  cbv zeta. rewrite update_placed, emit_placed.
  destruct (onClose (cbs s)).
  - rewrite call_placed, cleanup_placed; f_equal;
      first [reflexivity | destruct s; reflexivity | now rewrite <- app_assoc].
  - rewrite cleanup_placed; f_equal;
      first [reflexivity | destruct s; reflexivity].
Qed.


Lemma sendMessage_placed s e w m :
  status s = OPEN -> ws s = Some w -> Ws.state w = Ws.OPEN -> m <> JNull ->
  sendMessage sid m (placed p o a l s e)
  = (true,
     placed p o a l
       (set_ws (Some (Ws.Socket Ws.OPEN (Ws.sent w ++ [m]) (Ws.pings w)
                        (Ws.close_calls w) (Ws.terminated w)
                        (Ws.listeners w))) s) e).
Proof.
  intros Hst Hws Hw Hm. unfold sendMessage. rewrite get_placed, Hst.
  unfold socket_open. rewrite Hws, Hw.
  rewrite !bool_decide_eq_true_2 by reflexivity. cbn [negb orb].
  cbn [mbind option_bind]. unfold Ws.send. rewrite Hw, update_placed.
  destruct m; try reflexivity. now destruct Hm.
Qed.

Lemma resetHeartbeat_placed s e :
  status s = OPEN ->
  _resetHeartbeatTimers sid (placed p o a l s e)
  = placed p o a l (set_pongTimeoutTimer false s) e.
Proof.
  intros Hopen. unfold _resetHeartbeatTimers. rewrite get_placed, Hopen.
  rewrite bool_decide_eq_true_2 by reflexivity.
  unfold _clearPongTimeoutTimer. apply update_active_placed.
Qed.

(** The socket handlers, in placed form. *)

Lemma error_placed s e w rnd :
  ws s = Some w -> Ws.listeners w = true ->
  reconnectAttempts s < 10 ->
  handle sid l rnd WsError (placed p o a l s e)
  = placed p o a l
      (set_reconnectTimer
         (Some (delay (reconnectAttempts s + 1) rnd))
         (set_status RECONNECTING
            (set_reconnectAttempts (reconnectAttempts s + 1)
               (set_pongTimeoutTimer false
                  (set_heartbeatTimer false (set_status ERROR s))))))
      (e ++ (if onError (cbs s) then [Call "onError" [JStr sid]] else [])
         ++ [Emit "error" [JStr sid]]
         ++ reconnecting_effects sid (cbs s) (reconnectAttempts s + 1)
              (delay (reconnectAttempts s + 1) rnd)).
Proof.
  intros Hws Hlis Hn. cbn [handle].
  rewrite listening_placed, Hws, Hlis, objects_placed, update_placed.
  destruct (onError (cbs s)) eqn:HonError.
  - rewrite call_placed, emit_placed.
    rewrite disconnect_unclean_placed by (cbn; first [reflexivity | lia]).
    cbn [cbs set_status reconnectAttempts]. now rewrite <- !app_assoc.
  - rewrite emit_placed.
    rewrite disconnect_unclean_placed by (cbn; first [reflexivity | lia]).
    cbn [cbs set_status reconnectAttempts]. now rewrite <- !app_assoc.
Qed.

Lemma close_unclean_placed s e w rnd code :
  ws s = Some w -> Ws.listeners w = true ->
  reconnectAttempts s < 10 ->
  code <> 1000 -> code <> 1005 ->
  handle sid l rnd (WsClose code) (placed p o a l s e)
  = placed p o a l
      (set_reconnectTimer
         (Some (delay (reconnectAttempts s + 1) rnd))
         (set_status RECONNECTING
            (set_reconnectAttempts (reconnectAttempts s + 1)
               (set_pongTimeoutTimer false
                  (set_heartbeatTimer false
                     (set_status CLOSED_TEMP
                        (set_ws (Some (shut w)) s)))))))
      (e ++ reconnecting_effects sid (cbs s) (reconnectAttempts s + 1)
              (delay (reconnectAttempts s + 1) rnd)).
Proof.
  intros Hws Hlis Hn H1000 H1005. cbn [handle].
  rewrite listening_placed, Hws, Hlis, !update_placed.
  rewrite !bool_decide_eq_false_2 by assumption. cbn [orb].
  rewrite disconnect_unclean_placed by (cbn; first [reflexivity | lia]).
  rewrite Hws. reflexivity.
Qed.

Lemma close_clean_placed s e w rnd code :
  ws s = Some w -> Ws.listeners w = true ->
  code = 1000 \/ code = 1005 ->
  handle sid l rnd (WsClose code) (placed p o a l s e)
  = ClientState p
      (<[l := set_ws (Some (Ws.removeAllListeners (shut w)))
                (set_reconnectTimer None
                   (set_pongTimeoutTimer false
                      (set_heartbeatTimer false (set_status CLOSED s))))]>
         o)
      (delete sid a)
      (e ++ Emit "close" [JStr sid; JNum 1000; JStr "Clean closure"]
         :: (if onClose (cbs s)
             then [Call "onClose"
                     [JStr sid; JNum 1000; JStr "Clean closure"]]
             else [])).
Proof.
  intros Hws Hlis Hcode. cbn [handle].
  rewrite listening_placed, Hws, Hlis, !update_placed.
  replace (bool_decide (code = 1000) || bool_decide (code = 1005)) with true.
  2:{ destruct Hcode as [-> | ->]; reflexivity. }
  rewrite disconnect_clean_placed by reflexivity.
  rewrite Hws. cbn [cbs set_status set_ws]. f_equal.
Qed.


Lemma connect_placed s e rnd :
  closing_or_closed (status s) = false ->
  _connect sid false rnd (placed p o a l s e)
  = placed p o a l
      (set_ws (Some Ws.fresh)
         (set_pongTimeoutTimer false
            (set_heartbeatTimer false (set_status CONNECTING s)))) e.
Proof.
  intros Hopen. unfold _connect. rewrite get_placed, Hopen. cbv zeta.
  now rewrite update_placed, clearTimers_placed, update_placed.
Qed.

Lemma reconnect_timer_placed s e rnd d :
  reconnectTimer s = Some d -> status s = RECONNECTING ->
  handle sid l rnd (ReconnectTimer false) (placed p o a l s e)
  = placed p o a l
      (set_ws (Some Ws.fresh)
         (set_pongTimeoutTimer false
            (set_heartbeatTimer false (set_status CONNECTING s)))) e.
Proof.
  intros Hrt Hst. cbn [handle]. rewrite objects_placed, Hrt, Hst.
  rewrite bool_decide_eq_true_2 by reflexivity.
  apply connect_placed. now rewrite Hst.
Qed.

Lemma ping_placed s e w rnd message pe :
  ws s = Some w -> Ws.listeners w = true ->
  status s = OPEN -> Ws.state w = Ws.OPEN ->
  Js.get "type" message = Some (JStr "ping") ->
  Js.get "ping_event" message = Some pe -> pe <> JNull ->
  handle sid l rnd (WsMessage message) (placed p o a l s e)
  = placed p o a l
      (set_ws
         (Some (handed
                  (JObj (("type", JStr "pong")
                         :: match Js.get "event_id" pe with
                            | Some v => [("event_id", v)]
                            | None => []
                            end))
                  w))
         (set_pongTimeoutTimer false s)) e.
Proof.
  intros Hws Hlis Hst Hw Htype Hpe Hnull. cbn [handle].
  rewrite listening_placed, Hws, Hlis.
  rewrite resetHeartbeat_placed by exact Hst.
  rewrite Htype. cbn [is_string]. cbn [String.eqb Ascii.eqb Bool.eqb].
  rewrite Hpe.
  erewrite sendMessage_placed;
    [| exact Hst | exact Hws | exact Hw | discriminate].
  destruct pe; try reflexivity. now destruct Hnull.
Qed.

Lemma update_other_placed l0 f s e :
  l0 <> l ->
  update l0 f (placed p o a l s e) = placed p (alter f l0 o) a l s e.
Proof.
  intros Hne. unfold update, placed. cbn. f_equal.
  apply map_eq. intros i. destruct (decide (i = l)) as [-> | Hi].
  - now rewrite lookup_alter_ne, !lookup_insert_eq by congruence.
  - rewrite lookup_insert_ne by congruence.
    destruct (decide (i = l0)) as [-> | Hi0].
    + now rewrite !lookup_alter_eq, lookup_insert_ne by congruence.
    + now rewrite !lookup_alter_ne, lookup_insert_ne by congruence.
Qed.

Lemma objects_other_placed l0 s e :
  l0 <> l -> objects (placed p o a l s e) !! l0 = o !! l0.
Proof. intros Hne. unfold placed. cbn. now rewrite lookup_insert_ne by congruence. Qed.

End Placed.

(** A connection failure that the socket reports as [error] and then as
    [close] with an abnormal code is counted twice: each of the two
    handlers schedules a reconnection, so the attempt counter goes up by
    two, the first timer is replaced by the second, and [reconnecting]
    is announced twice. *)
Theorem failure_is_counted_twice
    (c : client) (sid : string) (l : nat) (s : session) (w : Ws.socket)
    (rnd1 rnd2 : Q) (code : Z) :
  get c sid = Some (l, s) ->
  ws s = Some w -> Ws.listeners w = true ->
  reconnectAttempts s < 9 ->
  code <> 1000 -> code <> 1005 ->
  let n := reconnectAttempts s in
  let c' := handle sid l rnd2 (WsClose code) (handle sid l rnd1 WsError c) in
  exists s',
    get c' sid = Some (l, s')
    /\ status s' = RECONNECTING
    /\ reconnectAttempts s' = n + 2
    /\ reconnectTimer s' = Some (delay (n + 2) rnd2)
    /\ effects c'
       = effects c
         ++ (if onError (cbs s) then [Call "onError" [JStr sid]] else [])
         ++ [Emit "error" [JStr sid]]
         ++ reconnecting_effects sid (cbs s) (n + 1) (delay (n + 1) rnd1)
         ++ reconnecting_effects sid (cbs s) (n + 2) (delay (n + 2) rnd2).
Proof.
  intros Hget Hws Hlis Hn H1000 H1005 n c'.
  apply get_Some in Hget as [Ha Ho].
  subst c'. rewrite (placed_id c l s Ho).
  rewrite (error_placed _ _ _ _ _ Ha _ _ w) by (assumption || lia).
  rewrite (close_unclean_placed _ _ _ _ _ Ha _ _ w)
    by (assumption || (cbn; lia)).
  eexists. split; [apply (get_placed _ _ _ _ _ Ha) |].
  cbn -[delay reconnecting_effects Z.add]. subst n.
  replace (reconnectAttempts s + 1 + 1) with (reconnectAttempts s + 2) by lia.
  repeat split. now rewrite <- !app_assoc.
Qed.


(** A [ping] of the AI provider is answered at once with a [pong] that
    carries the same [event_id], on an open session; any message also
    clears the pong time-out. *)
Theorem ping_is_answered_with_its_event_id
    (c : client) (sid : string) (l : nat) (s : session) (w : Ws.socket)
    (rnd : Q) (message pe v : json) :
  get c sid = Some (l, s) ->
  ws s = Some w -> Ws.listeners w = true ->
  status s = OPEN -> Ws.state w = Ws.OPEN ->
  Js.get "type" message = Some (JStr "ping") ->
  Js.get "ping_event" message = Some pe -> pe <> JNull ->
  Js.get "event_id" pe = Some v ->
  let c' := handle sid l rnd (WsMessage message) c in
  exists s' w',
    get c' sid = Some (l, s')
    /\ ws s' = Some w'
    /\ Ws.sent w'
       = Ws.sent w ++ [JObj [("type", JStr "pong"); ("event_id", v)]]
    /\ pongTimeoutTimer s' = false
    /\ status s' = OPEN
    /\ effects c' = effects c.
Proof.
  intros Hget Hws Hlis Hst Hw Htype Hpe Hnull Hv c'.
  apply get_Some in Hget as [Ha Ho].
  subst c'. rewrite (placed_id c l s Ho).
  rewrite (ping_placed _ _ _ _ _ Ha _ _ w _ _ pe) by assumption.
  rewrite Hv.
  eexists _, _. split; [apply (get_placed _ _ _ _ _ Ha) |].
  cbn. repeat split. exact Hst.
Qed.

(** [endConversation] on a session held here whose socket is open or
    still connecting: whatever the store does, the promise resolves with
    the session marked [CLOSING], its timers cleared and the socket asked
    to close with code 1000. *)
Lemma endConversation_placed p o a sid l s e w nowMs :
  a !! sid = Some l -> ws s = Some w ->
  Ws.state w = Ws.OPEN \/ Ws.state w = Ws.CONNECTING ->
  always
    (placed p o a l
       (set_ws (Some (Ws.close 1000 "Conversation ended by client" w))
          (set_reconnectTimer None
             (set_pongTimeoutTimer false
                (set_heartbeatTimer false (set_status CLOSING s)))))
       e)
    (endConversation sid nowMs (placed p o a l s e)).
Proof.
  intros Ha Hws Hstate.
  unfold endConversation. rewrite (get_placed _ _ _ _ _ Ha).
  rewrite update_placed. unfold _stopHeartbeat.
  rewrite (clearTimers_placed _ _ _ _ _ Ha),
    (clearReconnectTimer_placed _ _ _ _ _ Ha), objects_placed.
  cbn [mbind option_bind ws set_reconnectTimer set_pongTimeoutTimer
       set_heartbeatTimer set_status]. rewrite Hws.
  replace (bool_decide (Ws.state w = Ws.OPEN)
           || bool_decide (Ws.state w = Ws.CONNECTING)) with true
    by (destruct Hstate as [-> | ->]; reflexivity).
  rewrite update_placed.
  unfold releaseSessionOwnership.
  unfold mbind, mret, prog_bind, prog_ret, await. cbn.
  always_leaves.
Qed.

Lemma endConversation_local c sid l s w nowMs :
  get c sid = Some (l, s) -> ws s = Some w ->
  Ws.state w = Ws.OPEN \/ Ws.state w = Ws.CONNECTING ->
  always
    (placed (pid c) (objects c) (activeSessions c) l
       (set_ws (Some (Ws.close 1000 "Conversation ended by client" w))
          (set_reconnectTimer None
             (set_pongTimeoutTimer false
                (set_heartbeatTimer false (set_status CLOSING s)))))
       (effects c))
    (endConversation sid nowMs c).
Proof.
  intros Hget Hws Hstate. apply get_Some in Hget as [Ha Ho].
  pose proof (endConversation_placed (pid c) (objects c) (activeSessions c)
                sid l s (effects c) w nowMs Ha Hws Hstate) as H.
  now rewrite <- (placed_id c l s Ho) in H.
Qed.

(** Ending a conversation does not keep it ended.  [endConversation]
    marks the session [CLOSING] and asks the socket to close; but the
    [close] handler first overwrites the status with [CLOSED_TEMP], so
    only a close code of 1000 or 1005 retires the session: with any other
    code (a connection that drops before the closing handshake is over)
    a reconnection is scheduled, and when its timer fires a new socket is
    opened for the conversation that was ended. *)
Theorem ended_session_reconnects_after_abnormal_close
    (c : client) (sid : string) (l : nat) (s : session) (w : Ws.socket)
    (nowMs : Z) :
  get c sid = Some (l, s) ->
  ws s = Some w -> Ws.listeners w = true ->
  Ws.state w = Ws.OPEN \/ Ws.state w = Ws.CONNECTING ->
  reconnectAttempts s < 10 ->
  exists c1,
    (forall faults now st, exists st',
        run (endConversation sid nowMs c) faults now st = (Returned c1, st'))
    /\ getSessionStatus sid c1 = "CLOSING"
    /\ (forall code rnd, code <> 1000 -> code <> 1005 ->
          let c2 := handle sid l rnd (WsClose code) c1 in
          (exists s2,
             get c2 sid = Some (l, s2)
             /\ status s2 = RECONNECTING
             /\ reconnectTimer s2
                = Some (delay (reconnectAttempts s + 1) rnd))
          /\ forall rnd', exists s3,
               get (handle sid l rnd' (ReconnectTimer false) c2) sid
               = Some (l, s3)
               /\ status s3 = CONNECTING
               /\ ws s3 = Some Ws.fresh)
    /\ (forall code rnd, code = 1000 \/ code = 1005 ->
          let c2 := handle sid l rnd (WsClose code) c1 in
          activeSessions c2 !! sid = None
          /\ effects c2
             = effects c
               ++ Emit "close" [JStr sid; JNum 1000; JStr "Clean closure"]
                  :: (if onClose (cbs s)
                      then [Call "onClose"
                              [JStr sid; JNum 1000; JStr "Clean closure"]]
                      else [])).
Proof.
  intros Hget Hws Hlis Hstate Hn.
  pose proof Hget as Hget0. apply get_Some in Hget0 as [Ha Ho].
  eexists. split; [| split; [| split]].
  - intros faults now st. apply run_always.
    now apply (endConversation_local c sid l s w).
  - unfold getSessionStatus. rewrite (get_placed _ _ _ _ _ Ha). reflexivity.
  - intros code rnd H1000 H1005 c2. subst c2.
    assert (Hlis' : Ws.listeners
                      (Ws.close 1000 "Conversation ended by client" w) = true).
    { unfold Ws.close. destruct (Ws.state w); exact Hlis. }
    erewrite (close_unclean_placed _ _ _ _ _ Ha);
      [| reflexivity | exact Hlis' | exact Hn | exact H1000 | exact H1005].
    split.
    + eexists. split; [apply (get_placed _ _ _ _ _ Ha) |].
      cbn -[delay]. split; reflexivity.
    + intros rnd'.
      erewrite (reconnect_timer_placed _ _ _ _ _ Ha);
        [| reflexivity | reflexivity].
      eexists. split; [apply (get_placed _ _ _ _ _ Ha) |].
      cbn. split; reflexivity.
  - intros code rnd Hcode c2. subst c2.
    assert (Hlis' : Ws.listeners
                      (Ws.close 1000 "Conversation ended by client" w) = true).
    { unfold Ws.close. destruct (Ws.state w); exact Hlis. }
    erewrite (close_clean_placed _ _ _ _ _ Ha);
      [| reflexivity | exact Hlis' | exact Hcode].
    cbn [activeSessions effects]. split; [apply lookup_delete_eq |].
    reflexivity.
Qed.

(** Starting a conversation under an id that is still in the table
    replaces the table entry and leaves the old socket with its handlers.
    Those handlers look the session up by its id: when the old socket
    then closes cleanly, it is the new session that is marked [CLOSED],
    reported closed to its own callback and taken out of the table, its
    new socket losing its listeners without ever being closed. *)
Theorem stale_socket_closes_the_new_session
    (c : client) (sid : string) (l : nat) (s : session) (w : Ws.socket)
    (agent : string) (cb : callbacks) (rnd : Q) :
  get c sid = Some (l, s) ->
  ws s = Some w -> Ws.listeners w = true ->
  exists c1 l',
    (forall faults now st, exists st',
        run (startConversation agent cb sid false rnd c) faults now st
        = (Returned c1, st'))
    /\ l' <> l
    /\ get c1 sid
       = Some (l', Session (Some Ws.fresh) agent CONNECTING cb None false
                     false 0 (pid c))
    /\ objects c1 !! l = Some s
    /\ forall code rnd', code = 1000 \/ code = 1005 ->
         let c2 := handle sid l rnd' (WsClose code) c1 in
         activeSessions c2 !! sid = None
         /\ objects c2 !! l'
            = Some (Session (Some (Ws.removeAllListeners Ws.fresh)) agent
                      CLOSED cb None false false 0 (pid c))
         /\ effects c2
            = effects c
              ++ Emit "close" [JStr sid; JNum 1000; JStr "Clean closure"]
                 :: (if onClose cb
                     then [Call "onClose"
                             [JStr sid; JNum 1000; JStr "Clean closure"]]
                     else []).
Proof.
  intros Hget Hws Hlis. apply get_Some in Hget as [Ha Ho].
  set (l' := fresh (dom (objects c))).
  assert (Hne : l <> l').
  { intros ->. apply (is_fresh (dom (objects c))).
    apply elem_of_dom. eauto. }
  set (a' := <[sid := l']> (activeSessions c)).
  assert (Ha' : a' !! sid = Some l') by apply lookup_insert_eq.
  set (sd := Session None agent CONNECTING cb None false false 0 (pid c)).
  assert (Hstart :
            always
              (placed (pid c) (objects c) a' l'
                 (set_ws (Some Ws.fresh)
                    (set_pongTimeoutTimer false
                       (set_heartbeatTimer false (set_status CONNECTING sd))))
                 (effects c))
              (startConversation agent cb sid false rnd c)).
  { unfold startConversation. fold l' sd.
    change (ClientState (pid c) (<[l' := sd]> (objects c))
              (<[sid := l']> (activeSessions c)) (effects c))
      with (placed (pid c) (objects c) a' l' sd (effects c)).
    rewrite (connect_placed _ _ _ _ _ Ha') by reflexivity.
    unfold acquireSessionOwnership.
    unfold mbind, mret, prog_bind, prog_ret, await. cbn.
    always_leaves. }
  eexists _, l'. split; [| split; [| split; [| split]]].
  - intros faults now st. apply run_always. exact Hstart.
  - congruence.
  - apply (get_placed _ _ _ _ _ Ha').
  - rewrite objects_other_placed by exact Hne. exact Ho.
  - intros code rnd' Hcode c2. subst c2. cbn [handle].
    unfold listening. rewrite objects_other_placed by exact Hne.
    rewrite Ho. cbn [mbind option_bind]. rewrite Hws, Hlis.
    rewrite !update_other_placed by exact Hne.
    replace (bool_decide (code = 1000) || bool_decide (code = 1005))
      with true by (destruct Hcode as [-> | ->]; reflexivity).
    rewrite (disconnect_clean_placed _ _ _ _ _ Ha') by reflexivity.
    cbn [activeSessions objects effects].
    split; [apply lookup_delete_eq |].
    split; [rewrite lookup_insert_eq; reflexivity | reflexivity].
Qed.

Lemma failure_is_counted_twice_witness :
  exists s',
    get (handle "s1" 0 0 (WsClose 1006) (handle "s1" 0 0 WsError just_started))
      "s1" = Some (0%nat, s')
    /\ status s' = RECONNECTING
    /\ reconnectAttempts s' = 2.
Proof.
  destruct (failure_is_counted_twice just_started "s1" 0
              (Session (Some Ws.fresh) "agent" CONNECTING
                 (Callbacks true false true true) None false false 0 9)
              Ws.fresh 0 0 1006)
    as (s' & Hget & Hst & Hn & _);
    [reflexivity | reflexivity | reflexivity | cbn; lia | lia | lia |].
  exists s'. auto.
Defined.


Lemma ping_is_answered_with_its_event_id_witness :
  exists s' w',
    get (handle "s1" 0 0
           (WsMessage (JObj [("type", JStr "ping");
                             ("ping_event", JObj [("event_id", JNum 7)])]))
           worker9) "s1" = Some (0%nat, s')
    /\ ws s' = Some w'
    /\ Ws.sent w' = [JObj [("type", JStr "pong"); ("event_id", JNum 7)]].
Proof.
  destruct (ping_is_answered_with_its_event_id worker9 "s1" 0
              (Session (Some (Ws.Socket Ws.OPEN [] 0 [] false true))
                 "agent" OPEN (Callbacks true false true false)
                 None true false 0 9)
              (Ws.Socket Ws.OPEN [] 0 [] false true) 0
              (JObj [("type", JStr "ping");
                     ("ping_event", JObj [("event_id", JNum 7)])])
              (JObj [("event_id", JNum 7)]) (JNum 7))
    as (s' & w' & Hget & Hws & Hsent & _);
    [reflexivity | reflexivity | reflexivity | reflexivity | reflexivity
    | reflexivity | reflexivity | discriminate | reflexivity |].
  exists s', w'. auto.
Defined.

Lemma ended_session_reconnects_after_abnormal_close_witness :
  exists c1,
    fst (run (endConversation "s1" 5000 worker9) [] 100 call_in_progress)
    = Returned c1
    /\ getSessionStatus "s1" c1 = "CLOSING"
    /\ getSessionStatus "s1" (handle "s1" 0 0 (WsClose 1006) c1)
       = "RECONNECTING".
Proof.
  destruct (ended_session_reconnects_after_abnormal_close worker9 "s1" 0
              (Session (Some (Ws.Socket Ws.OPEN [] 0 [] false true))
                 "agent" OPEN (Callbacks true false true false)
                 None true false 0 9)
              (Ws.Socket Ws.OPEN [] 0 [] false true) 5000)
    as (c1 & Hrun & Hclosing & Habnormal & _);
    [reflexivity | reflexivity | reflexivity | left; reflexivity
    | cbn; lia |].
  exists c1.
  destruct (Hrun [] 100 call_in_progress) as [st' ->].
  split; [reflexivity |]. split; [exact Hclosing |].
  destruct (Habnormal 1006 0%Q) as [(s2 & Hget & Hst & _) _]; [lia | lia |].
  unfold getSessionStatus. rewrite Hget, Hst. reflexivity.
Defined.

Lemma stale_socket_closes_the_new_session_witness :
  exists c1,
    fst (run (startConversation "agent" (Callbacks true false true true)
                "s1" false 0 just_started) [] 100 Redis.empty)
    = Returned c1
    /\ getSessionStatus "s1" c1 = "CONNECTING"
    /\ getSessionStatus "s1" (handle "s1" 0 0 (WsClose 1000) c1)
       = "NOT_FOUND".
Proof.
  destruct (stale_socket_closes_the_new_session just_started "s1" 0
              (Session (Some Ws.fresh) "agent" CONNECTING
                 (Callbacks true false true true) None false false 0 9)
              Ws.fresh "agent" (Callbacks true false true true) 0)
    as (c1 & l' & Hrun & _ & Hget & _ & Hclose);
    [reflexivity | reflexivity | reflexivity |].
  exists c1.
  destruct (Hrun [] 100 Redis.empty) as [st' ->].
  split; [reflexivity |]. split.
  - unfold getSessionStatus. rewrite Hget. reflexivity.
  - destruct (Hclose 1000 0%Q) as (Hgone & _); [now left |].
    unfold getSessionStatus.
    rewrite (get_None_of_inactive _ _ Hgone). reflexivity.
Defined.

End LifecycleFacts.

Module PublisherFacts.
Import Js Relay Streams.
Import Sorted.

Lemma handle_audio_numbered sid x p :
  numbered x = true ->
  exists a,
    audio_of (message x) = Some a
    /\ handleAudioMessage sid (message x) (found x) (at_ms x) (gets_out x) p
       = Publisher (publisher_pid p)
           (<[sid := default 0 (sequenceCounters p !! sid) + 1]>
              (sequenceCounters p))
           (if reaches_publish (found x) && gets_out x
            then published p
                 ++ [(AUDIO_CHANNEL_PREFIX +:+ sid,
                      envelope a (at_ms x) (publisher_pid p)
                        (default 0 (sequenceCounters p !! sid)))]
            else published p).
Proof.
  unfold numbered, handleAudioMessage. intros H.
  apply andb_prop in H as [Ha Hf].
  destruct (audio_of (message x)) as [a |]; [| discriminate Ha].
  cbn in Ha. exists a. split; [reflexivity |].
  destruct (found x); try discriminate Hf; now rewrite Ha.
Qed.

Lemma handle_audio_unnumbered sid x p :
  numbered x = false ->
  handleAudioMessage sid (message x) (found x) (at_ms x) (gets_out x) p = p.
Proof.
  unfold numbered, handleAudioMessage. intros H.
  destruct (audio_of (message x)) as [a |]; [| reflexivity].
  cbn in H. destruct (truthy a); cbn in H.
  - destruct (found x); try discriminate H. reflexivity.
  - destruct (found x); reflexivity.
Qed.

Lemma handle_audio_all_cons sid x rest p :
  handle_audio_all sid (x :: rest) p
  = handle_audio_all sid rest
      (handleAudioMessage sid (message x) (found x) (at_ms x) (gets_out x) p).
Proof. reflexivity. Qed.

(** The audio messages of one session take consecutive sequence numbers
    from the session's counter, one for each message that carries audio
    and whose lookup did not throw, published or not: what is published
    carries strictly increasing numbers between the old and the new
    value of the counter, on the session's channel, and a publication
    that fails leaves a gap.  The counters of the other sessions are not
    touched. *)
Theorem sequence_numbers_count_the_chunks
    (sid : string) (xs : list arrival) (p : publisher) :
  let p' := handle_audio_all sid xs p in
  let c0 := default 0 (sequenceCounters p !! sid) in
  let c' := default 0 (sequenceCounters p' !! sid) in
  c' = c0 + Z.of_nat (length (List.filter numbered xs))
  /\ publisher_pid p' = publisher_pid p
  /\ (forall sid', sid' <> sid ->
        sequenceCounters p' !! sid' = sequenceCounters p !! sid')
  /\ exists sent : list (Z * (json * Z)),
       published p'
       = published p
         ++ map (fun y => (AUDIO_CHANNEL_PREFIX +:+ sid,
                           envelope y.2.1 y.2.2 (publisher_pid p) y.1)) sent
       /\ length sent = length (List.filter goes_out xs)
       /\ StronglySorted Z.lt (map fst sent)
       /\ Forall (fun n => c0 <= n < c') (map fst sent).
Proof.
  revert p. induction xs as [| x rest IH]; intros p; cbn zeta.
  - cbn. split; [lia |]. split; [reflexivity |]. split; [reflexivity |].
    exists []. cbn. rewrite app_nil_r. repeat split; constructor.
  - rewrite handle_audio_all_cons. cbn [List.filter].
    destruct (numbered x) eqn:Hnum.
    + destruct (handle_audio_numbered sid x p Hnum) as (a & Ha & ->).
      unfold goes_out. rewrite Hnum. cbn [andb].
      set (c0 := default 0 (sequenceCounters p !! sid)).
      destruct (reaches_publish (found x) && gets_out x) eqn:Hout;
        match goal with
        | |- context [handle_audio_all sid rest ?q] =>
            destruct (IH q)
              as (Hc & Hpid & Hother & sent & Hpub & Hlen & Hsort & Hin);
            cbn [sequenceCounters publisher_pid published] in Hc, Hpid,
              Hother, Hpub, Hin;
            rewrite lookup_insert_eq in Hc, Hin;
            cbn [default from_option id] in Hc, Hin; fold c0 in Hc, Hin
        end.
      * split; [rewrite Hc; cbn [length]; lia |].
        split; [exact Hpid |].
        split.
        { intros sid' Hne. rewrite Hother by exact Hne.
          now apply lookup_insert_ne. }
        exists ((c0, (a, at_ms x)) :: sent).
        rewrite Hpub. cbn [map fst snd length].
        split; [now rewrite <- app_assoc |].
        split; [now rewrite Hlen |].
        split.
        -- constructor; [exact Hsort |].
           eapply Forall_impl; [exact Hin |]. cbn. intros n Hn. lia.
        -- constructor; [rewrite Hc; lia |].
           eapply Forall_impl; [exact Hin |]. cbn. intros n Hn. lia.
      * split; [rewrite Hc; cbn [length]; lia |].
        split; [exact Hpid |].
        split.
        { intros sid' Hne. rewrite Hother by exact Hne.
          now apply lookup_insert_ne. }
        exists sent.
        split; [exact Hpub |]. split; [exact Hlen |].
        split; [exact Hsort |].
        eapply Forall_impl; [exact Hin |]. cbn. intros n Hn. lia.
    + rewrite (handle_audio_unnumbered sid x p Hnum).
      destruct (IH p) as (Hc & Hpid & Hother & sent & Hpub & Hlen & Hsort & Hin).
      split; [exact Hc |]. split; [exact Hpid |]. split; [exact Hother |].
      exists sent. unfold goes_out. rewrite Hnum. cbn [andb].
      auto.
Qed.

End PublisherFacts.

Module StreamFacts.
Import Js Client Relay MediaStream.
Import Notions Scenarios ClientFacts SendFacts CloseFacts RelayFacts Streams.

(** *** The audio buffer *)

Lemma push_bounded_last_n data buf :
  (length buf <= MAX_SERVER_BUFFER_SIZE)%nat ->
  push_bounded data buf = last_n MAX_SERVER_BUFFER_SIZE (buf ++ [data]).
Proof.
  intros Hlen. unfold push_bounded, last_n, MAX_SERVER_BUFFER_SIZE in *.
  rewrite length_app. cbn [length].
  destruct (bool_decide_reflect (20 < length buf + 1)%nat) as [Hfull | Hroom].
  - replace (length buf + 1 - 20)%nat with 1%nat by lia.
    destruct buf; reflexivity.
  - replace (length buf + 1 - 20)%nat with 0%nat by lia. reflexivity.
Qed.

Lemma last_n_length {A} n (l : list A) :
  (length (last_n n l) <= n)%nat.
Proof. unfold last_n. rewrite length_drop. lia. Qed.

Lemma last_n_snoc {A} n (l : list A) x :
  (0 < n)%nat -> last_n n (last_n n l ++ [x]) = last_n n (l ++ [x]).
Proof.
  intros Hn. unfold last_n. rewrite !length_app, length_drop. cbn [length].
  destruct (Nat.le_gt_cases (length l) n) as [Hle | Hgt].
  - replace (length l - n)%nat with 0%nat by lia.
    now rewrite drop_0, Nat.sub_0_r.
  - set (j := (length l - n)%nat).
    replace (length l - j + 1 - n)%nat with 1%nat by lia.
    replace (length l + 1 - n)%nat with (j + 1)%nat by lia.
    rewrite <- drop_drop. f_equal.
    rewrite drop_app_le by lia. reflexivity.
Qed.

(** One relay message for a connection whose stream handle is not known
    yet goes to the buffer and nowhere else. *)
Lemma messageHandler_buffers k m s conn :
  clients s !! k = Some conn ->
  truthy_opt (streamSid_of conn) = false ->
  m <> JNull ->
  messageHandler k m (audioChannel (sessionId conn)) s
  = with_buffers
      (<[sessionId conn :=
           push_bounded m
             (default [] (serverAudioBuffers s !! sessionId conn))]>
         (serverAudioBuffers s)) s.
Proof.
  intros Hk Hsid Hm. unfold messageHandler. rewrite Hk.
  rewrite String.eqb_refl. cbn [negb]. rewrite Hsid.
  rewrite !andb_false_r. cbn [negb].
  destruct m; try reflexivity. now destruct Hm.
Qed.

(** Until the stream handle is known, the buffer of a session holds the
    last 20 relay messages received for it, oldest first: a message that
    arrives when the buffer is full pushes the oldest one out.  Every
    message is buffered whole, with or without audio; nothing is sent
    and nothing else changes. *)
Theorem buffer_keeps_the_last_twenty
    (s : server) (k : nat) (conn : connection) (ms : list json) :
  clients s !! k = Some conn ->
  truthy_opt (streamSid_of conn) = false ->
  Forall (fun m => m <> JNull) ms ->
  ms <> [] ->
  (length (default [] (serverAudioBuffers s !! sessionId conn))
   <= MAX_SERVER_BUFFER_SIZE)%nat ->
  let sid := sessionId conn in
  let s' := relay_all k (audioChannel sid) ms s in
  serverAudioBuffers s' !! sid
  = Some (last_n MAX_SERVER_BUFFER_SIZE
            (default [] (serverAudioBuffers s !! sid) ++ ms))
  /\ (forall sid', sid' <> sid ->
        serverAudioBuffers s' !! sid' = serverAudioBuffers s !! sid')
  /\ clients s' = clients s
  /\ outbox s' = outbox s
  /\ elevenlabs s' = elevenlabs s.
Proof.
  intros Hk Hsid Hms Hne Hlen sid s'. subst sid s'.
  induction ms as [| m ms IH] using rev_ind; [now destruct Hne |].
  apply Forall_app in Hms as [Hms Hm]. apply Forall_cons_1 in Hm as [Hm _].
  unfold relay_all. rewrite fold_left_app. cbn [fold_left].
  fold (relay_all k (audioChannel (sessionId conn)) ms s).
  destruct ms as [| m0 ms0].
  - cbn [relay_all fold_left]. rewrite app_nil_l.
    rewrite (messageHandler_buffers k m s conn Hk Hsid Hm).
    cbn [serverAudioBuffers with_buffers clients outbox elevenlabs].
    rewrite lookup_insert_eq.
    rewrite push_bounded_last_n by exact Hlen.
    repeat split. intros sid' Hne'. now apply lookup_insert_ne.
  - destruct (IH Hms ltac:(discriminate)) as (Hbuf & Hother & Hcl & Hout & Hel).
    set (s1 := relay_all k (audioChannel (sessionId conn)) (m0 :: ms0) s) in *.
    assert (Hk1 : clients s1 !! k = Some conn) by now rewrite Hcl.
    rewrite (messageHandler_buffers k m s1 conn Hk1 Hsid Hm).
    cbn [serverAudioBuffers with_buffers clients outbox elevenlabs].
    rewrite lookup_insert_eq, Hbuf. cbn [default from_option id].
    rewrite push_bounded_last_n by apply last_n_length.
    rewrite last_n_snoc by (unfold MAX_SERVER_BUFFER_SIZE; lia).
    rewrite <- app_assoc.
    repeat split; try assumption.
    intros sid' Hne'. rewrite lookup_insert_ne by congruence.
    now apply Hother.
Qed.

Lemma buffer_keeps_the_last_twenty_witness :
  serverAudioBuffers
    (relay_all 0 (audioChannel "s1") [chunk_B; chunk_A] before_start) !! "s1"
  = Some [chunk_B; chunk_A].
Proof.
  refine (proj1 (buffer_keeps_the_last_twenty before_start 0
                   (Connection "s1" (Ws.Socket Ws.OPEN [] 0 [] false true)
                      (JObj [("callSid", JStr "CA1")]))
                   [chunk_B; chunk_A] eq_refl eq_refl _ _ _)).
  - repeat constructor; discriminate.
  - discriminate.
  - vm_compute. lia.
Defined.

(** *** Two streams for one session *)

(** The subscription of a connection is kept under the session id, not
    under the connection.  When a second stream connects for a session
    whose first stream is still there, it takes the first one's place in
    [activeSubscriptions]; the first stream closing then unsubscribes the
    handler of the second, which stays connected and receives no relay
    audio any more, while the handler of the closed stream stays
    subscribed; and when the second stream closes, nothing is
    unsubscribed. *)
Theorem first_close_unsubscribes_the_second_stream
    (s : server) (sid : string) (info1 info2 : json) (w1 w2 : Ws.socket)
    (code code' : Z) (reason reason' : string) :
  let k1 := length (clients s) in
  let k2 := S k1 in
  let s2 := attach sid info2 w2 (attach sid info1 w1 s) in
  let s3 := on_close k1 code reason s2 in
  activeSubscriptions s2 !! sid = Some k2
  /\ ((audioChannel sid, k1) ∈ subscriptions s2)
  /\ ((audioChannel sid, k2) ∈ subscriptions s2)
  /\ ((audioChannel sid, k2) ∉ subscriptions s3)
  /\ ((audioChannel sid, k1) ∈ subscriptions s3)
  /\ activeSubscriptions s3 !! sid = None
  /\ clients s3 = clients s2
  /\ on_close k2 code' reason' s3 = s3.
Proof.
  intros k1 k2 s2 s3.
  assert (Hcl : clients s2
                = clients s ++ [Connection sid w1 info1;
                                Connection sid w2 info2]).
  { unfold s2, attach. cbn [clients]. now rewrite <- app_assoc. }
  assert (Hk1 : clients s2 !! k1 = Some (Connection sid w1 info1)).
  { rewrite Hcl. now apply list_lookup_middle. }
  assert (Hk2 : clients s2 !! k2 = Some (Connection sid w2 info2)).
  { rewrite Hcl.
    change [Connection sid w1 info1; Connection sid w2 info2]
      with ([Connection sid w1 info1] ++ [Connection sid w2 info2]).
    rewrite app_assoc. apply list_lookup_middle.
    rewrite length_app. cbn [length]. subst k2 k1. lia. }
  assert (Ha2 : activeSubscriptions s2 !! sid = Some k2).
  { unfold s2, attach. cbn [activeSubscriptions clients].
    rewrite lookup_insert_eq. rewrite length_app. cbn [length].
    subst k2 k1. f_equal. lia. }
  assert (Hsubs : subscriptions s2
                  = subscriptions s ++ [(audioChannel sid, k1);
                                        (audioChannel sid, k2)]).
  { unfold s2, attach. cbn [subscriptions clients].
    rewrite length_app. cbn [length]. rewrite <- app_assoc.
    subst k2 k1. cbn [app]. do 4 f_equal. lia. }
  assert (Hs3 : s3 = Server (clients s2) (serverAudioBuffers s2)
                       (delete sid (activeSubscriptions s2))
                       (unsubscribe (audioChannel sid) k2 (subscriptions s2))
                       (outbox s2) (elevenlabs s2)).
  { unfold s3, on_close. rewrite Hk1. cbn [sessionId]. now rewrite Ha2. }
  split; [exact Ha2 |].
  split; [rewrite Hsubs; set_solver |].
  split; [rewrite Hsubs; set_solver |].
  rewrite Hs3. cbn [subscriptions activeSubscriptions clients].
  split; [apply not_elem_of_unsubscribe |].
  split.
  { apply elem_of_unsubscribe_other.
    - intros [= Heq]. subst k2. lia.
    - rewrite Hsubs. set_solver. }
  split; [apply lookup_delete_eq |].
  split; [reflexivity |].
  unfold on_close. cbn [clients]. rewrite Hk2. cbn [sessionId activeSubscriptions].
  now rewrite lookup_delete_eq.
Qed.

(** *** Caller audio *)

(** A [media] event of the caller's stream whose session is open in this
    process hands [{ user_audio_chunk: payload }] to the AI socket, the
    payload as it came; the session stays open, and nothing else of the
    server changes. *)
Theorem caller_audio_reaches_the_agent
    (s : server) (k : nat) (conn : connection) (l : nat) (sess : session)
    (w : Ws.socket) (data m payload : json) (nowMs : Z) :
  clients s !! k = Some conn ->
  get (elevenlabs s) (sessionId conn) = Some (l, sess) ->
  status sess = OPEN -> ws sess = Some w -> Ws.state w = Ws.OPEN ->
  Js.get "event" data = Some (JStr "media") ->
  Js.get "media" data = Some m -> truthy m = true ->
  Js.get "payload" m = Some payload -> truthy payload = true ->
  let s' := on_message k data nowMs s in
  (exists sess' w',
     get (elevenlabs s') (sessionId conn) = Some (l, sess')
     /\ status sess' = OPEN
     /\ ws sess' = Some w'
     /\ Ws.state w' = Ws.OPEN
     /\ Ws.sent w' = Ws.sent w ++ [JObj [("user_audio_chunk", payload)]])
  /\ effects (elevenlabs s') = effects (elevenlabs s)
  /\ clients s' = clients s
  /\ serverAudioBuffers s' = serverAudioBuffers s
  /\ subscriptions s' = subscriptions s
  /\ outbox s' = outbox s.
Proof.
  intros Hk Hget Hst Hws Hw Hev Hmedia Hm Hpay Hp s'. subst s'.
  unfold on_message. rewrite Hk, Hev, Hmedia. cbn [is_string].
  cbn [String.eqb Ascii.eqb Bool.eqb andb truthy_opt].
  rewrite Hm. cbn [mbind option_bind andb]. rewrite Hpay, Hp.
  unfold isSessionActiveOrOpening. rewrite Hget, Hst.
  rewrite bool_decide_eq_true_2 by set_solver.
  unfold sendAudioChunk.
  rewrite (sendMessage_open _ _ _ l sess w Hget Hst Hws Hw)
    by discriminate.
  cbn [snd fst with_elevenlabs elevenlabs clients serverAudioBuffers
       subscriptions outbox].
  split; [| repeat split].
  eexists _, _. split; [apply get_update; exact Hget |].
  cbn. repeat split. exact Hst.
Qed.

Lemma caller_audio_reaches_the_agent_witness :
  exists sess' w',
    get (elevenlabs
           (on_message 0
              (JObj [("event", JStr "media");
                     ("media", JObj [("payload", JStr "f39/")])])
              5000 (Stated.process in_call))) "s1" = Some (0%nat, sess')
    /\ ws sess' = Some w'
    /\ Ws.sent w' = [JObj [("user_audio_chunk", JStr "f39/")]].
Proof.
  destruct (caller_audio_reaches_the_agent (Stated.process in_call) 0
              (Connection "s1" (Ws.Socket Ws.OPEN [] 0 [] false true)
                 (JObj [("callSid", JStr "CA1"); ("streamSid", JStr "MZ1")]))
              0
              (Session (Some (Ws.Socket Ws.OPEN [] 0 [] false true))
                 "agent" OPEN (Callbacks true false true true)
                 None true false 0 7)
              (Ws.Socket Ws.OPEN [] 0 [] false true)
              (JObj [("event", JStr "media");
                     ("media", JObj [("payload", JStr "f39/")])])
              (JObj [("payload", JStr "f39/")]) (JStr "f39/") 5000)
    as ((sess' & w' & Hget & _ & Hws & _ & Hsent) & _);
    try reflexivity.
  exists sess', w'. auto.
Defined.

End StreamFacts.

Module StatusFacts.
Import Js Redis SessionManager Client ClientAsync StatusRoute.
Import Notions Scenarios JsFacts RegistryFacts ClientFacts TerminationFacts.

Lemma field_remove_field_ne k k' o :
  k <> k' -> field k (remove_field k' o) = field k o.
Proof.
  intros Hne. induction o as [| [k0 v0] rest IH]; cbn; [reflexivity |].
  destruct (String.eqb_spec k' k0) as [-> | Hk'].
  - destruct (String.eqb_spec k k0) as [-> | _]; [now destruct Hne |].
    reflexivity.
  - cbn. now rewrite IH.
Qed.

Lemma get_assign_ne k k' v o :
  k <> k' -> Js.get k (assign k' v (JObj o)) = field k o.
Proof.
  intros Hne. cbn. destruct v as [x |].
  - now apply field_set_field_ne.
  - now apply field_remove_field_ne.
Qed.

Lemma assign_object k v o : exists o', assign k v (JObj o) = JObj o'.
Proof. cbn. eauto. Qed.

(** The record the status callback writes back. *)
Lemma updated_record_fields x CD EC EM o :
  exists o',
    (let info1 := assign "status" (Some x) (JObj o) in
     let info2 := assign "duration" CD info1 in
     let info3 := if truthy_opt EC then assign "errorCode" EC info2
                  else info2 in
     if truthy_opt EM then assign "errorMessage" EM info3 else info3)
    = JObj o'
    /\ field "status" o' = Some x
    /\ forall k, k <> "status" -> k <> "duration" -> k <> "errorCode" ->
                 k <> "errorMessage" -> field k o' = field k o.
Proof.
  cbv zeta.
  destruct (assign_object "status" (Some x) o) as [o1 H1].
  assert (Hs1 : field "status" o1 = Some x
                /\ forall k, k <> "status" -> field k o1 = field k o).
  { injection H1 as <-. split; [apply field_set_field_eq |].
    intros k Hk. now apply field_set_field_ne. }
  rewrite H1. clear H1. destruct Hs1 as [Hs1 Ho1].
  destruct (assign_object "duration" CD o1) as [o2 H2].
  assert (Hs2 : forall k, k <> "duration" -> field k o2 = field k o1).
  { intros k Hk. rewrite <- (get_assign_ne k "duration" CD o1 Hk).
    now rewrite H2. }
  rewrite H2. clear H2.
  assert (H3 : exists o3,
             (if truthy_opt EC then assign "errorCode" EC (JObj o2)
              else JObj o2) = JObj o3
             /\ forall k, k <> "errorCode" -> field k o3 = field k o2).
  { destruct (truthy_opt EC).
    - destruct (assign_object "errorCode" EC o2) as [o3 H3].
      exists o3. split; [exact H3 |]. intros k Hk.
      rewrite <- (get_assign_ne k "errorCode" EC o2 Hk). now rewrite H3.
    - eauto. }
  destruct H3 as (o3 & -> & Hs3).
  assert (H4 : exists o4,
             (if truthy_opt EM then assign "errorMessage" EM (JObj o3)
              else JObj o3) = JObj o4
             /\ forall k, k <> "errorMessage" -> field k o4 = field k o3).
  { destruct (truthy_opt EM).
    - destruct (assign_object "errorMessage" EM o3) as [o4 H4].
      exists o4. split; [exact H4 |]. intros k Hk.
      rewrite <- (get_assign_ne k "errorMessage" EM o3 Hk). now rewrite H4.
    - eauto. }
  destruct H4 as (o4 & -> & Hs4).
  exists o4. split; [reflexivity |]. split.
  - rewrite Hs4, Hs3, Hs2 by discriminate. exact Hs1.
  - intros k Hk1 Hk2 Hk3 Hk4.
    rewrite Hs4, Hs3, Hs2 by assumption. now apply Ho1.
Qed.

Lemma is_final_Some CS : is_final CS = true -> exists x, CS = Some x.
Proof. destruct CS; [eauto | discriminate]. Qed.

(** A final call status does not end a conversation that another process
    holds.  The callback calls [endConversation], which writes the
    termination request on the record; but it then saves the copy of the
    record it read before, which carries no request: the record is kept
    for 24 hours with the call status, the request is gone, and the
    process that holds the AI socket finds nothing to act on. *)
Theorem final_status_overwrites_the_termination_request
    (sid : string) (CS CD EC EM : option json) (nowMs now : Z)
    (c : client) (st : store) (o : object) (e : Z) :
  get c sid = None ->
  outbound_session st !! sid = Some (Entry (JObj o) e) -> now < e ->
  is_final CS = true ->
  truthy_opt (field "terminateRequested" o) = false ->
  exists st' d',
    run (status_callback sid CS CD EC EM nowMs c) [] now st
    = (Returned (200, c), st')
    /\ outbound_session st' !! sid = Some (Entry d' (now + 24 * 3600))
    /\ Js.get "status" d' = CS
    /\ Js.get "terminateRequested" d' = field "terminateRequested" o
    /\ session_owner st' = session_owner st
    /\ forall holder nowMs' now',
         run (_checkForTerminationRequests sid nowMs' holder) [] now' st'
         = (Returned holder, st').
Proof.
  intros Hget Hst Hlive Hfinal Hnone.
  destruct (is_final_Some CS Hfinal) as [x ->].
  destruct (updated_record_fields x CD EC EM o) as (o' & Hrec & Hstatus & Hrest).
  pose proof (read_live now _ _ _ _ Hst Hlive) as Hread.
  exists (Store (session_owner st)
            (<[sid := Entry (JObj o') (now + 24 * 3600)]>
               (<[sid := Entry (termination_request (JObj o) (pid c) nowMs)
                           (now + SESSION_TTL)]> (outbound_session st)))),
    (JObj o').
  split.
  { unfold status_callback. apply run_try_catch_returned.
    unfold mbind, prog_bind, mret, prog_ret.
    rewrite run_bind. cbn [run getOutboundSession].
    change (run (getOutboundSession sid) [] now st)
      with (Returned (read now (outbound_session st) sid), st).
    rewrite Hread. cbn [truthy]. rewrite Hfinal.
    cbv zeta in Hrec. rewrite Hrec.
    rewrite run_bind.
    rewrite (endConversation_remote c sid nowMs now st (JObj o) e
               Hget Hst Hlive eq_refl).
    rewrite run_bind.
    unfold saveOutboundSession. unfold_prog. cbn. reflexivity. }
  cbn [outbound_session session_owner].
  split; [apply lookup_insert_eq |].
  split; [exact Hstatus |].
  split; [apply Hrest; discriminate |].
  split; [reflexivity |].
  intros holder nowMs' now'.
  unfold _checkForTerminationRequests, getOutboundSession. unfold_prog.
  cbn -[termination_ack Ws.close]. unfold read at 1.
  rewrite lookup_insert_eq. cbn -[termination_ack Ws.close].
  destruct (live now' _); cbn -[termination_ack Ws.close]; [| reflexivity].
  rewrite (Hrest "terminateRequested") by discriminate.
  rewrite Hnone. reflexivity.
Qed.

Lemma final_status_overwrites_the_termination_request_witness :
  exists st',
    run (status_callback "s1" (Some (JStr "completed")) (Some (JStr "42"))
           None None 1000 server7) [] 100 call_in_progress
    = (Returned (200, server7), st')
    /\ run (_checkForTerminationRequests "s1" 16000 worker9) [] 115 st'
       = (Returned worker9, st').
Proof.
  destruct (final_status_overwrites_the_termination_request "s1"
              (Some (JStr "completed")) (Some (JStr "42")) None None 1000 100
              server7 call_in_progress
              [("callSid", JStr "CA1"); ("status", JStr "in-progress")] 3650)
    as (st' & d' & Hrun & _ & _ & _ & _ & Hcheck);
    [reflexivity | reflexivity | lia | reflexivity | reflexivity |].
  exists st'. split; [exact Hrun | apply Hcheck].
Defined.

End StatusFacts.

Module KeyFacts.
Import Keys.

(** The keys of the different kinds of record never coincide, whatever
    the ids, and each kind of key determines its id: a record of one
    kind cannot overwrite or be read as a record of another.  In
    particular the key that [handleAudioMessage] looks up,
    [session:<id>], is none of the keys under which the session managers
    store their records. *)
Theorem record_keys_never_collide (a b : string) :
  (_getKey a = _getKey b -> a = b)
  /\ (_getInboundKey a = _getInboundKey b -> a = b)
  /\ (_getMappingKey a = _getMappingKey b -> a = b)
  /\ (_getOwnershipKey a = _getOwnershipKey b -> a = b)
  /\ (_getSessionKey a = _getSessionKey b -> a = b)
  /\ _getKey a <> _getInboundKey b
  /\ _getKey a <> _getMappingKey b
  /\ _getKey a <> _getOwnershipKey b
  /\ _getKey a <> _getSessionKey b
  /\ _getInboundKey a <> _getMappingKey b
  /\ _getInboundKey a <> _getOwnershipKey b
  /\ _getInboundKey a <> _getSessionKey b
  /\ _getMappingKey a <> _getOwnershipKey b
  /\ _getMappingKey a <> _getSessionKey b
  /\ _getOwnershipKey a <> _getSessionKey b
  /\ sessionRedisKey a <> _getKey b
  /\ sessionRedisKey a <> _getInboundKey b
  /\ sessionRedisKey a <> _getMappingKey b
  /\ sessionRedisKey a <> _getOwnershipKey b
  /\ sessionRedisKey a <> _getSessionKey b.
Proof.
  repeat apply conj; cbn; intros H; first [discriminate H | now injection H].
Qed.

End KeyFacts.

Module ChunkFacts.
Import Text.

Lemma letters_app s t : letters (s +:+ t) = letters s ++ letters t.
Proof.
  induction s as [| a s IH]; [reflexivity |].
  change (String a s +:+ t) with (String a (s +:+ t)). cbn [letters].
  destruct (Ascii.eqb a " "); [exact IH | cbn; f_equal; exact IH].
Qed.

Lemma split_nonempty sep s : split sep s <> [].
Proof.
  destruct s as [| a rest]; cbn; [discriminate |].
  destruct (Ascii.eqb a sep); [discriminate |].
  destruct (split sep rest); discriminate.
Qed.

(** Splitting at the spaces loses no other character. *)
Lemma letters_split s :
  concat (map letters (split " " s)) = letters s.
Proof.
  induction s as [| a rest IH]; cbn; [reflexivity |].
  destruct (Ascii.eqb a " ") eqn:Ha; cbn; [exact IH |].
  destruct (split " " rest) as [| w ws] eqn:Hs;
    [now destruct (split_nonempty " " rest) |].
  cbn in *. rewrite Ha. cbn. now rewrite IH.
Qed.

Lemma chunk_step_letters m st word :
  letters_of (chunk_step m st word) = letters_of st ++ letters word.
Proof.
  destruct st as [chunks cur]. unfold chunk_step, letters_of.
  destruct (_ <=? m); cbn [fst snd].
  - rewrite !letters_app. destruct (String.eqb cur ""); cbn;
      now rewrite <- app_assoc.
  - rewrite map_app, concat_app. cbn. now rewrite app_nil_r.
Qed.

Lemma fold_chunk_letters m words : forall st,
  letters_of (fold_left (chunk_step m) words st)
  = letters_of st ++ concat (map letters words).
Proof.
  induction words as [| w ws IH]; intros st; cbn.
  - now rewrite app_nil_r.
  - rewrite IH, chunk_step_letters. now rewrite <- app_assoc.
Qed.

Lemma length_append s t :
  String.length (s +:+ t) = (String.length s + String.length t)%nat.
Proof.
  induction s as [| a s IH]; [reflexivity |].
  change (String a s +:+ t) with (String a (s +:+ t)).
  cbn [String.length]. now rewrite IH.
Qed.

Lemma chunk_step_fits m all st word :
  word ∈ all ->
  Forall (fits m all) st.1 -> fits m all st.2 ->
  Forall (fits m all) (chunk_step m st word).1
  /\ fits m all (chunk_step m st word).2.
Proof.
  destruct st as [chunks cur]. cbn [fst snd]. intros Hw Hchunks Hcur.
  unfold chunk_step.
  destruct (Z.leb_spec
              (Z.of_nat (String.length (cur +:+ " " +:+ word))) m)
    as [Hle | Hgt]; cbn [fst snd].
  - split; [exact Hchunks |]. left.
    rewrite !length_append in *. cbn [String.length] in Hle.
    destruct (String.eqb cur ""); cbn [String.length]; lia.
  - split; [| now right].
    apply Forall_app. split; [exact Hchunks |]. now constructor.
Qed.

Lemma fold_chunk_fits m all words : forall st,
  (forall w, w ∈ words -> w ∈ all) ->
  Forall (fits m all) st.1 -> fits m all st.2 ->
  Forall (fits m all) (fold_left (chunk_step m) words st).1
  /\ fits m all (fold_left (chunk_step m) words st).2.
Proof.
  induction words as [| w ws IH]; intros st Hall Hchunks Hcur; cbn.
  - auto.
  - destruct (chunk_step_fits m all st w) as [H1 H2];
      [apply Hall; apply elem_of_cons; now left | exact Hchunks | exact Hcur |].
    apply IH; [| exact H1 | exact H2].
    intros w' Hw'. apply Hall. apply elem_of_cons. now right.
Qed.

Lemma split_no_sep sep s : Forall (fun w => contains sep w = false) (split sep s).
Proof.
  induction s as [| a rest IH]; cbn [split].
  { constructor; [reflexivity | constructor]. }
  destruct (Ascii.eqb a sep) eqn:Ha.
  { apply Forall_cons; split; [reflexivity | exact IH]. }
  destruct (split sep rest) as [| w ws] eqn:Hs;
    [now destruct (split_nonempty sep rest) |].
  apply Forall_cons in IH as [Hw Hws].
  apply Forall_cons; split; [cbn; now rewrite Ha | exact Hws].
Qed.

Lemma split_word sep w tail :
  contains sep w = false ->
  split sep (w +:+ String sep tail) = w :: split sep tail.
Proof.
  induction w as [| a w IH]; intros Hw.
  - change (split sep (String sep tail) = "" :: split sep tail).
    cbn. now rewrite Ascii.eqb_refl.
  - change (split sep (String a (w +:+ String sep tail))
            = String a w :: split sep tail).
    cbn in Hw. apply orb_false_iff in Hw as [Ha Hw].
    cbn. rewrite Ha, (IH Hw). reflexivity.
Qed.

Lemma split_single sep w :
  contains sep w = false -> split sep w = [w].
Proof.
  induction w as [| a w IH]; intros Hw; [reflexivity |].
  cbn in Hw. apply orb_false_iff in Hw as [Ha Hw].
  cbn. now rewrite Ha, (IH Hw).
Qed.

Lemma fold_chunk_head m words : forall c cs cur,
  head (fold_left (chunk_step m) words (c :: cs, cur)).1 = Some c.
Proof.
  induction words as [| w ws IH]; intros c cs cur; cbn; [reflexivity |].
  destruct (_ <=? m); apply IH.
Qed.

Lemma chunkText_long_head m w ws text :
  split " " text = w :: ws ->
  m <= Z.of_nat (String.length w) ->
  head (chunkText text m) = Some "".
Proof.
  intros Hs Hlong. unfold chunkText. rewrite Hs. cbn [fold_left chunk_step].
  destruct (Z.leb_spec (Z.of_nat (String.length ("" +:+ " " +:+ w))) m)
    as [Hle | _].
  { change ("" +:+ " " +:+ w) with (String " " w) in Hle.
    cbn [String.length] in Hle. lia. }
  pose proof (fold_chunk_head m ws "" [] w) as H. cbn [app] in *.
  destruct (fold_left _ _ _) as [chunks cur]. cbn [fst] in H.
  destruct chunks as [| c cs]; [discriminate H |].
  destruct (String.eqb cur ""); exact H.
Qed.

(** [chunkText] loses nothing but spaces: the characters of the chunks
    that are not spaces are those of the text, in the same order.  The
    limit holds word by word only: a chunk is at most [maxChars] long
    unless it is a single word of the text, which is never cut. *)
Theorem chunks_keep_the_text (text : string) (maxChars : Z) :
  0 <= maxChars ->
  concat (map letters (chunkText text maxChars)) = letters text
  /\ Forall (fun c => Z.of_nat (String.length c) <= maxChars
                      \/ (c ∈ split " " text /\ contains " " c = false))
       (chunkText text maxChars).
Proof.
  intros Hm. split.
  - unfold chunkText.
    pose proof (fold_chunk_letters maxChars (split " " text) ([], "")) as H.
    destruct (fold_left _ _ _) as [chunks cur]. unfold letters_of in H.
    cbn in H. rewrite letters_split in H.
    destruct (String.eqb_spec cur "") as [-> | Hne].
    + cbn in H. now rewrite app_nil_r in H.
    + rewrite map_app, concat_app. cbn. now rewrite app_nil_r.
  - assert (Hfits : Forall (fits maxChars (split " " text))
                      (chunkText text maxChars)).
    { unfold chunkText.
      destruct (fold_chunk_fits maxChars (split " " text) (split " " text)
                  ([], "")) as [H1 H2];
        [auto | constructor | left; cbn; lia |].
      destruct (fold_left _ _ _) as [chunks cur]. cbn [fst snd] in *.
      destruct (String.eqb cur ""); [exact H1 |].
      apply Forall_app. split; [exact H1 | now constructor]. }
    eapply Forall_impl; [exact Hfits |].
    intros c [Hle | Hin]; [now left | right].
    split; [exact Hin |].
    pose proof (split_no_sep " " text) as Hno.
    rewrite Forall_forall in Hno. now apply Hno.
Qed.

Lemma chunks_keep_the_text_witness :
  concat (map letters (chunkText "to be or not to be" 6))
  = letters "to be or not to be"
  /\ chunkText "to be or not to be" 6 = ["to be"; "or not"; "to be"].
Proof.
  split.
  - apply (chunks_keep_the_text "to be or not to be" 6). lia.
  - reflexivity.
Defined.

(** The test of the loop counts a space before the word even when the
    current chunk is empty.  So when the first word of the text is as
    long as [maxChars] or longer, the first chunk that [chunkText]
    returns is the empty string. *)
Theorem long_first_word_gives_an_empty_chunk
    (w tail : string) (maxChars : Z) :
  contains " " w = false ->
  maxChars <= Z.of_nat (String.length w) ->
  head (chunkText w maxChars) = Some ""
  /\ head (chunkText (w +:+ " " +:+ tail) maxChars) = Some "".
Proof.
  intros Hw Hlong. split.
  - eapply chunkText_long_head; [now apply split_single | exact Hlong].
  - eapply chunkText_long_head; [| exact Hlong].
    change (" " +:+ tail) with (String " " tail). now apply split_word.
Qed.

Lemma long_first_word_gives_an_empty_chunk_witness :
  head (chunkText "internationalisation" 20) = Some ""
  /\ head (chunkText ("internationalisation" +:+ " " +:+ "of the product") 20)
     = Some "".
Proof.
  apply (long_first_word_gives_an_empty_chunk
           "internationalisation" "of the product" 20);
    [reflexivity | cbn; lia].
Defined.

End ChunkFacts.

Module PathFacts.
Import Text StreamPath ChunkFacts.

Lemma split_one sep s p :
  split sep s = [p] -> contains sep s = false /\ p = s.
Proof.
  revert p. induction s as [| a rest IH]; intros p; cbn.
  - intros [= <-]. auto.
  - destruct (Ascii.eqb a sep) eqn:Ha.
    + intros [= <- H]. now destruct (split_nonempty sep rest).
    + destruct (split sep rest) as [| w ws] eqn:Hs;
        [now destruct (split_nonempty sep rest) |].
      intros [= <- ->]. destruct (IH w eq_refl) as [Hc ->]. cbn. auto.
Qed.

Lemma prefix_spec p s :
  String.prefix p s = true <-> exists rest, s = p +:+ rest.
Proof.
  revert s. induction p as [| a p IH]; intros s.
  - split; [intros _; now exists s | intros _; now destruct s].
  - destruct s as [| b s].
    + split; [discriminate | intros [rest [=]]].
    + change (String a p +:+ ?r) with (String a (p +:+ r)).
      cbn [String.prefix].
      destruct (Ascii.ascii_dec a b) as [-> | Hne].
      * rewrite IH. split; intros [rest H]; exists rest.
        -- change (String b p +:+ rest) with (String b (p +:+ rest)).
           now rewrite H.
        -- change (String b p +:+ rest) with (String b (p +:+ rest)) in H.
           now injection H.
      * split; [discriminate |]. intros [rest H].
        change (String a p +:+ rest) with (String a (p +:+ rest)) in H.
        injection H as H1 _. now destruct Hne.
Qed.

(** The [upgrade] handler lets through every path that starts with
    [/api/outbound/stream/]; the connection handler then finds a session
    id only when what follows is not empty and has no further [/], and
    the id is then exactly what follows.  A path with a trailing slash
    or one more segment passes the upgrade and is closed with code 1008. *)
Theorem stream_path_names_the_session (pathname : string) :
  upgrade_accepts pathname = true ->
  exists rest,
    pathname = "/api/outbound/stream/" +:+ rest
    /\ session_of_path pathname
       = (if String.eqb rest "" || contains "/" rest then None
          else Some rest).
Proof.
  intros Hup. apply prefix_spec in Hup as [rest ->]. exists rest.
  split; [reflexivity |].
  unfold session_of_path.
  assert (Hparts : split "/" ("/api/outbound/stream/" +:+ rest)
                   = ["" ; "api"; "outbound"; "stream"] ++ split "/" rest).
  { change ("/api/outbound/stream/" +:+ rest)
      with ("" +:+ String "/" ("api" +:+ String "/" ("outbound" +:+
              String "/" ("stream" +:+ String "/" rest)))).
    now rewrite !split_word by reflexivity. }
  rewrite Hparts. cbn [app].
  destruct (split "/" rest) as [| p4 [| q more]] eqn:Hs.
  - now destruct (split_nonempty "/" rest).
  - apply split_one in Hs as [-> ->]. cbn. now rewrite orb_false_r.
  - destruct (contains "/" rest) eqn:Hc.
    + now rewrite orb_true_r.
    + rewrite (split_single _ _ Hc) in Hs. discriminate Hs.
Qed.

Lemma stream_path_names_the_session_witness :
  exists rest,
    "/api/outbound/stream/abc/" = "/api/outbound/stream/" +:+ rest
    /\ session_of_path "/api/outbound/stream/abc/"
       = (if String.eqb rest "" || contains "/" rest then None
          else Some rest).
Proof.
  apply (stream_path_names_the_session "/api/outbound/stream/abc/").
  reflexivity.
Defined.

End PathFacts.

Module AdmissionFacts.
Import Js Redis SessionManager Client ClientAsync MediaStream StreamPath.
Import Admission Notions RegistryFacts.





(** Without a live call record, or when the read of the record fails,
    the stream is closed with code 1011 and nothing is written.  When
    the record is there and the session is not in the memory of the
    server process, one failed read during the existence check is taken
    for a missing session: the stream is closed with code 1011 and the
    call record is deleted. *)
Theorem failed_existence_read_deletes_the_call_record
    (pathname sid : string) (w : Ws.socket) (nowMs now : Z) (s : server)
    (st : store) (faults : list bool) :
  session_of_path pathname = Some sid ->
  (read now (outbound_session st) sid = None \/ head faults = Some true ->
   run (on_connection pathname w nowMs s) faults now st
   = (Returned (Ws.close 1011 "Session not found in Redis" w, s), st))
  /\ (forall info f3 rest,
        read now (outbound_session st) sid = Some info ->
        truthy info = true ->
        Client.get (elevenlabs s) sid = None ->
        faults = false :: true :: f3 :: false :: rest ->
        run (on_connection pathname w nowMs s) faults now st
        = (Returned (Ws.close 1011 "ElevenLabs session inactive or closed" w,
                     s),
           Store (session_owner st) (delete sid (outbound_session st)))).
Proof.
  intros Hpath. split.
  - intros Hnone. unfold on_connection, checks. rewrite Hpath.
    unfold getOutboundSession. unfold_prog.
    destruct faults as [| [|] rest]; cbn;
      try reflexivity;
      (destruct Hnone as [Hnone | Hf]; [| discriminate Hf]);
      now rewrite Hnone.
  - intros info f3 rest Hread Htruthy Hget ->.
    unfold on_connection, checks. rewrite Hpath.
    unfold isSessionActiveOrOpening, sessionExistsAnywhere. rewrite Hget.
    unfold getOutboundSession, getSessionOwner, deleteOutboundSession.
    unfold_prog. cbn. rewrite Hread. cbn. rewrite Htruthy. cbn.
    destruct f3; cbn; reflexivity.
Qed.

Lemma failed_existence_read_deletes_the_call_record_witness :
  run (on_connection "/api/outbound/stream/s1" Ws.fresh 5000
         (new_server Scenarios.server7)) [false; true; false; false] 100
    Scenarios.call_in_progress
  = (Returned (Ws.close 1011 "ElevenLabs session inactive or closed" Ws.fresh,
               new_server Scenarios.server7),
     Store (session_owner Scenarios.call_in_progress)
       (delete "s1" (outbound_session Scenarios.call_in_progress))).
Proof.
  exact (proj2 (failed_existence_read_deletes_the_call_record
                  "/api/outbound/stream/s1" "s1" Ws.fresh 5000 100
                  (new_server Scenarios.server7) Scenarios.call_in_progress
                  [false; true; false; false] eq_refl)
           (JObj [("callSid", JStr "CA1"); ("status", JStr "in-progress")])
           false [] eq_refl eq_refl eq_refl eq_refl).
Defined.

(** A process takes over a session that is not in its memory only when
    the call record is there and no process holds the lease: while the
    lease of the holder lasts, [acquireSessionIfExists] answers [false]
    and changes nothing; once it has run out, the caller gets the lease
    for 30 seconds.  For a session in its own memory the answer is
    [true] and the store is not asked. *)
Theorem remote_session_is_acquired_only_after_the_lease
    (sid : string) (c : client) (now : Z) (st : store) (info : json) :
  read now (outbound_session st) sid = Some info ->
  truthy info = true ->
  (is_Some (Client.get c sid) ->
   run (acquireSessionIfExists sid c) [] now st = (Returned true, st))
  /\ (Client.get c sid = None ->
      is_Some (read now (session_owner st) sid) ->
      run (acquireSessionIfExists sid c) [] now st = (Returned false, st))
  /\ (Client.get c sid = None ->
      read now (session_owner st) sid = None ->
      run (acquireSessionIfExists sid c) [] now st
      = (Returned true,
         Store (<[sid := Entry (String_of (pid c)) (now + 30)]>
                  (session_owner st))
               (outbound_session st))).
Proof.
  intros Hread Htruthy. repeat apply conj.
  - intros [[l x] Hget]. unfold acquireSessionIfExists, sessionExistsAnywhere.
    rewrite Hget. reflexivity.
  - intros Hget [o Ho]. unfold acquireSessionIfExists, sessionExistsAnywhere.
    rewrite Hget.
    unfold getOutboundSession, getSessionOwner, acquireSessionOwnership.
    unfold_prog. cbn. rewrite Hread. cbn. rewrite Ho. cbn.
    rewrite Htruthy. cbn. rewrite Ho.
    rewrite bool_decide_eq_true_2 by eauto. reflexivity.
  - intros Hget Ho. unfold acquireSessionIfExists, sessionExistsAnywhere.
    rewrite Hget.
    unfold getOutboundSession, getSessionOwner, acquireSessionOwnership.
    unfold_prog. cbn. rewrite Hread. cbn. rewrite Ho. cbn.
    rewrite Htruthy. cbn. rewrite Ho.
    rewrite bool_decide_eq_false_2 by (intros [? [=]]). reflexivity.
Qed.

Lemma remote_session_is_acquired_only_after_the_lease_witness :
  run (acquireSessionIfExists "s1" Scenarios.server7) [] 100
    Scenarios.call_in_progress
  = (Returned false, Scenarios.call_in_progress)
  /\ run (acquireSessionIfExists "s1" Scenarios.server7) [] 120
       Scenarios.call_in_progress
     = (Returned true,
        Store (<["s1" := Entry (String_of 7) 150]>
                 (session_owner Scenarios.call_in_progress))
              (outbound_session Scenarios.call_in_progress)).
Proof.
  split.
  - refine (proj1 (proj2 (remote_session_is_acquired_only_after_the_lease
                            "s1" Scenarios.server7 100
                            Scenarios.call_in_progress _ eq_refl eq_refl))
              eq_refl _).
    vm_compute. eauto.
  - exact (proj2 (proj2 (remote_session_is_acquired_only_after_the_lease
                           "s1" Scenarios.server7 120
                           Scenarios.call_in_progress _ eq_refl eq_refl))
             eq_refl eq_refl).
Defined.

End AdmissionFacts.

Module WorkerFacts.
Import Js Redis SessionManager Client ClientAsync ClientEvents.
Import ClientFacts RegistryFacts ReconnectFacts Notions Scenarios.
Import ClientViews LifecycleFacts Worker.

Lemma handleDisconnect_closing p o a sid l s e clean rnd :
  a !! sid = Some l -> status s = CLOSING ->
  _handleDisconnect sid clean rnd (placed p o a l s e) = placed p o a l s e.
Proof.
  intros Ha Hs. unfold _handleDisconnect.
  rewrite (get_placed _ _ _ _ _ Ha), Hs. reflexivity.
Qed.

(** [endConversation] on a session of the table, whatever its socket. *)
Lemma endConversation_held p o a sid l s e nowMs :
  a !! sid = Some l ->
  always (placed p o a l (ended s) e)
    (endConversation sid nowMs (placed p o a l s e)).
Proof.
  intros Ha.
  unfold endConversation. rewrite (get_placed _ _ _ _ _ Ha).
  rewrite update_placed. unfold _stopHeartbeat.
  rewrite (clearTimers_placed _ _ _ _ _ Ha),
    (clearReconnectTimer_placed _ _ _ _ _ Ha), objects_placed.
  cbn [mbind option_bind ws set_reconnectTimer set_pongTimeoutTimer
       set_heartbeatTimer set_status].
  unfold ended.
  destruct (ws s) as [w |] eqn:Hws.
  - destruct (bool_decide (Ws.state w = Ws.OPEN)
              || bool_decide (Ws.state w = Ws.CONNECTING)).
    + rewrite update_placed.
      unfold releaseSessionOwnership.
      unfold mbind, mret, prog_bind, prog_ret, await. cbn.
      always_leaves.
    + rewrite (handleDisconnect_closing _ _ _ _ _ _ _ _ _ Ha) by reflexivity.
      unfold releaseSessionOwnership.
      unfold mbind, mret, prog_bind, prog_ret, await. cbn.
      always_leaves.
  - rewrite (handleDisconnect_closing _ _ _ _ _ _ _ _ _ Ha) by reflexivity.
    unfold releaseSessionOwnership.
    unfold mbind, mret, prog_bind, prog_ret, await. cbn.
    always_leaves.
Qed.

Lemma endConversation_of_table c sid l s nowMs :
  get c sid = Some (l, s) ->
  always (placed (pid c) (objects c) (activeSessions c) l (ended s) (effects c))
    (endConversation sid nowMs c).
Proof.
  intros Hget. apply get_Some in Hget as [Ha Ho].
  pose proof (endConversation_held (pid c) (objects c) (activeSessions c)
                sid l s (effects c) nowMs Ha) as H.
  now rewrite <- (placed_id c l s Ho) in H.
Qed.



(** *** The clean-up of a failed job *)

Lemma release_effect sid p now st :
  exists b st',
    run (releaseSessionOwnership sid p) [] now st = (Returned b, st')
    /\ outbound_session st' = outbound_session st
    /\ read now (session_owner st') sid <> Some (String_of p)
    /\ (read now (session_owner st) sid <> Some (String_of p) -> st' = st).
Proof.
  unfold releaseSessionOwnership. unfold_prog. cbn.
  destruct (read now (session_owner st) sid) as [o |] eqn:Hread; cbn.
  - destruct (String.eqb_spec o "") as [-> | Hne]; cbn.
    + eexists _, _. split; [reflexivity |].
      split; [reflexivity |]. split; [| reflexivity].
      rewrite Hread. intros [= H]. symmetry in H.
      now destruct (String_of_nonempty p).
    + case_bool_decide as Ho; cbn.
      * eexists _, _. split; [reflexivity |].
        cbn [outbound_session session_owner].
        split; [reflexivity |]. split.
        -- unfold read. now rewrite lookup_delete_eq.
        -- intros Hno. now destruct Hno.
      * eexists _, _. split; [reflexivity |].
        split; [reflexivity |]. split; [| reflexivity].
        rewrite Hread. exact Ho.
  - eexists _, _. split; [reflexivity |].
    split; [reflexivity |]. split; [| reflexivity].
    rewrite Hread. discriminate.
Qed.

Lemma delete_record_run sid now st :
  run (deleteOutboundSession sid) [] now st
  = (Returned tt, Store (session_owner st) (delete sid (outbound_session st))).
Proof. reflexivity. Qed.

(** Ending a conversation leaves the lease of another process alone. *)
Lemma endConversation_lease sid nowMs c now st :
  exists c' st1,
    run (endConversation sid nowMs c) [] now st = (Returned c', st1)
    /\ (read now (session_owner st) sid <> Some (String_of (pid c)) ->
        session_owner st1 = session_owner st).
Proof.
  unfold endConversation. destruct (get c sid) as [[l s] |] eqn:Hget.
  - unfold mbind, prog_bind. rewrite run_bind.
    destruct (release_effect sid (pid c) now st)
      as (b & st1 & Hrel & _ & _ & Hsame).
    erewrite run_try_catch_returned
      by (rewrite run_bind, Hrel; reflexivity).
    cbv zeta.
    repeat match goal with
           | |- context [match ?x with _ => _ end] => destruct x
           end;
      (eexists _, _; split; [reflexivity |]);
      intros Hno; now rewrite (Hsame Hno).
  - unfold sessionExistsAnywhere. rewrite Hget.
    unfold getOutboundSession, getSessionOwner, saveOutboundSession.
    unfold_prog. cbn.
    destruct (read now (outbound_session st) sid) as [d |] eqn:Hread; cbn;
      [destruct (truthy d) eqn:Ht; cbn;
       [rewrite Hread; cbn; rewrite Ht; cbn |] |];
      (eexists _, _; split; [reflexivity | intros _; reflexivity]).
Qed.

(** When a job fails, the clean-up leaves no call record of the session
    and no lease of this worker, and it does not touch the lease of
    another process; the session is not left open in the worker.  For a
    session that is not in the table of the worker this means that the
    termination request which [endConversation] writes is deleted with
    the record at once. *)
Theorem failed_job_cleanup_leaves_no_record
    (sid : string) (nowMs : Z) (c : client) (now : Z) (st : store) :
  exists c' st',
    run (cleanup sid nowMs c) [] now st = (Returned c', st')
    /\ (forall now', read now' (outbound_session st') sid = None)
    /\ read now (session_owner st') sid <> Some (String_of (pid c))
    /\ (read now (session_owner st) sid <> Some (String_of (pid c)) ->
        session_owner st' = session_owner st)
    /\ isSessionActive sid c' = false.
Proof.
  destruct (endConversation_lease sid nowMs c now st)
    as (c' & st1 & Hend & Hlease).
  set (st2 := Store (session_owner st1) (delete sid (outbound_session st1))).
  destruct (release_effect sid (pid c) now st2)
    as (b & st' & Hrel & Hrec & Hnot & Hsame).
  exists c', st'. split.
  { unfold cleanup, mbind, prog_bind.
    rewrite run_bind, Hend, run_bind, delete_record_run.
    fold st2. rewrite run_bind, Hrel. reflexivity. }
  split; [intros now'; rewrite Hrec; apply RecordFacts.read_delete_eq |].
  split; [exact Hnot |].
  split.
  { intros Hno. pose proof (Hlease Hno) as Hown.
    rewrite Hsame; [exact Hown |]. cbn [st2 session_owner]. now rewrite Hown. }
  destruct (get c sid) as [[l s] |] eqn:Hget.
  - pose proof (endConversation_of_table c sid l s nowMs Hget) as Halways.
    destruct (run_always _ _ Halways [] now st) as [st1' Hrun].
    rewrite Hend in Hrun. injection Hrun as -> _.
    apply get_Some in Hget as [Ha Ho].
    unfold isSessionActive. rewrite (get_placed _ _ _ _ _ Ha).
    apply bool_decide_eq_false_2. unfold ended.
    destruct (ws s) as [w |]; [destruct (_ || _) |]; discriminate.
  - destruct (run_always _ _ (endConversation_absent sid nowMs c Hget)
                [] now st) as [st1' Hrun].
    rewrite Hend in Hrun. injection Hrun as -> _.
    unfold isSessionActive. now rewrite Hget.
Qed.

End WorkerFacts.

Module RenewFacts.
Import Js Redis SessionManager Interleaving RegistryFacts InterleavingFacts.
Import Notions Scenarios.

(** Claim C5 on the code: [updateSessionOwnership] can answer [true]
    without the caller holding the lease and without any lease being
    extended.  The
    renewal is a [GET] followed by an [EXPIRE] whose reply is not looked
    at.  When the key runs out between the two, a process alone is told
    [true] while the store holds no live lease and the expiry was not
    moved; and when another process acquires the lease in between, the
    renewing process is told [true] while the store names the other
    one. *)
Theorem renew_answers_true_without_the_lease :
  (exists w,
     steps "s1" renew_expiry_gap init = Some w
     /\ now w = 30
     /\ last_answer 101 (history w) = Some (Completion 101 Renew true 30 30)
     /\ holds w 101 = true
     /\ recorded_owner "s1" w = None
     /\ session_owner (db w) !! "s1" = Some (Entry (String_of 101) 30))
  /\ (exists w,
        steps "s1" renew_race init = Some w
        /\ now w = 30
        /\ last_answer 101 (history w)
           = Some (Completion 101 Renew true 30 30)
        /\ recorded_owner "s1" w = Some (String_of 202)).
Proof.
  split.
  - destruct (steps "s1" renew_expiry_gap init) as [w |] eqn:Hrun;
      [| vm_compute in Hrun; discriminate Hrun].
    exists w. vm_compute in Hrun. injection Hrun as <-.
    vm_compute. auto 7.
  - destruct (steps "s1" renew_race init) as [w |] eqn:Hrun;
      [| vm_compute in Hrun; discriminate Hrun].
    exists w. vm_compute in Hrun. injection Hrun as <-.
    vm_compute. auto 7.
Qed.

End RenewFacts.

Module FailureFacts.
Import Js Redis SessionManager Backoff Client ClientAsync ClientEvents.
Import ClientFacts RegistryFacts ReconnectFacts BackoffFacts.
Import Notions Scenarios ClientViews LifecycleFacts Failures.

Lemma handle_all_app sid l es1 es2 c :
  handle_all sid l (es1 ++ es2) c
  = handle_all sid l es2 (handle_all sid l es1 c).
Proof.
  revert c. induction es1 as [| [e rnd] rest IH]; intros c; cbn;
    [reflexivity | apply IH].
Qed.

Lemma handle_all_failed_connection sid l r c :
  handle_all sid l (failed_connection r) c
  = handle sid l r.2 (WsClose 1006) (handle sid l r.1 WsError c).
Proof. reflexivity. Qed.

Lemma handle_all_one sid l e rnd c :
  handle_all sid l [(e, rnd)] c = handle sid l rnd e c.
Proof. reflexivity. Qed.

Lemma waits_app sid l es1 es2 c :
  waits sid l (es1 ++ es2) c
  = waits sid l es1 c ++ waits sid l es2 (handle_all sid l es1 c).
Proof.
  revert c. induction es1 as [| [e rnd] rest IH]; intros c; cbn [app waits handle_all];
    [reflexivity |].
  rewrite IH. now rewrite app_assoc.
Qed.

Section Rounds.
Context (p : Z) (o : gmap nat session) (a : gmap string nat)
        (sid : string) (l : nat).
Hypothesis Ha : a !! sid = Some l.

(** One failed connection, in placed form. *)
Lemma failed_connection_placed s e w r :
  ws s = Some w -> Ws.listeners w = true ->
  reconnectAttempts s < 9 ->
  exists e',
    handle_all sid l (failed_connection r) (placed p o a l s e)
    = placed p o a l
        (Session (Some (shut w)) (agentId s) RECONNECTING (cbs s)
           (Some (delay (reconnectAttempts s + 2) r.2)) false false
           (reconnectAttempts s + 2) (processId s))
        (e ++ e').
Proof.
  intros Hws Hlis Hn. unfold failed_connection. cbn [handle_all].
  rewrite (error_placed _ _ _ _ _ Ha _ _ w) by (assumption || lia).
  rewrite (close_unclean_placed _ _ _ _ _ Ha _ _ w)
    by (assumption || (cbn; lia)).
  cbn [cbs set_status set_ws set_heartbeatTimer set_pongTimeoutTimer
       set_reconnectAttempts set_reconnectTimer reconnectAttempts agentId
       processId].
  replace (reconnectAttempts s + 1 + 1) with (reconnectAttempts s + 2)
    by lia.
  eexists. rewrite <- !app_assoc. reflexivity.
Qed.

Lemma reconnecting_socket s draws k :
  (exists w, ws s = Some w /\ Ws.listeners w = true) ->
  exists w, ws (reconnecting s draws k) = Some w /\ Ws.listeners w = true.
Proof. intros Hs. destruct k; [exact Hs | cbn; eauto]. Qed.

Lemma reconnecting_counter s draws k :
  reconnectAttempts (reconnecting s draws k)
  = reconnectAttempts s + 2 * Z.of_nat k.
Proof. destruct k; cbn -[Z.of_nat Z.mul]; lia. Qed.

(** One failed connection and the reconnection that follows it. *)
Lemma round_placed s e draws k :
  (exists w, ws s = Some w /\ Ws.listeners w = true) ->
  reconnectAttempts s + 2 * Z.of_nat k < 9 ->
  exists e',
    handle_all sid l (failed_connection (draws (S k)) ++ timer_fires)
      (placed p o a l (reconnecting s draws k) e)
    = placed p o a l (reconnecting s draws (S k)) (e ++ e')
    /\ waits sid l (failed_connection (draws (S k)) ++ timer_fires)
         (placed p o a l (reconnecting s draws k) e)
       = [delay (reconnectAttempts s + 2 * Z.of_nat (S k)) (draws (S k)).2].
Proof.
  intros Hs Hn.
  destruct (reconnecting_socket s draws k Hs) as (w & Hws & Hlis).
  pose proof (reconnecting_counter s draws k) as Hcnt.
  destruct (failed_connection_placed (reconnecting s draws k) e w
              (draws (S k)) Hws Hlis ltac:(lia)) as [e' Hfail].
  exists e'. rewrite handle_all_app, waits_app, Hfail.
  assert (Hfields : agentId (reconnecting s draws k) = agentId s
                    /\ cbs (reconnecting s draws k) = cbs s
                    /\ processId (reconnecting s draws k) = processId s)
    by (destruct k; cbn; auto).
  destruct Hfields as (-> & -> & ->). rewrite Hcnt.
  replace (reconnectAttempts s + 2 * Z.of_nat k + 2)
    with (reconnectAttempts s + 2 * Z.of_nat (S k)) by lia.
  split.
  - unfold timer_fires. cbn [handle_all].
    erewrite (reconnect_timer_placed _ _ _ _ _ Ha) by reflexivity.
    reflexivity.
  - unfold failed_connection, timer_fires.
    cbn [waits app]. rewrite objects_placed. reflexivity.
Qed.

(** [k] failed connections in a row, from a session that has not failed
    yet: two attempts are counted for each, and the waits that elapse
    are those of the even attempts. *)
Lemma failed_attempts_placed s e draws k :
  (exists w, ws s = Some w /\ Ws.listeners w = true) ->
  reconnectAttempts s + 2 * Z.of_nat k <= 10 ->
  exists e',
    handle_all sid l (failed_attempts draws k) (placed p o a l s e)
    = placed p o a l (reconnecting s draws k) (e ++ e')
    /\ waits sid l (failed_attempts draws k) (placed p o a l s e)
       = map (fun j => delay (reconnectAttempts s + 2 * Z.of_nat j)
                         (draws j).2)
           (seq 1 k).
Proof.
  intros Hs. induction k as [| k IH]; intros Hn.
  - exists []. cbn. now rewrite app_nil_r.
  - destruct IH as (e1 & Hrun & Hwaits); [lia |].
    destruct (round_placed s (e ++ e1) draws k Hs ltac:(lia))
      as (e2 & Hrun2 & Hwaits2).
    exists (e1 ++ e2).
    cbn [failed_attempts]. rewrite handle_all_app, waits_app, Hrun, Hrun2.
    split; [now rewrite app_assoc |].
    rewrite Hwaits, Hwaits2, seq_S, map_app. reflexivity.
Qed.

(** An ['error'] of the socket, up to [_scheduleReconnect]. *)
Lemma error_schedules_placed s e w rnd :
  ws s = Some w -> Ws.listeners w = true ->
  handle sid l rnd WsError (placed p o a l s e)
  = _scheduleReconnect sid rnd
      (placed p o a l
         (set_pongTimeoutTimer false
            (set_heartbeatTimer false (set_status ERROR s)))
         (e ++ (if onError (cbs s) then [Call "onError" [JStr sid]] else [])
            ++ [Emit "error" [JStr sid]])).
Proof.
  intros Hws Hlis. cbn [handle].
  rewrite listening_placed, Hws, Hlis, objects_placed, update_placed.
  destruct (onError (cbs s)).
  - rewrite call_placed, emit_placed. unfold _handleDisconnect.
    rewrite (get_placed _ _ _ _ _ Ha). cbn [status set_status closing_or_closed].
    unfold _stopHeartbeat. rewrite (clearTimers_placed _ _ _ _ _ Ha).
    cbn. now rewrite <- !app_assoc.
  - rewrite emit_placed. unfold _handleDisconnect.
    rewrite (get_placed _ _ _ _ _ Ha). cbn [status set_status closing_or_closed].
    unfold _stopHeartbeat. rewrite (clearTimers_placed _ _ _ _ _ Ha).
    cbn. reflexivity.
Qed.

End Rounds.

(** The state in which the sixth failure finds a session that has
    failed five times. *)
Lemma five_failed_state c sid l s w draws :
  get c sid = Some (l, s) ->
  ws s = Some w -> Ws.listeners w = true ->
  reconnectAttempts s = 0 ->
  exists e',
    handle_all sid l (failed_attempts draws 5) c
    = placed (pid c) (objects c) (activeSessions c) l
        (reconnecting s draws 5) (effects c ++ e')
    /\ waits sid l (failed_attempts draws 5) c
       = map (fun j => delay (2 * Z.of_nat j) (draws j).2) (seq 1 5).
Proof.
  intros Hget Hws Hlis Hn. apply get_Some in Hget as [Ha Ho].
  destruct (failed_attempts_placed (pid c) (objects c) (activeSessions c)
              sid l Ha s (effects c) draws 5)
    as (e' & Hrun & Hwaits); [eauto | rewrite Hn; lia |].
  rewrite <- (placed_id c l s Ho) in Hrun, Hwaits.
  exists e'. split; [exact Hrun |].
  rewrite Hwaits. apply map_ext. intros j. now rewrite Hn.
Qed.

(** The sixth failure, once five have been counted twice. *)
Lemma sixth_failure c sid l s w draws rnd :
  get c sid = Some (l, s) ->
  ws s = Some w -> Ws.listeners w = true ->
  reconnectAttempts s = 0 ->
  let c5 := handle_all sid l (failed_attempts draws 5) c in
  let c6 := handle sid l rnd WsError c5 in
  get c5 sid = Some (l, reconnecting s draws 5)
  /\ (exists s6,
        objects c6 !! l = Some s6
        /\ status s6 = CLOSED
        /\ reconnectTimer s6 = None
        /\ heartbeatTimer s6 = false
        /\ pongTimeoutTimer s6 = false)
  /\ activeSessions c6 !! sid = None
  /\ effects c6
     = effects c5
       ++ (if onError (cbs s) then [Call "onError" [JStr sid]] else [])
       ++ [Emit "error" [JStr sid];
           Emit "permanently_closed"
             [JStr sid; JStr "Max reconnection attempts reached"]]
       ++ (if onClose (cbs s)
           then [Call "onClose"
                   [JStr sid; JNum 1011;
                    JStr "Max reconnection attempts reached"]]
           else [])
  /\ (forall es, handle_all sid l es c6 = c6)
  /\ forall nowMs rnd' faults now st,
       (exists st',
          run (heartbeat_tick sid l nowMs rnd' c6) faults now st
          = (Returned c6, st'))
       /\ (exists st',
             run (endConversation sid nowMs c6) faults now st
             = (Returned c6, st'))
       /\ (exists st',
             run (_checkForTerminationRequests sid nowMs c6) faults now st
             = (Returned c6, st')).
Proof.
  intros Hget Hws Hlis Hn c5 c6.
  destruct (five_failed_state c sid l s w draws Hget Hws Hlis Hn)
    as (e' & Hrun & _).
  apply get_Some in Hget as [Ha Ho].
  subst c6 c5. rewrite Hrun.
  split; [apply (get_placed _ _ _ _ _ Ha) |].
  rewrite (error_schedules_placed _ _ _ _ _ Ha _ _ Ws.fresh)
    by reflexivity.
  match goal with
  | |- context [_scheduleReconnect sid rnd ?c'] => set (cs := c')
  end.
  destruct (max_attempts_close_for_good cs sid l
              (set_pongTimeoutTimer false
                 (set_heartbeatTimer false
                    (set_status ERROR (reconnecting s draws 5)))) rnd)
    as (_ & Hobj & Hout & _ & Heff & Hquiet & Hasync).
  - apply (get_placed _ _ _ _ _ Ha).
  - discriminate.
  - discriminate.
  - cbn. lia.
  - split; [exact Hobj |]. split; [exact Hout |].
    split; [| split; [exact Hquiet | exact Hasync]].
    rewrite Heff. subst cs. cbn [effects placed cbs set_pongTimeoutTimer
      set_heartbeatTimer set_status reconnecting].
    rewrite <- !app_assoc. reflexivity.
Qed.

(** Claim C7 on the code: the attempt counter runs twice as fast as the
    connections fail.
    A failed connection is reported as ['error'] and then as ['close'],
    and each handler counts an attempt: after five failed connections
    in a row the counter stands at [RECONNECT_MAX_ATTEMPTS], 10, with the
    fifth reconnection under way, and when that one fails too the
    session is closed for good: marked [CLOSED], [permanently_closed]
    emitted, the close callback called with code 1011 and the reason
    "Max reconnection attempts reached", timers cleared, out of the
    table, and deaf to every later event, heartbeat tick and call with
    its id.  Five reconnections were attempted, not ten. *)
Theorem five_reconnections_exhaust_the_ten_attempts
    (c : client) (sid : string) (l : nat) (s : session) (w : Ws.socket)
    (draws : nat -> Q * Q) (rnd : Q) :
  get c sid = Some (l, s) ->
  ws s = Some w -> Ws.listeners w = true ->
  reconnectAttempts s = 0 ->
  let c5 := handle_all sid l (failed_attempts draws 5) c in
  let c6 := handle sid l rnd WsError c5 in
  RECONNECT_MAX_ATTEMPTS = Some 10
  /\ length (waits sid l (failed_attempts draws 5) c) = 5%nat
  /\ (exists s5,
        get c5 sid = Some (l, s5)
        /\ status s5 = CONNECTING
        /\ ws s5 = Some Ws.fresh
        /\ reconnectAttempts s5 = 10)
  /\ (exists s6,
        objects c6 !! l = Some s6
        /\ status s6 = CLOSED
        /\ reconnectTimer s6 = None
        /\ heartbeatTimer s6 = false
        /\ pongTimeoutTimer s6 = false)
  /\ activeSessions c6 !! sid = None
  /\ effects c6
     = effects c5
       ++ (if onError (cbs s) then [Call "onError" [JStr sid]] else [])
       ++ [Emit "error" [JStr sid];
           Emit "permanently_closed"
             [JStr sid; JStr "Max reconnection attempts reached"]]
       ++ (if onClose (cbs s)
           then [Call "onClose"
                   [JStr sid; JNum 1011;
                    JStr "Max reconnection attempts reached"]]
           else [])
  /\ (forall es, handle_all sid l es c6 = c6)
  /\ forall nowMs rnd' faults now st,
       (exists st',
          run (heartbeat_tick sid l nowMs rnd' c6) faults now st
          = (Returned c6, st'))
       /\ (exists st',
             run (endConversation sid nowMs c6) faults now st
             = (Returned c6, st'))
       /\ (exists st',
             run (_checkForTerminationRequests sid nowMs c6) faults now st
             = (Returned c6, st')).
Proof.
  intros Hget Hws Hlis Hn c5 c6.
  destruct (sixth_failure c sid l s w draws rnd Hget Hws Hlis Hn)
    as (Hc5 & Hobj & Hout & Heff & Hquiet & Hasync).
  destruct (five_failed_state c sid l s w draws Hget Hws Hlis Hn)
    as (e' & _ & Hwaits).
  split; [reflexivity |].
  split; [now rewrite Hwaits |].
  split.
  { exists (reconnecting s draws 5). split; [exact Hc5 |].
    cbn. rewrite Hn. auto. }
  auto.
Qed.

Lemma five_reconnections_exhaust_the_ten_attempts_witness :
  activeSessions
    (handle "s1" 0 0%Q WsError
       (handle_all "s1" 0 (failed_attempts (fun _ => (0%Q, 0%Q)) 5)
          just_started)) !! "s1" = None
  /\ length (waits "s1" 0 (failed_attempts (fun _ => (0%Q, 0%Q)) 5)
               just_started) = 5%nat.
Proof.
  destruct (five_reconnections_exhaust_the_ten_attempts just_started "s1"
              0%nat
              (Session (Some Ws.fresh) "agent" CONNECTING
                 (Callbacks true false true true) None false false 0 9)
              Ws.fresh (fun _ => (0%Q, 0%Q)) 0%Q
              eq_refl eq_refl eq_refl eq_refl)
    as (_ & Hfive & _ & _ & Hout & _).
  split; [exact Hout | exact Hfive].
Defined.

(** Claim C4 on the code: the waits do not follow the schedule 1000,
    2000, 4000, 8000, 16000, 30000, and they can exceed the cap.
    Since each failed connection counts two attempts, the wait
    that is armed when the [k]-th connection in a row has failed
    (k = 1, ..., 5) is the delay of attempt [2k]: between its base
    [min(30000, 1000 * 2^(2k-1))] and that base plus a fifth; without
    jitter the five waits are 2000, 8000, 30000, 30000, 30000.  The
    jitter is never negative and is added after the cap: a draw of one
    half at attempt 6, which the third failure reaches, waits 33000 ms. *)
Theorem failed_connections_wait_the_even_delays
    (c : client) (sid : string) (l : nat) (s : session) (w : Ws.socket)
    (draws : nat -> Q * Q) (k : nat) :
  get c sid = Some (l, s) ->
  ws s = Some w -> Ws.listeners w = true ->
  reconnectAttempts s = 0 ->
  (k < 5)%nat ->
  (0 <= (draws (S k)).2)%Q -> ((draws (S k)).2 < 1)%Q ->
  let n := 2 * Z.of_nat (S k) in
  let c' :=
    handle_all sid l
      (failed_attempts draws k ++ failed_connection (draws (S k))) c in
  (exists s',
     get c' sid = Some (l, s')
     /\ status s' = RECONNECTING
     /\ reconnectAttempts s' = n
     /\ reconnectTimer s' = Some (delay n (draws (S k)).2))
  /\ baseDelay n = Z.min 30000 (1000 * 2 ^ (n - 1))
  /\ baseDelay n <= delay n (draws (S k)).2 <= baseDelay n + baseDelay n / 5
  /\ map (fun j => delay (2 * j) 0) [1; 2; 3; 4; 5]
     = [2000; 8000; 30000; 30000; 30000]
  /\ delay 6 (1 # 2) = 33000
  /\ ~ never_exceeds_cap.
Proof.
  intros Hget Hws Hlis Hn Hk H0 H1 n c'.
  pose proof Hget as Hget'. apply get_Some in Hget' as [Ha Ho].
  split.
  { destruct (failed_attempts_placed (pid c) (objects c) (activeSessions c)
                sid l Ha s (effects c) draws k)
      as (e1 & Hrun & _); [eauto | lia |].
    rewrite <- (placed_id c l s Ho) in Hrun.
    destruct (reconnecting_socket s draws k) as (w' & Hws' & Hlis');
      [eauto |].
    destruct (failed_connection_placed (pid c) (objects c)
                (activeSessions c) sid l Ha (reconnecting s draws k)
                (effects c ++ e1) w' (draws (S k)) Hws' Hlis')
      as (e2 & Hfail).
    { rewrite reconnecting_counter. lia. }
    subst c'. rewrite handle_all_app, Hrun, Hfail.
    eexists. split; [apply (get_placed _ _ _ _ _ Ha) |].
    cbn -[delay Z.of_nat Z.mul Z.add].
    rewrite reconnecting_counter, Hn. subst n.
    replace (0 + 2 * Z.of_nat k + 2) with (2 * Z.of_nat (S k)) by lia.
    auto. }
  split; [reflexivity |].
  split; [apply delay_bounds; [subst n; lia | exact H0 | exact H1] |].
  split; [vm_compute; reflexivity |].
  split; [apply backoff_delay_exceeds_cap |].
  apply backoff_delay_exceeds_cap.
Qed.

Lemma failed_connections_wait_the_even_delays_witness :
  exists s',
    get (handle_all "s1" 0 (failed_connection (0%Q, 0%Q)) just_started) "s1"
    = Some (0%nat, s')
    /\ reconnectTimer s' = Some 2000.
Proof.
  destruct (failed_connections_wait_the_even_delays just_started "s1"
              0%nat
              (Session (Some Ws.fresh) "agent" CONNECTING
                 (Callbacks true false true true) None false false 0 9)
              Ws.fresh (fun _ => (0%Q, 0%Q)) 0%nat
              eq_refl eq_refl eq_refl eq_refl ltac:(lia)
              ltac:(discriminate) ltac:(reflexivity))
    as ((s' & Hget & _ & _ & Htimer) & _).
  exists s'. split; [exact Hget |].
  rewrite Htimer. vm_compute. reflexivity.
Defined.

Lemma waits_of_six_failures c sid l s w draws :
  get c sid = Some (l, s) ->
  ws s = Some w -> Ws.listeners w = true ->
  reconnectAttempts s = 0 ->
  waits sid l (failed_attempts draws 5 ++ failed_connection (draws 6%nat)) c
  = map (fun j => delay (2 * Z.of_nat j) (draws j).2) [1; 2; 3; 4; 5]%nat.
Proof.
  intros Hget Hws Hlis Hn.
  destruct (five_failed_state c sid l s w draws Hget Hws Hlis Hn)
    as (e' & Hrun & Hwaits).
  rewrite waits_app, Hwaits.
  unfold failed_connection. cbn [waits].
  rewrite !app_nil_r. reflexivity.
Qed.

Lemma five_waits_total (draws : nat -> Q * Q) :
  (forall j, (0 <= (draws j).2)%Q /\ ((draws j).2 < 1)%Q) ->
  100000
  <= total (map (fun j => delay (2 * Z.of_nat j) (draws j).2)
              [1; 2; 3; 4; 5]%nat)
  <= 120000.
Proof.
  intros Hdraws.
  assert (Hb : forall n, 1 <= n -> forall j,
            baseDelay n <= delay n (draws j).2
            <= baseDelay n + baseDelay n / 5).
  { intros n Hj j. destruct (Hdraws j) as [H0 H1].
    apply delay_bounds; [lia | exact H0 | exact H1]. }
  pose proof (Hb 2 ltac:(lia) 1%nat) as H1.
  pose proof (Hb 4 ltac:(lia) 2%nat) as H2.
  pose proof (Hb 6 ltac:(lia) 3%nat) as H3.
  pose proof (Hb 8 ltac:(lia) 4%nat) as H4.
  pose proof (Hb 10 ltac:(lia) 5%nat) as H5.
  change (baseDelay 2) with 2000 in H1.
  change (baseDelay 4) with 8000 in H2.
  change (baseDelay 6) with 30000 in H3.
  change (baseDelay 8) with 30000 in H4.
  change (baseDelay 10) with 30000 in H5.
  change (2000 / 5) with 400 in H1. change (8000 / 5) with 1600 in H2.
  change (30000 / 5) with 6000 in *.
  unfold total. cbn [map foldr].
  change (2 * Z.of_nat 1) with 2. change (2 * Z.of_nat 2) with 4.
  change (2 * Z.of_nat 3) with 6. change (2 * Z.of_nat 4) with 8.
  change (2 * Z.of_nat 5) with 10.
  lia.
Qed.

(** From the first failure of a connection to the closure for good,
    five waits elapse, those of the attempts 2, 4, 6, 8 and 10; they add
    up to between 100 and 120 seconds, whatever the jitter, and the
    sixth failure takes the session out of the table. *)
Theorem five_waits_elapse_before_the_closure
    (c : client) (sid : string) (l : nat) (s : session) (w : Ws.socket)
    (draws : nat -> Q * Q) :
  get c sid = Some (l, s) ->
  ws s = Some w -> Ws.listeners w = true ->
  reconnectAttempts s = 0 ->
  (forall j, (0 <= (draws j).2)%Q /\ ((draws j).2 < 1)%Q) ->
  let es := failed_attempts draws 5 ++ failed_connection (draws 6%nat) in
  waits sid l es c
  = map (fun j => delay (2 * Z.of_nat j) (draws j).2) [1; 2; 3; 4; 5]%nat
  /\ 100000 <= total (waits sid l es c) <= 120000
  /\ activeSessions (handle_all sid l es c) !! sid = None.
Proof.
  intros Hget Hws Hlis Hn Hdraws es.
  pose proof (waits_of_six_failures c sid l s w draws Hget Hws Hlis Hn)
    as Hes.
  destruct (sixth_failure c sid l s w draws (draws 6%nat).1
              Hget Hws Hlis Hn) as (_ & Hobj & Hout & _ & Hquiet & _).
  split; [exact Hes |].
  split.
  - subst es. rewrite Hes. now apply five_waits_total.
  - subst es. rewrite handle_all_app, handle_all_failed_connection.
    specialize (Hquiet [(WsClose 1006, (draws 6%nat).2)]).
    rewrite handle_all_one in Hquiet. rewrite Hquiet. exact Hout.
Qed.

Lemma five_waits_elapse_before_the_closure_witness :
  100000
  <= total (waits "s1" 0
              (failed_attempts (fun _ => (0%Q, 1 # 2)%Q) 5
               ++ failed_connection (0%Q, 1 # 2)%Q) just_started)
  <= 120000.
Proof.
  apply (five_waits_elapse_before_the_closure just_started "s1" 0%nat
           (Session (Some Ws.fresh) "agent" CONNECTING
              (Callbacks true false true true) None false false 0 9)
           Ws.fresh (fun _ => (0%Q, 1 # 2)%Q)
           eq_refl eq_refl eq_refl eq_refl).
  intros j. split; [discriminate | reflexivity].
Defined.

End FailureFacts.
